(** * dbt: the [util] helpers and the Jujutsu module backend

    A shallow embedding of [util] (prefix cutting, module-root and
    workspace-root search, directory helpers) and of [JujutsuModule]
    (the module backed by a jj repository with a git store), together with
    the properties of both that the design document relies on.

    Go strings are byte strings: they are modelled by [string], whose
    characters are the bytes.  Code that talks to the operating system or
    spawns a subprocess is written in a small state monad over a [World]
    (file system, subprocess trace, logger calls); [log.Fatal] ends the
    process and is the [Exit] outcome of that monad. *)

From Stdlib Require Import String Ascii List Bool Arith Lia DecimalString.
Import ListNotations.
Open Scope list_scope.
Open Scope string_scope.

(** ** Go's [strings] package, the part the sources call *)

Module Strings.

(** [s[n:]] for [n <= len(s)]; [None] is the run-time panic Go raises
    when the bound is out of range. *)
Fixpoint slice_from (n : nat) (s : string) : option string :=
  match n, s with
  | 0, _ => Some s
  | S k, String _ s' => slice_from k s'
  | S _, EmptyString => None
  end.

(** [s[:n]] for [n <= len(s)], with the same convention. *)
Fixpoint slice_to (n : nat) (s : string) : option string :=
  match n, s with
  | 0, _ => Some EmptyString
  | S k, String a s' => option_map (String a) (slice_to k s')
  | S _, EmptyString => None
  end.

(** [strings.HasPrefix]:
    [len(s) >= len(prefix) && s[:len(prefix)] == prefix]. *)
Definition HasPrefix (s prefix : string) : bool :=
  Nat.leb (String.length prefix) (String.length s) &&
  match slice_to (String.length prefix) s with
  | Some h => String.eqb h prefix
  | None => false
  end.

(** [strings.HasSuffix]:
    [len(s) >= len(suffix) && s[len(s)-len(suffix):] == suffix]. *)
Definition HasSuffix (s suffix : string) : bool :=
  Nat.leb (String.length suffix) (String.length s) &&
  match slice_from (String.length s - String.length suffix) s with
  | Some t => String.eqb t suffix
  | None => false
  end.

(** [strings.TrimSuffix]: [s] without the trailing [suffix], or [s]
    itself when it does not end with [suffix]. *)
Definition TrimSuffix (s suffix : string) : string :=
  if HasSuffix s suffix then
    match slice_to (String.length s - String.length suffix) s with
    | Some h => h
    | None => s
    end
  else s.

(** [strings.Join]. *)
Definition Join (elems : list string) (sep : string) : string :=
  String.concat sep elems.

(** [strings.Split(s, sep)] for a one-byte separator: one piece more than
    there are separators, so the empty string splits into one empty
    piece. *)
Fixpoint Split (s : string) (sep : ascii) : list string :=
  match s with
  | EmptyString => [EmptyString]
  | String a s' =>
      if Ascii.eqb a sep then EmptyString :: Split s' sep
      else match Split s' sep with
           | h :: t => String a h :: t
           | [] => [String a EmptyString]
           end
  end.

(** Reversal of a byte string, used to look at a string from its end. *)
Fixpoint rev_onto (s acc : string) : string :=
  match s with
  | EmptyString => acc
  | String a s' => rev_onto s' (String a acc)
  end.

Definition rev (s : string) : string := rev_onto s EmptyString.

Definition utf8 (bytes : list nat) : string :=
  string_of_list_ascii (map ascii_of_nat bytes).

(** The UTF-8 encodings of the code points for which [unicode.IsSpace]
    holds: tab, LF, VT, FF, CR, space, U+0085, U+00A0, U+1680,
    U+2000 to U+200A, U+2028, U+2029, U+202F, U+205F and U+3000. *)
Definition space_runes : list string :=
  [ utf8 [9]; utf8 [10]; utf8 [11]; utf8 [12]; utf8 [13]; utf8 [32];
    utf8 [194; 133]; utf8 [194; 160]; utf8 [225; 154; 128];
    utf8 [226; 128; 128]; utf8 [226; 128; 129]; utf8 [226; 128; 130];
    utf8 [226; 128; 131]; utf8 [226; 128; 132]; utf8 [226; 128; 133];
    utf8 [226; 128; 134]; utf8 [226; 128; 135]; utf8 [226; 128; 136];
    utf8 [226; 128; 137]; utf8 [226; 128; 138]; utf8 [226; 128; 168];
    utf8 [226; 128; 169]; utf8 [226; 128; 175]; utf8 [226; 129; 159];
    utf8 [227; 128; 128] ].

(** Number of bytes of the rune of [runes] that [s] starts with, [0] when
    it starts with none of them. *)
Definition rune_width (runes : list string) (s : string) : nat :=
  match find (HasPrefix s) runes with
  | Some r => String.length r
  | None => 0
  end.

(** Drops the runes of [runes] the string starts with; [skip] counts the
    bytes of the current rune still to drop. *)
Fixpoint trim_left (runes : list string) (skip : nat) (s : string)
  : string :=
  match s with
  | EmptyString => EmptyString
  | String _ s' =>
      match skip with
      | S k => trim_left runes k s'
      | 0 => match rune_width runes s with
             | 0 => s
             | S k => trim_left runes k s'
             end
      end
  end.

(** [strings.TrimSpace]: leading white space is dropped first, then
    trailing white space (read from the end, so against the reversed
    encodings). *)
Definition TrimSpace (s : string) : string :=
  rev (trim_left (map rev space_runes) 0
         (rev (trim_left space_runes 0 s))).

End Strings.

(** The line feed, Go's ["\n"]. *)
Definition LF : string := String (ascii_of_nat 10) EmptyString.

(** ** Go's [path] package *)

Module Path.

Definition slash : ascii := "/"%char.

Definition rooted (p : string) : bool :=
  match p with
  | String a _ => Ascii.eqb a slash
  | EmptyString => false
  end.

(** One element of the path read by [Clean], [out] being the elements
    written so far, last first: an empty element and [.] are dropped,
    [..] removes the element before it when there is one to remove, is
    dropped at the root, and is kept in front of a path that is not
    rooted; any other element is written. *)
Definition clean_step (is_rooted : bool) (out : list string)
  (e : string) : list string :=
  if String.eqb e "" then out
  else if String.eqb e "." then out
  else if String.eqb e ".." then
    match out with
    | top :: below =>
        if String.eqb top ".." then
          if is_rooted then out else e :: out
        else below
    | [] => if is_rooted then out else [e]
    end
  else e :: out.

(** [path.Clean]: the shortest path equivalent to the argument. *)
Definition Clean (p : string) : string :=
  if String.eqb p "" then "."
  else
    let out :=
      List.rev (fold_left (clean_step (rooted p))
                  (Strings.Split p slash) []) in
    if rooted p then "/" ++ String.concat "/" out
    else match out with
         | [] => "."
         | _ => String.concat "/" out
         end.

Fixpoint has_slash (p : string) : bool :=
  match p with
  | EmptyString => false
  | String a p' => Ascii.eqb a slash || has_slash p'
  end.

Fixpoint all_slashes (p : string) : bool :=
  match p with
  | EmptyString => true
  | String a p' => Ascii.eqb a slash && all_slashes p'
  end.

(** [path[:i+1]] for [i] the index of the last slash ([-1] when there is
    none): what [path.Split] returns as the directory part. *)
Fixpoint dir_part (p : string) : string :=
  match p with
  | EmptyString => EmptyString
  | String a p' =>
      if Ascii.eqb a slash || has_slash p' then String a (dir_part p')
      else EmptyString
  end.

(** [path[i+1:]] for the same [i]. *)
Fixpoint file_part (p : string) : string :=
  match p with
  | EmptyString => EmptyString
  | String a p' =>
      if Ascii.eqb a slash || has_slash p' then file_part p' else p
  end.

(** The path without its trailing slashes. *)
Fixpoint strip_slashes (p : string) : string :=
  match p with
  | EmptyString => EmptyString
  | String a p' =>
      if Ascii.eqb a slash && all_slashes p' then EmptyString
      else String a (strip_slashes p')
  end.

(** [path.Base]: the last element of the path; [.] for the empty path
    and [/] for a path of slashes only. *)
Definition Base (p : string) : string :=
  if String.eqb p "" then "."
  else
    let last := file_part (strip_slashes p) in
    if String.eqb last "" then "/" else last.

(** [path.Dir]: all but the last element, cleaned. *)
Definition Dir (p : string) : string := Clean (dir_part p).

(** [path.Join]: the elements joined by slashes, empty leading elements
    ignored, and the result cleaned; the empty string when every element
    is empty. *)
Definition Join (elem : list string) : string :=
  let buf :=
    fold_left
      (fun buf e =>
         if negb (String.eqb buf "") || negb (String.eqb e "") then
           (if negb (String.eqb buf "") then buf ++ "/" else buf) ++ e
         else buf)
      elem "" in
  if Nat.eqb (list_sum (map String.length elem)) 0 then ""
  else Clean buf.

End Path.

(** ** The world the program runs in *)

(** A file-system entry: a directory, or anything that is not one. *)
Inductive node : Type := File | Directory.

(** The file system: the working directory of the process ([None] when
    the system cannot report it), the entry at each absolute clean path,
    the paths at which the system refuses to create or to remove an entry
    (permissions, read-only mounts, ...), and the working copies whose
    files carry local changes that no commit records.  There are no
    symbolic links. *)
Record FS : Type := mkFS {
  cwd : option string;
  entry : string -> option node;
  denied : list string;
  uncommitted : string -> bool
}.

(** A subprocess as [exec.Command] sets it up, and what [cmd.Run] gives
    back: the captured output streams and, when the process could not be
    started or exited with a nonzero status, the text of the error. *)
Record Cmd : Type := mkCmd {
  prog : string;
  args : list string;
  dir : string
}.

Record ProcResult : Type := mkProc {
  stdout : string;
  stderr : string;
  err : option string
}.

(** The installed command-line tools: what a command does, given the
    commands run before it and the file system it sees. *)
Definition Tool : Type := list Cmd -> FS -> Cmd -> ProcResult * FS.

(** Modelled from the spec: package [log] is not among the sources.  A call
    of the logger is recorded with its level, its format string and its
    arguments, as the call sites pass them. *)
Inductive level : Type := LDebug | LLog | LWarning | LFatal.

Record LogCall : Type := mkLog {
  lvl : level;
  format : string;
  fargs : list string
}.

Record World : Type := mkWorld {
  fs : FS;
  trace : list Cmd;      (* subprocesses run so far, latest first *)
  logs : list LogCall    (* logger calls so far, latest first *)
}.

(** How a computation ends: with a value, or with the process terminated
    by [log.Fatal] (the call is kept). *)
Inductive outcome (A : Type) : Type :=
| Ret (a : A)
| Exit (call : LogCall).
Arguments Ret {A} a.
Arguments Exit {A} call.

Definition M (A : Type) : Type := World -> outcome A * World.

Definition ret {A} (a : A) : M A := fun w => (Ret a, w).

Definition bind {A B} (m : M A) (k : A -> M B) : M B :=
  fun w =>
    match m w with
    | (Ret a, w') => k a w'
    | (Exit c, w') => (Exit c, w')
    end.

Notation "x <- m ;; k" := (bind m (fun x => k))
  (at level 61, m at next level, right associativity).
Notation "m ;;; k" := (bind m (fun _ => k))
  (at level 61, right associativity).

Definition log_call (l : level) (fmt : string) (a : list string) : M unit :=
  fun w => (Ret tt, mkWorld (fs w) (trace w) (mkLog l fmt a :: logs w)).

(** Modelled from the spec: [log.Fatal] is not among the sources; the
    comments of its callers say that it exits with the error message, and
    the design document that a fatal error ends the whole run. *)
Definition log_Fatal {A} (fmt : string) (a : list string) : M A :=
  fun w => (Exit (mkLog LFatal fmt a), w).

Definition log_Debug := log_call LDebug.
Definition log_Log := log_call LLog.
Definition log_Warning := log_call LWarning.

(** Modelled from the spec: the text a logger call prints, for a format
    whose verbs are [%s] and string-like arguments, as [fmt.Sprintf] builds
    it. *)
Fixpoint extra_args (a : list string) : string :=
  match a with
  | [] => ""
  | [x] => "string=" ++ x
  | x :: rest => "string=" ++ x ++ ", " ++ extra_args rest
  end.

Fixpoint Sprintf (fmt : string) (a : list string) : string :=
  match fmt with
  | EmptyString =>
      match a with
      | [] => ""
      | _ => "%!(EXTRA " ++ extra_args a ++ ")"
      end
  | String c rest =>
      if Ascii.eqb c "%"%char then
        match rest with
        | String d rest' =>
            if Ascii.eqb d "s"%char then
              match a with
              | x :: a' => x ++ Sprintf rest' a'
              | [] => "%!s(MISSING)" ++ Sprintf rest' []
              end
            else if Ascii.eqb d "%"%char then String d (Sprintf rest' a)
            else String c (Sprintf rest a)
        | EmptyString => "%!(NOVERB)" ++ Sprintf rest a
        end
      else String c (Sprintf rest a)
  end.

Definition message (c : LogCall) : string := Sprintf (format c) (fargs c).

(** ** The operating system, as [util] uses it *)

Module Os.

(** The causes of the errors met here, and the text Go prints for each.
    An error of package [os] is represented by the text of its cause; the
    operation and the path that a [*PathError] prints in front of it are
    left out. *)
Inductive errno : Type :=
| ENOENT | ENOTDIR | EEXIST | EACCES | EINVAL | ENOTEMPTY | EBUSY.

Definition strerror (e : errno) : string :=
  match e with
  | ENOENT => "no such file or directory"
  | ENOTDIR => "not a directory"
  | EEXIST => "file exists"
  | EACCES => "permission denied"
  | EINVAL => "invalid argument"
  | ENOTEMPTY => "directory not empty"
  | EBUSY => "device or resource busy"
  end.

(** *** Names, as the system resolves them *)

Inductive lookup : Type :=
| Found (a : string)
| Failed (e : errno).

(** The elements of a name as written; empty ones (doubled, leading or
    trailing slashes) play no part in the walk. *)
Definition names (name : string) : list string :=
  filter (fun e => negb (String.eqb e "")) (Strings.Split name Path.slash).

(** The entry [e] of the directory [d]. *)
Definition child (d e : string) : string :=
  if String.eqb d "/" then d ++ e else d ++ "/" ++ e.

(** The walk along the elements of a name, from the directory [cur]:
    every element is looked up in a directory that exists, [.] stays
    there and [..] goes to the parent.  The place reached need not
    exist. *)
Fixpoint walk (f : FS) (cur : string) (l : list string) : lookup :=
  match l with
  | [] => Found cur
  | e :: rest =>
      match entry f cur with
      | Some Directory =>
          walk f (if String.eqb e "." then cur
                  else if String.eqb e ".." then Path.Dir cur
                  else child cur e) rest
      | Some File => Failed ENOTDIR
      | None => Failed ENOENT
      end
  end.

(** The place a name denotes: a rooted name is walked from the root, any
    other from the working directory; the empty name denotes nothing. *)
Definition namei (f : FS) (name : string) : lookup :=
  if String.eqb name "" then Failed ENOENT
  else if Path.rooted name then walk f "/" (names name)
  else match cwd f with
       | Some d => walk f d (names name)
       | None => Failed ENOENT
       end.

(** [os.Stat], and [os.Lstat] as well since nothing is a link: the entry
    at a name, if there is one; a name that ends with a slash denotes
    directories only. *)
Definition Stat (f : FS) (name : string) : option node :=
  match namei f name with
  | Found a =>
      match entry f a with
      | Some File => if Strings.HasSuffix name "/" then None else Some File
      | x => x
      end
  | Failed _ => None
  end.

(** [q] is [a] or lies below it. *)
Definition under (a q : string) : bool :=
  String.eqb a "/" || String.eqb q a || Strings.HasPrefix q (a ++ "/").

(** The path and the directories above it, up to the root. *)
Fixpoint chain (fuel : nat) (a : string) : list string :=
  match fuel with
  | 0 => [a]
  | S n => if String.eqb a "/" then [a] else a :: chain n (Path.Dir a)
  end.

Definition ancestors (a : string) : list string :=
  chain (String.length a) a.

(** *** Creating directories *)

Definition refused (f : FS) (a : string) : bool :=
  existsb (String.eqb a) (denied f).

Definition create (f : FS) (a : string) : FS :=
  mkFS (cwd f)
    (fun q => if String.eqb q a then Some Directory else entry f q)
    (denied f) (uncommitted f).

(** [os.Mkdir], the system call: one new directory, in a directory that
    exists.  The last element has to be a proper one, and nothing may
    exist at the place yet. *)
Definition Mkdir (name : string) (f : FS) : option errno * FS :=
  match namei f name with
  | Failed e => (Some e, f)
  | Found a =>
      let e := last (names name) "" in
      if String.eqb e "" || String.eqb e "." || String.eqb e ".." then
        (Some EEXIST, f)
      else
        match entry f a with
        | Some _ => (Some EEXIST, f)
        | None =>
            if refused f a then (Some EACCES, f) else (None, create f a)
        end
  end.

(** [os.MkdirAll], after its source: nothing to do when the name is a
    directory already and an error when it is a file; otherwise the
    parent, which is the name up to its last element as written, is made
    first, then the directory itself; when that fails the call still
    succeeds if the name is a directory by now (names such as [d/.]).  The
    parent is shorter than the name, so the length of the name bounds the
    depth of the recursion. *)
Fixpoint mkdir_all (fuel : nat) (path : string) (f : FS)
  : option errno * FS :=
  match Stat f path with
  | Some Directory => (None, f)
  | Some File => (Some ENOTDIR, f)
  | None =>
      let parent := Path.dir_part (Path.strip_slashes path) in
      let made :=
        match fuel with
        | S k =>
            if String.eqb parent "" then (None, f) else mkdir_all k parent f
        | 0 => (None, f)
        end in
      match made with
      | (Some e, f1) => (Some e, f1)
      | (None, f1) =>
          match Mkdir path f1 with
          | (None, f2) => (None, f2)
          | (Some e, f2) =>
              match Stat f2 path with
              | Some Directory => (None, f2)
              | _ => (Some e, f2)
              end
          end
      end
  end.

Definition MkdirAll (name : string) (f : FS) : option string * FS :=
  let (e, f') := mkdir_all (String.length name) name f in
  (option_map strerror e, f').

(** *** Removing trees *)

(** [endsWithDot]: the name is [.] or its last element is, without a
    slash after it. *)
Definition endsWithDot (path : string) : bool :=
  String.eqb path "." || Strings.HasSuffix path "/.".

Definition exists_at (f : FS) (a : string) : bool :=
  match entry f a with
  | Some _ => true
  | None => false
  end.

(** Something at [q] or below it exists that the system refuses to
    remove: a directory that holds such an entry cannot be removed
    either. *)
Definition stays (f : FS) (q : string) : bool :=
  existsb (fun d => under q d && exists_at f d) (denied f).

(** What is left once everything at [t] and below it that can be removed
    has been removed; with [keep], [t] itself is emptied only. *)
Definition purge (f : FS) (t : string) (keep : bool) : FS :=
  mkFS (cwd f)
    (fun q =>
       if under t q && negb (stays f q) && negb (keep && String.eqb q t)
       then None else entry f q)
    (denied f) (uncommitted f).

(** The recursive removal of the entry at [t]: whatever can be removed is
    removed; the call fails when something stays, with the refusal that
    made it stay.  [pinned] is the error of removing the directory itself
    when the name it was reached by does not allow that; the directory is
    emptied all the same. *)
Definition removeAllFrom (f : FS) (t : string) (pinned : option errno)
  : option string * FS :=
  match entry f t with
  | None => (None, f)
  | Some _ =>
      let keep := match pinned with Some _ => true | None => false end in
      if stays f t then (Some (strerror EACCES), purge f t keep)
      else (option_map strerror pinned, purge f t keep)
  end.

(** The directory a name ends in cannot be removed through [.] and [..],
    which the system refuses with these errors. *)
Definition pinned (e : string) : option errno :=
  if String.eqb e "." then Some EINVAL
  else if String.eqb e ".." then Some ENOTEMPTY
  else None.

(** [os.RemoveAll], after its source.  The empty name is accepted and
    nothing is done; a name that ends with [.] is refused.  When nothing
    exists at the name there is no error; otherwise the entry is removed
    with everything below it, as far as the system allows.  For the root,
    which no call removes, the source opens the working directory first
    and gives up without an error when that one is gone. *)
Definition RemoveAll (path : string) (f : FS) : option string * FS :=
  if String.eqb path "" then (None, f)
  else if endsWithDot path then (Some (strerror EINVAL), f)
  else
    match names path with
    | [] =>
        match namei f "." with
        | Found _ => removeAllFrom f "/" (Some EBUSY)
        | Failed ENOENT => (None, f)
        | Failed e => (Some (strerror e), f)
        end
    | _ =>
        match namei f path with
        | Found t => removeAllFrom f t (pinned (last (names path) ""))
        | Failed ENOENT => (None, f)
        | Failed e => (Some (strerror e), f)
        end
    end.

End Os.

(** ** Package [util]: pure helpers *)

(** The value of a Go function that may panic at run time. *)
Inductive go (A : Type) : Type :=
| Val (a : A)
| Panic (what : string).
Arguments Val {A} a.
Arguments Panic {A} what.

(** [CutPrefix]: the reimplementation of [strings.CutPrefix] for Go
    versions older than 1.20. *)
Definition CutPrefix (str prefix : string) : go (string * bool) :=
  if Strings.HasPrefix str prefix then
    match Strings.slice_from (String.length prefix) str with
    | Some rest => Val (rest, true)
    | None => Panic "slice bounds out of range"
    end
  else Val (str, false).

Definition ModuleFileName : string := "MODULE".
Definition BuildDirName : string := "BUILD".
Definition DepsDirName : string := "DEPS".

(** [FileExists]: [os.Stat] succeeds and the entry is not a directory. *)
Definition FileExists (f : FS) (file : string) : bool :=
  match Os.Stat f file with
  | Some File => true
  | _ => false
  end.

(** [DirExists]: [os.Stat] succeeds and the entry is a directory. *)
Definition DirExists (f : FS) (d : string) : bool :=
  match Os.Stat f d with
  | Some Directory => true
  | _ => false
  end.

(** [RemoveDir]: removes a directory and all of its content; fatal when
    the removal fails. *)
Definition RemoveDir (p : string) : M unit :=
  fun w =>
    match Os.RemoveAll p (fs w) with
    | (Some e, f') =>
        log_Fatal ("Failed to remove directory '%s': %s." ++ LF) [p; e]
          (mkWorld f' (trace w) (logs w))
    | (None, f') => (Ret tt, mkWorld f' (trace w) (logs w))
    end.

(** [MkdirAll]: creates the directory and its parents; fatal when the
    creation fails. *)
Definition MkdirAll (p : string) : M unit :=
  fun w =>
    match Os.MkdirAll p (fs w) with
    | (Some e, f') =>
        log_Fatal ("Failed to create directory '%s': %s." ++ LF) [p; e]
          (mkWorld f' (trace w) (logs w))
    | (None, f') => (Ret tt, mkWorld f' (trace w) (logs w))
    end.

(** A Go result [(value, error)]. *)
Inductive result (A : Type) : Type :=
| Ok (a : A)
| Err (e : string).
Arguments Ok {A} a.
Arguments Err {A} e.

(** The stopping condition of the module-root search at [p]: a [MODULE]
    file in [p], a parent directory named [DEPS], or a [.git] directory
    in [p]. *)
Definition is_module_root (f : FS) (p : string) : bool :=
  let moduleFilePath := Path.Join [p; ModuleFileName] in
  let gitDirPath := Path.Join [p; ".git"] in
  let parentDirName := Path.Base (Path.Dir p) in
  FileExists f moduleFilePath
  || String.eqb parentDirName DepsDirName
  || DirExists f gitDirPath.

(** [getModuleRoot]: the [for] loop, one iteration per unit of [fuel];
    [None] when the fuel runs out before the loop returns. *)
Fixpoint getModuleRoot (fuel : nat) (f : FS) (p : string)
  : option (result string) :=
  match fuel with
  | 0 => None
  | S n =>
      if is_module_root f p then Some (Ok p)
      else if String.eqb p "/" then Some (Err "not inside a module")
      else getModuleRoot n f (Path.Dir p)
  end.

(** [GetWorkingDir]: the current working directory; fatal when the system
    cannot report it. *)
Definition GetWorkingDir : M string :=
  fun w =>
    match cwd (fs w) with
    | Some d => ret d w
    | None =>
        log_Fatal ("Could not get working directory: %s." ++ LF)
          ["getwd: no such file or directory"] w
    end.

(** [GetModuleRootForPath] and [GetModuleRoot]. *)
Definition GetModuleRootForPath (fuel : nat) (p : string) (w : World)
  : option (outcome string * World) :=
  match getModuleRoot fuel (fs w) p with
  | None => None
  | Some (Ok moduleRoot) => Some (Ret moduleRoot, w)
  | Some (Err e) =>
      Some (log_Fatal
              ("Could not identify module root directory. Make sure you run this command inside a module: %s."
               ++ LF) [e] w)
  end.

Definition GetModuleRoot (fuel : nat) (w : World)
  : option (outcome string * World) :=
  match GetWorkingDir w with
  | (Ret workingDir, w') => GetModuleRootForPath fuel workingDir w'
  | (Exit c, w') => Some (Exit c, w')
  end.

(** The loop of [GetWorkspaceRoot] from the path [p]: [inner] is the fuel
    given to each module-root search, [fuel] bounds the iterations of the
    loop itself. *)
Fixpoint workspace_loop (inner fuel : nat) (p : string) (w : World)
  : option (outcome string * World) :=
  match fuel with
  | 0 => None
  | S n =>
      match getModuleRoot inner (fs w) p with
      | None => None
      | Some (Err e) =>
          Some (log_Fatal
                  ("Could not identify workspace root directory. Make sure you run this command inside a workspace: %s."
                   ++ LF) [e] w)
      | Some (Ok p') =>
          let parentDirName := Path.Base (Path.Dir p') in
          if negb (String.eqb parentDirName DepsDirName) then
            Some (Ret p', w)
          else workspace_loop inner n (Path.Dir p') w
      end
  end.

(** [GetWorkspaceRoot]: the root directory of the current workspace. *)
Definition GetWorkspaceRoot (fuel : nat) (w : World)
  : option (outcome string * World) :=
  match GetWorkingDir w with
  | (Ret p, w') => workspace_loop fuel fuel p w'
  | (Exit c, w') => Some (Exit c, w')
  end.

(** ** Package [module]: the Jujutsu backend *)

Inductive ModuleType : Type := GitModuleType | JujutsuModuleType.

(** [JujutsuModule]: a module backed by a jj repository. *)
Record JujutsuModule : Type := mkJujutsu { path : string }.

Section Jujutsu.

Variable tool : Tool.

(** [cmd.Run]: the tool runs, the command joins the trace. *)
Definition Run (c : Cmd) : M ProcResult :=
  fun w =>
    let (r, f') := tool (trace w) (fs w) c in
    (Ret r, mkWorld f' (c :: trace w) (logs w)).

(** [tryRunJjCommand]: runs a jj subcommand in the module directory and
    returns its output streams, each without one trailing line feed, and
    the error of the run. *)
Definition tryRunJjCommand (m : JujutsuModule) (a : list string)
  : M (string * string * option string) :=
  log_Debug ("Running jj command: jj %s" ++ LF) [Strings.Join a " "] ;;;
  r <- Run (mkCmd "jj" a (path m)) ;;
  ret (Strings.TrimSuffix (stdout r) LF,
       Strings.TrimSuffix (stderr r) LF, err r).

(** [runJjCommand]: the same, exiting with an error message when the
    command could not be executed. *)
Definition runJjCommand (m : JujutsuModule) (a : list string) : M string :=
  res <- tryRunJjCommand m a ;;
  let '(out, errout, e) := res in
  match e with
  | Some e =>
      log_Fatal
        ("Failed to run jj command 'jj %s':" ++ LF ++ "%s" ++ LF ++ "%s"
         ++ LF ++ "%s" ++ LF)
        [Strings.Join a " "; errout; out; e]
  | None => ret out
  end.

Definition locateGitRepo (m : JujutsuModule) : M string :=
  runJjCommand m ["git"; "root"].

(** [tryRunGitCommand]: runs a git subcommand in the git repository that
    backs the jj repository. *)
Definition tryRunGitCommand (m : JujutsuModule) (a : list string)
  : M (string * string * option string) :=
  log_Debug ("Running git command: git %s" ++ LF) [Strings.Join a " "] ;;;
  gitRepoPath <- locateGitRepo m ;;
  r <- Run (mkCmd "git" a gitRepoPath) ;;
  ret (Strings.TrimSuffix (stdout r) LF,
       Strings.TrimSuffix (stderr r) LF, err r).

(** [runGitCommand]: the same, exiting with an error message when the
    command could not be executed. *)
Definition runGitCommand (m : JujutsuModule) (a : list string) : M string :=
  res <- tryRunGitCommand m a ;;
  let '(out, errout, e) := res in
  match e with
  | Some e =>
      log_Fatal
        ("Failed to run git command 'git %s':" ++ LF ++ "%s" ++ LF ++ "%s"
         ++ LF ++ "%s" ++ LF)
        [Strings.Join a " "; errout; out; e]
  | None => ret out
  end.

(** [clone]: clones the module from [url] into its path; on failure the
    path is removed so that the operation can be retried. *)
Definition clone (m : JujutsuModule) (url : string) : M (option string) :=
  log_Log ("Cloning '%s'." ++ LF) [url] ;;;
  res <- tryRunJjCommand m ["git"; "clone"; url; path m] ;;
  let '(_, _, e) := res in
  match e with
  | Some _ => RemoveDir (path m) ;;; ret e
  | None => ret e
  end.

(** [createJujutsuModule]: a new module at [modulePath], cloned from
    [url]. *)
Definition createJujutsuModule (modulePath url : string)
  : M (result JujutsuModule) :=
  let m := mkJujutsu modulePath in
  MkdirAll modulePath ;;;
  e <- clone m url ;;
  match e with
  | Some e => ret (Err e)
  | None => ret (Ok m)
  end.

Definition RootPath (m : JujutsuModule) : string := path m.

(** [URL]: the url of the underlying git repository. *)
Definition URL (m : JujutsuModule) : M string :=
  runGitCommand m ["config"; "--get"; "remote.origin.url"].

Definition Name (m : JujutsuModule) : M string :=
  u <- URL m ;;
  ret (Strings.TrimSuffix (Path.Base u) ".git").

(** [RevParse]: the commit hash for the commit referenced by [ref]. *)
Definition RevParse (m : JujutsuModule) (ref : string) : M string :=
  runGitCommand m ["rev-list"; "-n"; "1"; ref].

Definition Head (m : JujutsuModule) : M string := RevParse m "HEAD".

(** [IsDirty]: jujutsu is never dirty by design. *)
Definition IsDirty (m : JujutsuModule) : M bool := ret false.

Definition IsAncestor (m : JujutsuModule) (ancestor rev : string)
  : M bool :=
  res <- tryRunGitCommand m ["merge-base"; "--is-ancestor"; ancestor; rev] ;;
  let '(_, _, e) := res in
  ret (match e with None => true | Some _ => false end).

(** [Fetch]: fetches from the default remote and reports whether any
    updates have been fetched. *)
Definition Fetch (m : JujutsuModule) : M bool :=
  dirty <- IsDirty m ;;
  if dirty then
    log_Warning
      ("The module has uncommited changes. Not fetching any changes."
       ++ LF) [] ;;;
    ret false
  else
    out <- runJjCommand m ["git"; "fetch"] ;;
    ret (Nat.ltb 0 (String.length out)).

(** [Checkout]: unsupported in jj, and disallowed. *)
Definition Checkout (m : JujutsuModule) (ref : string) : M unit :=
  log_Fatal "Unable to checkout a JJ repository to " [ref].

Definition Type_ (m : JujutsuModule) : ModuleType := JujutsuModuleType.

Definition GetMergeBase (m : JujutsuModule) (revA revB : string)
  : M (string * option string) :=
  res <- tryRunGitCommand m ["merge-base"; revA; revB] ;;
  let '(out, _, e) := res in
  ret (out, e).

(** The double quote, which the formats below contain. *)
Definition DQ : string := String (ascii_of_nat 34) EmptyString.

Definition GetCommitTitle (m : JujutsuModule) (revision : string)
  : M (string * option string) :=
  res <- tryRunGitCommand m
           ["show"; "--format=format:" ++ DQ ++ "%s" ++ DQ; "-s"; revision] ;;
  let '(out, _, e) := res in
  ret (out, e).

Definition GetCommitAuthorName (m : JujutsuModule) (revision : string)
  : M (string * option string) :=
  res <- tryRunGitCommand m
           ["show"; "--format=format:" ++ DQ ++ "%an" ++ DQ; "-s"; revision] ;;
  let '(out, _, e) := res in
  ret (out, e).

(** The loop of [GetCommitsBetweenRefs] over the lines of the output. *)
Fixpoint collect_lines (result : list string) (lines : list string)
  : list string :=
  match lines with
  | [] => result
  | line :: rest =>
      let trimmedLine := Strings.TrimSpace line in
      if Nat.eqb (String.length trimmedLine) 0 then
        collect_lines result rest
      else collect_lines (result ++ [trimmedLine])%list rest
  end.

Definition GetCommitsBetweenRefs (m : JujutsuModule) (base head : string)
  : M (list string * option string) :=
  res <- tryRunGitCommand m
           ["rev-list";
            Strings.Join [Strings.TrimSpace base; Strings.TrimSpace head]
              ".."] ;;
  let '(out, _, e) := res in
  ret (collect_lines [] (Strings.Split out (ascii_of_nat 10)), e).

End Jujutsu.

(** ** Notions the statements are written with *)

(** The bytes a list of path elements takes when each is followed by a
    slash. *)
Definition weight (l : list string) : nat :=
  list_sum (map (fun e => S (String.length e)) l).

(** What the module-root search answers once a list of candidate
    directories is given: the first that satisfies the stopping
    condition. *)
Definition first_root (f : FS) (l : list string) : result string :=
  match find (is_module_root f) l with
  | Some q => Ok q
  | None => Err "not inside a module"
  end.

(** A module root that is no dependency: it satisfies the stopping
    condition and its parent directory is not named [DEPS]. *)
Definition is_workspace_root (f : FS) (q : string) : bool :=
  is_module_root f q
  && negb (String.eqb (Path.Base (Path.Dir q)) DepsDirName).

(** What [GetWorkspaceRoot] answers for what the search found. *)
Definition workspace_answer (w : World) (found : option string)
  : outcome string * World :=
  match found with
  | Some q => (Ret q, w)
  | None =>
      (Exit
         (mkLog LFatal
            ("Could not identify workspace root directory. Make sure you run this command inside a workspace: %s."
             ++ LF) ["not inside a module"]), w)
  end.

(** A file system with the given working directory, regular files and
    directories, on which nothing is refused and no working copy carries
    local changes. *)
Definition fs_of (d : string) (files dirs : list string) : FS :=
  mkFS (Some d)
    (fun q =>
       if existsb (String.eqb q) dirs then Some Directory
       else if existsb (String.eqb q) files then Some File
       else None)
    [] (fun _ => false).

Definition world_of (f : FS) : World := mkWorld f [] [].

(** A workspace with one dependency, seen from inside the dependency. *)
Definition dep_fs : FS :=
  fs_of "/ws/DEPS/lib/src" ["/ws/MODULE"]
    ["/"; "/ws"; "/ws/DEPS"; "/ws/DEPS/lib"; "/ws/DEPS/lib/src"].

(** A module nested in another module, outside of any [DEPS]. *)
Definition nested_fs : FS :=
  fs_of "/ws/sub" ["/ws/MODULE"; "/ws/sub/MODULE"] ["/"; "/ws"; "/ws/sub"].

(** A directory tree without any module. *)
Definition bare_fs : FS :=
  fs_of "/home/user" [] ["/"; "/home"; "/home/user"].

(** [sub] occurs in [s]. *)
Definition contains (s sub : string) : Prop :=
  exists pre post, s = pre ++ sub ++ post.

(** ** The command runners *)

(** The computation ends the process with a fatal message in which [text]
    occurs, whatever was to follow it. *)
Definition exits_with {A : Type} (x : M A) (w : World) (text : string)
  : Prop :=
  exists c w',
    x w = (Exit c, w') /\ lvl c = LFatal /\ contains (message c) text /\
    forall (B : Type) (k : A -> M B), bind x k w = (Exit c, w').

Definition jj (m : JujutsuModule) (a : list string) : Cmd :=
  mkCmd "jj" a (path m).

Definition debug_jj (a : list string) : LogCall :=
  mkLog LDebug ("Running jj command: jj %s" ++ LF) [Strings.Join a " "].

Definition debug_git (a : list string) : LogCall :=
  mkLog LDebug ("Running git command: git %s" ++ LF) [Strings.Join a " "].

Definition root_cmd (m : JujutsuModule) : Cmd := jj m ["git"; "root"].

Definition git (a : list string) (root : ProcResult) : Cmd :=
  mkCmd "git" a (Strings.TrimSuffix (stdout root) LF).

(** The world in which a git command locates its repository. *)
Definition git_world (a : list string) (w : World) : World :=
  mkWorld (fs w) (trace w) (debug_git a :: logs w).

(** ** A scripted tool and a dependency to run the backend on *)

Fixpoint args_eqb (a b : list string) : bool :=
  match a, b with
  | [], [] => true
  | x :: a', y :: b' => String.eqb x y && args_eqb a' b'
  | _, _ => false
  end.

Definition cmd_eqb (c d : Cmd) : bool :=
  String.eqb (prog c) (prog d) && args_eqb (args c) (args d)
  && String.eqb (dir c) (dir d).

(** A tool that answers the commands of a script and does not touch the
    file system; any other command is not found. *)
Definition scripted (script : list (Cmd * ProcResult)) : Tool :=
  fun _ f c =>
    match find (fun e => cmd_eqb (fst e) c) script with
    | Some (_, r) => (r, f)
    | None =>
        (mkProc "" ("command not found" ++ LF) (Some "exit status 127"), f)
    end.

Definition lib : JujutsuModule := mkJujutsu "/ws/DEPS/lib".

Definition lib_store : string := "/ws/DEPS/lib/.jj/repo/store/git".

Definition lib_script : list (Cmd * ProcResult) :=
  [ (jj lib ["git"; "root"], mkProc (lib_store ++ LF) "" None);
    (jj lib ["git"; "fetch"],
     mkProc ("bookmark: main@origin [+] tracked" ++ LF) "" None);
    (mkCmd "git" ["rev-list"; "-n"; "1"; "HEAD"] lib_store,
     mkProc ("4f2a9c1" ++ LF) "" None);
    (mkCmd "git" ["rev-list"; "-n"; "1"; "nosuch"] lib_store,
     mkProc "" ("fatal: bad revision 'nosuch'" ++ LF)
       (Some "exit status 128"));
    (mkCmd "git" ["config"; "--get"; "remote.origin.url"] lib_store,
     mkProc ("https://example.org/team/lib.git" ++ LF) "" None);
    (mkCmd "git" ["rev-list"; "4f2a9c1..9d07e55"] lib_store,
     mkProc ("9d07e55" ++ LF ++ " 81b3f02 " ++ LF ++ LF ++ "77aa010" ++ LF)
       "" None);
    (mkCmd "git" ["rev-list"; "4f2a9c1..4f2a9c1"] lib_store,
     mkProc "" "" None) ].

Definition lib_tool : Tool := scripted lib_script.

Definition lib_fs : FS :=
  fs_of "/ws" ["/ws/MODULE"] ["/"; "/ws"; "/ws/DEPS"; "/ws/DEPS/lib"].

(** The same tree, the working copy of the dependency carrying local
    changes. *)
Definition dirty_fs : FS :=
  mkFS (cwd lib_fs) (entry lib_fs) (denied lib_fs)
    (fun p => String.eqb p "/ws/DEPS/lib").

(** A printable byte other than the space. *)
Definition printable (a : ascii) : bool :=
  Nat.leb 33 (nat_of_ascii a) && Nat.leb (nat_of_ascii a) 126.

Fixpoint all_printable (s : string) : bool :=
  match s with
  | EmptyString => true
  | String a s' => printable a && all_printable s'
  end.

(** A commit identifier as git prints it: not empty, without white
    space. *)
Definition commit_id (c : string) : Prop :=
  c <> "" /\ all_printable c = true.

(** The output of [git rev-list] for a list of commits: one identifier
    per line. *)
Definition listing (cs : list string) : string :=
  match cs with
  | [] => ""
  | _ => String.concat LF cs ++ LF
  end.

(** A line that is not empty once trimmed. *)
Definition nonblank (l : string) : bool := negb (Nat.eqb (String.length l) 0).

(** [f'] is [f] with directories added: no entry of [f] is gone or
    replaced, and nothing else differs. *)
Definition grown (f f' : FS) : Prop :=
  cwd f' = cwd f /\ denied f' = denied f /\
  uncommitted f' = uncommitted f /\
  forall q, entry f' q = entry f q \/
            (entry f q = None /\ entry f' q = Some Directory).

(** [f'] is [f] with entries removed: no entry is new or replaced, and
    nothing else differs. *)
Definition shrunk (f f' : FS) : Prop :=
  cwd f' = cwd f /\ denied f' = denied f /\
  uncommitted f' = uncommitted f /\
  forall q, entry f' q = entry f q \/ entry f' q = None.

(** The call of the logger that announces a clone. *)
Definition cloning (url : string) : LogCall :=
  mkLog LLog ("Cloning '%s'." ++ LF) [url].

(** A stand-in for jj that knows one repository: cloning it creates the
    destination directory, cloning anything else fails. *)
Definition jj_fake : Tool :=
  fun _ f c =>
    match args c with
    | [g; cl; url; dest] =>
        if String.eqb (prog c) "jj" && String.eqb g "git"
           && String.eqb cl "clone"
           && String.eqb url "https://example.org/team/lib.git"
        then
          match Os.MkdirAll dest f with
          | (None, f') => (mkProc "" "" None, f')
          | (Some e, f') => (mkProc "" (e ++ LF) (Some "exit status 1"), f')
          end
        else
          (mkProc "" ("Error: repository not found" ++ LF)
             (Some "exit status 1"), f)
    | _ => (mkProc "" "" (Some "exit status 2"), f)
    end.

(** A workspace whose dependency is not there yet. *)
Definition fresh_fs : FS :=
  fs_of "/ws" ["/ws/MODULE"] ["/"; "/ws"].

(** The same workspace, the dependency there, on a system that refuses to
    remove it. *)
Definition stuck_fs : FS :=
  mkFS (cwd lib_fs) (entry lib_fs) ["/ws/DEPS/lib"] (uncommitted lib_fs).

(** ** More of Go's [strings] package, for package [cmd] *)

Module StringsExt.

(** [strings.TrimPrefix]: [s] without the leading [prefix], or [s] itself
    when it does not start with [prefix]. *)
Definition TrimPrefix (s prefix : string) : string :=
  if Strings.HasPrefix s prefix then
    match Strings.slice_from (String.length prefix) s with
    | Some rest => rest
    | None => s
    end
  else s.

(** [strings.Contains]: [substr] starts at some position of [s]. *)
Fixpoint Contains (s substr : string) : bool :=
  Strings.HasPrefix s substr
  || match s with
     | EmptyString => false
     | String _ s' => Contains s' substr
     end.

Fixpoint in_cutset (a : ascii) (cutset : string) : bool :=
  match cutset with
  | EmptyString => false
  | String c cutset' => Ascii.eqb a c || in_cutset a cutset'
  end.

(** [strings.TrimLeft] for a cutset of ASCII bytes: the leading bytes that
    are in the cutset are dropped. *)
Fixpoint TrimLeft (s cutset : string) : string :=
  match s with
  | EmptyString => EmptyString
  | String a s' => if in_cutset a cutset then TrimLeft s' cutset else s
  end.

End StringsExt.

(** ** Package [cmd]: the build command *)

(** [normalizeTarget]: a target that starts with [//] is relative to the
    workspace root; any other is relative to the working directory and is
    rewritten from the parent of its module root. *)
Definition normalizeTarget (fuel : nat) (target : string) (w : World)
  : option (outcome string * World) :=
  if Strings.HasPrefix target "//" then
    Some (Ret (StringsExt.TrimLeft target "/"), w)
  else
    let endsWithSlash :=
      Strings.HasSuffix target "/" || String.eqb target "" in
    match GetWorkingDir w with
    | (Exit c, w1) => Some (Exit c, w1)
    | (Ret workingDir, w1) =>
        let target := Path.Join [workingDir; target] in
        match GetModuleRootForPath fuel target w1 with
        | None => None
        | Some (Exit c, w2) => Some (Exit c, w2)
        | Some (Ret moduleRoot, w2) =>
            let target :=
              StringsExt.TrimPrefix target (Path.Dir moduleRoot) in
            let target :=
              if endsWithSlash then target ++ "/" else target in
            Some (Ret (StringsExt.TrimLeft target "/"), w2)
        end
    end.

(** The loop of [parseArgs]: an argument that contains [=] is a build
    flag, any other is a target and is normalized. *)
Fixpoint parseArgs_loop (fuel : nat) (targets flags args : list string)
  (w : World) : option (outcome (list string * list string) * World) :=
  match args with
  | [] => Some (Ret (targets, flags), w)
  | arg :: rest =>
      if StringsExt.Contains arg "=" then
        parseArgs_loop fuel targets (flags ++ [arg])%list rest w
      else
        match normalizeTarget fuel arg w with
        | None => None
        | Some (Exit c, w') => Some (Exit c, w')
        | Some (Ret t, w') =>
            parseArgs_loop fuel (targets ++ [t])%list flags rest w'
        end
  end.

Definition parseArgs (fuel : nat) (args : list string) (w : World)
  : option (outcome (list string * list string) * World) :=
  parseArgs_loop fuel [] [] args w.

Record target : Type := mkTarget { Description : string }.

(** A Go map from target names to targets: the entries, in the order in
    which a [range] loop happens to visit them. *)
Definition TargetMap : Type := list (string * target).

(** [genOutput.Targets[name]] with its [exists] flag. *)
Definition lookup_target (available : TargetMap) (name : string)
  : option target :=
  match find (fun e => String.eqb (fst e) name) available with
  | Some (_, t) => Some t
  | None => None
  end.

(** [expandedTargets[name] = struct{}{}] on a set of names. *)
Definition set_insert (name : string) (set : list string) : list string :=
  if existsb (String.eqb name) set then set else (set ++ [name])%list.

(** The inner loop of [runBuild] over the available targets, for one
    pattern: [found] and the expanded set as it leaves them. *)
Fixpoint expand_pattern (targetPrefix : string) (available : TargetMap)
  (found : bool) (expandedTargets : list string) : bool * list string :=
  match available with
  | [] => (found, expandedTargets)
  | (availableTarget, _) :: rest =>
      if Strings.HasPrefix availableTarget targetPrefix then
        expand_pattern targetPrefix rest true
          (set_insert availableTarget expandedTargets)
      else expand_pattern targetPrefix rest found expandedTargets
  end.

(** The loop of [runBuild] that expands the requested targets: a plain
    target must exist, a target that ends with [...] stands for every
    available target that starts with what precedes the dots. *)
Fixpoint expand_targets (available : TargetMap) (targets : list string)
  (expandedTargets : list string) : M (list string) :=
  match targets with
  | [] => ret expandedTargets
  | t :: rest =>
      if negb (Strings.HasSuffix t "...") then
        match lookup_target available t with
        | None => log_Fatal ("Target '%s' does not exist." ++ LF) [t]
        | Some _ =>
            expand_targets available rest (set_insert t expandedTargets)
        end
      else
        let targetPrefix := Strings.TrimSuffix t "..." in
        let (found, expanded) :=
          expand_pattern targetPrefix available false expandedTargets in
        if negb found then
          log_Fatal ("No target is matching pattern '%s'." ++ LF) [t]
        else expand_targets available rest expanded
  end.

(** ** More fixtures *)

(** A history in which [4f2a9c1] precedes [9d07e55], and an unrelated
    commit [0c0ffee]. *)
Definition history_script : list (Cmd * ProcResult) :=
  [ (jj lib ["git"; "root"], mkProc (lib_store ++ LF) "" None);
    (mkCmd "git" ["merge-base"; "--is-ancestor"; "4f2a9c1"; "9d07e55"]
       lib_store, mkProc "" "" None);
    (mkCmd "git" ["merge-base"; "--is-ancestor"; "9d07e55"; "4f2a9c1"]
       lib_store, mkProc "" "" (Some "exit status 1"));
    (mkCmd "git" ["merge-base"; "4f2a9c1"; "9d07e55"] lib_store,
     mkProc ("4f2a9c1" ++ LF) "" None);
    (mkCmd "git" ["merge-base"; "4f2a9c1"; "0c0ffee"] lib_store,
     mkProc "" "" (Some "exit status 1")) ].

Definition history_tool : Tool := scripted history_script.

(** No jj repository at the module path: [jj git root] fails. *)
Definition no_repo_tool : Tool :=
  scripted
    [ (jj lib ["git"; "root"],
       mkProc "" ("Error: There is no jj repo in " ++ DQ ++ "." ++ DQ ++ LF)
         (Some "exit status 1")) ].

(** ** Notions and fixtures of the further properties *)

(** The repository of the dependency, reported with a final slash. *)
Definition slash_url_tool : Tool :=
  scripted
    [ (jj lib ["git"; "root"], mkProc (lib_store ++ LF) "" None);
      (mkCmd "git" ["config"; "--get"; "remote.origin.url"] lib_store,
       mkProc ("https://example.org/team/lib.git/" ++ LF) "" None) ].

(** A repository whose URL ends with the element [.git]. *)
Definition bare_url_tool : Tool :=
  scripted
    [ (jj lib ["git"; "root"], mkProc (lib_store ++ LF) "" None);
      (mkCmd "git" ["config"; "--get"; "remote.origin.url"] lib_store,
       mkProc ("/srv/repos/lib/.git" ++ LF) "" None) ].

(** An element that [Clean] writes: not empty, without a slash. *)
Definition written (e : string) : Prop :=
  e <> "" /\ Path.has_slash e = false.

(** A regular file where a directory is wanted. *)
Definition blocked_fs : FS :=
  fs_of "/ws" ["/ws/MODULE"; "/ws/BUILD"] ["/"; "/ws"].

(** A working copy with content, which the system lets be emptied but not
    removed. *)
Definition held_fs : FS :=
  mkFS (Some "/ws")
    (entry (fs_of "/ws" ["/ws/MODULE"; "/ws/DEPS/lib/README"]
              ["/"; "/ws"; "/ws/DEPS"; "/ws/DEPS/lib"; "/ws/DEPS/lib/.jj"]))
    ["/ws/DEPS/lib"] (fun _ => false).

Definition is_flag (arg : string) : bool := StringsExt.Contains arg "=".

(** What a requested target selects among the names of the available
    ones: itself, or, when it ends with [...], every name that starts
    with what precedes the dots. *)
Definition selects (t name : string) : bool :=
  if Strings.HasSuffix t "..." then
    Strings.HasPrefix name (Strings.TrimSuffix t "...")
  else String.eqb name t.

(** The targets of a small workspace. *)
Definition some_targets : TargetMap :=
  [ ("app/main", mkTarget "the application");
    ("lib/core.a", mkTarget "");
    ("lib/util.a", mkTarget "");
    ("libtool", mkTarget "") ].

Definition goMajorVersion : nat := 1.
Definition goMinorVersion : nat := 16.

(** The decimal text of a number, as the verb [%d] prints it. *)
Definition itoa (n : nat) : string :=
  DecimalString.NilZero.string_of_uint (Nat.to_uint n).

(** What [createModFileContent] appends for one module of the map. *)
Definition mod_lines (pathPrefix modName : string) : string :=
  Sprintf ("require %s v0.0.0" ++ LF) [modName]
  ++ Sprintf ("replace %s => %s/%s" ++ LF ++ LF)
       [modName; pathPrefix; modName].

(** [createModFileContent]: the text of a [go.mod] file for the module
    [moduleName]; [modules] is the map from module names to paths, its
    entries in the order in which the [range] loop happens to visit
    them. *)
Definition createModFileContent (moduleName : string)
  (modules : list (string * string)) (pathPrefix : string) : string :=
  fold_left (fun text e => text ++ mod_lines pathPrefix (fst e)) modules
    (Sprintf ("module %s" ++ LF ++ LF) [moduleName]
     ++ "go " ++ itoa goMajorVersion ++ "." ++ itoa goMinorVersion
     ++ LF ++ LF).

(** A path element that [Clean] keeps. *)
Definition real (e : string) : Prop :=
  e <> "" /\ Path.has_slash e = false /\ e <> "." /\ e <> "..".

(** The absolute path with the given elements. *)
Definition abs_of (l : list string) : string := "/" ++ String.concat "/" l.

Definition nonempty (e : string) : bool := negb (String.eqb e "").

(** A string of which every element is empty or kept by [Clean]. *)
Definition tidy (s : string) : Prop :=
  Forall (fun e => e = "" \/ real e) (Strings.Split s Path.slash).

(** The elements of a string that are not empty. *)
Definition elements (s : string) : list string :=
  filter nonempty (Strings.Split s Path.slash).

(** * Properties *)

(** The examples of the Go documentation, as checks of the model. *)
Example Clean_examples :
  map Path.Clean
    ["a/c"; "a//c"; "a/c/."; "a/c/b/.."; "/../a/c"; "/../a/b/../././/c"; "";
     "../../a/.."; "/"; "a/../.."; "abc/"; "//x/"] =
    ["a/c"; "a/c"; "a/c"; "a/c"; "/a/c"; "/a/c"; "."; "../.."; "/"; "..";
     "abc"; "/x"].
Proof. reflexivity. Qed.

Example Base_examples :
  map Path.Base ["/a/b"; "/"; ""; "a/b//"; "///"; "repo.git"] =
    ["b"; "/"; "."; "b"; "/"; "repo.git"].
Proof. reflexivity. Qed.

Example Dir_examples :
  map Path.Dir ["/a/b"; "a/b"; "/a"; "/"; "a"; ""; "."; "/a/b/"; "//a"] =
    ["/a"; "a"; "/"; "/"; "."; "."; "."; "/a/b"; "/"].
Proof. reflexivity. Qed.

Example Join_examples :
  map Path.Join
    [["a"; "b"; "c"]; ["a"; "b/c"]; ["a/b"; "../../../xyz"]; [""; ""];
     ["a"; ""]; [""; "a"]; ["/ws"; "MODULE"]; ["."; "MODULE"]] =
    ["a/b/c"; "a/b/c"; "../xyz"; ""; "a"; "a"; "/ws/MODULE"; "MODULE"].
Proof. reflexivity. Qed.

Example TrimSpace_examples :
  map Strings.TrimSpace
    [" abc  "; ""; "   "; "a b"; Strings.utf8 [194; 160; 97; 9; 226; 128; 137];
     Strings.utf8 [133; 97; 160]] =
    ["abc"; ""; ""; "a b"; "a"; Strings.utf8 [133; 97; 160]].
Proof. reflexivity. Qed.

Example TrimSuffix_examples :
  map (fun s => Strings.TrimSuffix s ".git")
    ["repo.git"; "repo"; ".git"; "git"; "a.git.git"] =
    ["repo"; "repo"; ""; "git"; "a.git"].
Proof. reflexivity. Qed.

(** ** Facts about the string primitives *)

Lemma slice_to_app (p r : string) :
  Strings.slice_to (String.length p) (p ++ r) = Some p.
Proof.
  induction p as [|a p IH]; simpl; [reflexivity|].
  now rewrite IH.
Qed.

Lemma slice_from_app (p r : string) :
  Strings.slice_from (String.length p) (p ++ r) = Some r.
Proof.
  induction p as [|a p IH]; simpl; [reflexivity|exact IH].
Qed.

Lemma slice_split (n : nat) (s h : string) :
  Strings.slice_to n s = Some h ->
  exists t,
    Strings.slice_from n s = Some t /\ s = h ++ t /\ String.length h = n.
Proof.
  revert s h; induction n as [|n IH]; intros s h.
  - simpl. intros [= <-]. exists s. repeat split.
  - destruct s as [|a s]; simpl; [discriminate|].
    destruct (Strings.slice_to n s) as [h'|] eqn:E; simpl; [|discriminate].
    intros [= <-]. destruct (IH _ _ E) as (t & Ht & Hs & Hl).
    exists t. simpl. repeat split; congruence.
Qed.

Lemma length_app (a b : string) :
  String.length (a ++ b) = String.length a + String.length b.
Proof. induction a; simpl; congruence. Qed.

Lemma app_empty_r (s : string) : s ++ "" = s.
Proof. induction s; simpl; congruence. Qed.

Lemma app_assoc_s (a b c : string) : (a ++ b) ++ c = a ++ (b ++ c).
Proof. induction a; simpl; congruence. Qed.

Lemma HasPrefix_iff (s p : string) :
  Strings.HasPrefix s p = true <-> exists r, s = p ++ r.
Proof.
  unfold Strings.HasPrefix. split.
  - intros H. apply andb_true_iff in H as [_ H].
    destruct (Strings.slice_to (String.length p) s) as [h|] eqn:E;
      [|discriminate].
    apply String.eqb_eq in H. subst h.
    destruct (slice_split _ _ _ E) as (t & _ & Hs & _). now exists t.
  - intros [r ->]. rewrite slice_to_app, String.eqb_refl, length_app.
    rewrite andb_true_r. apply Nat.leb_le. lia.
Qed.

(** ** CutPrefix *)

(** C10.  For every [str] and [prefix]: when [prefix] is a prefix of [str],
    [CutPrefix] returns the rest of [str] after it and [true], and the
    prefix followed by that rest is [str]; otherwise it returns [str] and
    [false]; with the empty prefix it returns [str] and [true].  The slice
    [str[len(prefix):]] is always within bounds. *)
Theorem CutPrefix_spec (str prefix : string) :
  (forall rest, str = prefix ++ rest ->
     CutPrefix str prefix = Val (rest, true)) /\
  ((forall rest, str <> prefix ++ rest) ->
     CutPrefix str prefix = Val (str, false)) /\
  (exists rest found, CutPrefix str prefix = Val (rest, found) /\
     (found = true -> prefix ++ rest = str) /\
     (found = false -> rest = str)) /\
  CutPrefix str "" = Val (str, true).
Proof.
  split; [|split; [|split]].
  - intros rest ->. unfold CutPrefix.
    replace (Strings.HasPrefix (prefix ++ rest) prefix) with true
      by (symmetry; apply HasPrefix_iff; now exists rest).
    now rewrite slice_from_app.
  - intros Hno. unfold CutPrefix.
    destruct (Strings.HasPrefix str prefix) eqn:E; [|reflexivity].
    apply HasPrefix_iff in E as [r ->]. now destruct (Hno r).
  - unfold CutPrefix.
    destruct (Strings.HasPrefix str prefix) eqn:E.
    + apply HasPrefix_iff in E as [r ->]. rewrite slice_from_app.
      exists r, true. repeat split; congruence.
    + exists str, false. repeat split; congruence.
  - reflexivity.
Qed.

Lemma CutPrefix_spec_witness :
  "refs/heads/main" = "refs/" ++ "heads/main" /\
  CutPrefix "refs/heads/main" "refs/" = Val ("heads/main", true).
Proof.
  split; [reflexivity|].
  apply (proj1 (CutPrefix_spec "refs/heads/main" "refs/")). reflexivity.
Defined.

(** ** Facts about paths *)

Lemma weight_app (l1 l2 : list string) :
  weight (l1 ++ l2)%list = weight l1 + weight l2.
Proof. unfold weight. now rewrite map_app, list_sum_app. Qed.

Lemma weight_rev (l : list string) : weight (List.rev l) = weight l.
Proof.
  induction l as [|e l IH]; [reflexivity|].
  simpl List.rev. rewrite weight_app, IH. unfold weight. simpl. lia.
Qed.

Lemma concat_length (l : list string) :
  l <> [] -> S (String.length (String.concat "/" l)) = weight l.
Proof.
  induction l as [|e l IH]; [congruence|]. intros _.
  destruct l as [|e' l].
  - unfold weight. simpl. lia.
  - change (String.concat "/" (e :: e' :: l))
      with (e ++ "/" ++ String.concat "/" (e' :: l)).
    rewrite !length_app. simpl String.length.
    assert (H : e' :: l <> []) by congruence.
    apply IH in H. unfold weight in *. simpl in *. lia.
Qed.

Lemma Split_weight (x : string) (c : ascii) :
  weight (Strings.Split x c) = S (String.length x).
Proof.
  induction x as [|a x IH]; [reflexivity|]. simpl.
  destruct (Ascii.eqb a c).
  - unfold weight in *. simpl. lia.
  - destruct (Strings.Split x c) as [|h t]; unfold weight in *; simpl in *; lia.
Qed.

Lemma clean_step_weight (r : bool) (st : list string) (e : string) :
  weight (Path.clean_step r st e) <= weight st + S (String.length e).
Proof.
  unfold Path.clean_step.
  destruct (String.eqb e ""); [lia|].
  destruct (String.eqb e "."); [lia|].
  destruct (String.eqb e "..").
  - destruct st as [|top below].
    + destruct r; unfold weight; simpl; lia.
    + destruct (String.eqb top ".."); [destruct r|];
        unfold weight; simpl; lia.
  - unfold weight; simpl; lia.
Qed.

Lemma clean_step_empty (r : bool) (st : list string) :
  Path.clean_step r st "" = st.
Proof. reflexivity. Qed.

Lemma clean_fold_weight (r : bool) (l st : list string) :
  weight (fold_left (Path.clean_step r) l st) <= weight st + weight l.
Proof.
  revert st. induction l as [|e l IH]; intros st; simpl.
  - unfold weight at 3. simpl. lia.
  - specialize (IH (Path.clean_step r st e)).
    pose proof (clean_step_weight r st e).
    unfold weight at 3. simpl. fold (weight l). lia.
Qed.

Lemma Split_single (x : string) (c : ascii) :
  Strings.Split x c = [""] -> x = "".
Proof.
  destruct x as [|a x]; [reflexivity|]. simpl.
  destruct (Ascii.eqb a c); [|destruct (Strings.Split x c)]; try discriminate.
  intros [= H]. pose proof (Split_weight x c) as W. rewrite H in W.
  unfold weight in W. simpl in W. lia.
Qed.

Lemma dir_part_slash (x : string) :
  Path.has_slash x = true -> Path.dir_part x <> "".
Proof.
  destruct x as [|a x]; simpl; [discriminate|].
  intros ->. discriminate.
Qed.

(** The directory part is empty or ends with a slash: its last element is
    empty. *)
Lemma dir_part_last (x : string) :
  exists l, Strings.Split (Path.dir_part x) Path.slash = (l ++ [""])%list.
Proof.
  induction x as [|a x IH]; [now exists []|]. simpl.
  destruct (Ascii.eqb a Path.slash) eqn:Ea; simpl.
  - rewrite Ea. destruct IH as [l ->]. now exists ("" :: l).
  - destruct (Path.has_slash x) eqn:Hs; [|now exists []].
    simpl. rewrite Ea. destruct IH as [l Hl]. rewrite Hl.
    destruct l as [|h t].
    + apply Split_single in Hl. now apply dir_part_slash in Hs.
    + now exists (String a h :: t).
Qed.

Lemma dir_part_length (x : string) :
  String.length (Path.dir_part x) <= String.length x.
Proof.
  induction x as [|a x IH]; simpl; [lia|].
  destruct (Ascii.eqb a Path.slash || Path.has_slash x); simpl; lia.
Qed.

Lemma rooted_inv (p : string) :
  Path.rooted p = true -> exists p', p = String Path.slash p'.
Proof.
  destruct p as [|a p']; simpl; [discriminate|].
  intros H. apply Ascii.eqb_eq in H. subst. now exists p'.
Qed.

(** The parent of a rooted path other than the root is rooted and strictly
    shorter: the measure of both searches. *)
Lemma Dir_shorter (p : string) :
  Path.rooted p = true -> p <> "/" ->
  Path.rooted (Path.Dir p) = true /\
  String.length (Path.Dir p) < String.length p.
Proof.
  intros Hr Hne. destruct (rooted_inv _ Hr) as [p' ->].
  assert (Hp' : p' <> "") by (intros ->; now apply Hne).
  unfold Path.Dir. simpl Path.dir_part.
  change (Ascii.eqb Path.slash Path.slash) with true. simpl orb. cbv iota.
  unfold Path.Clean. simpl String.eqb. cbv iota.
  simpl Path.rooted. change (Ascii.eqb Path.slash Path.slash) with true.
  cbv iota. split; [reflexivity|].
  simpl Strings.Split. change (Ascii.eqb Path.slash Path.slash) with true.
  cbv iota. simpl fold_left. rewrite clean_step_empty.
  destruct (dir_part_last p') as [l Hl]. rewrite Hl, fold_left_app.
  simpl fold_left. rewrite clean_step_empty.
  pose proof (clean_fold_weight true l []) as W.
  pose proof (Split_weight (Path.dir_part p') Path.slash) as HS.
  rewrite Hl, weight_app in HS. pose proof (dir_part_length p') as L.
  change (weight [""]) with 1 in HS. change (weight []) with 0 in W.
  rewrite <- (weight_rev (fold_left _ l [])) in W.
  destruct (List.rev (fold_left (Path.clean_step true) l [])) as [|e out]
    eqn:E.
  - simpl. destruct p'; [congruence|simpl; lia].
  - assert (N : e :: out <> []) by congruence.
    apply concat_length in N. rewrite length_app. simpl String.length at 1.
    simpl String.length at 2. lia.
Qed.

(** ** The module-root and workspace-root searches *)

Lemma chain_S (n : nat) (a : string) :
  Os.chain (S n) a =
    if String.eqb a "/" then [a] else a :: Os.chain n (Path.Dir a).
Proof. reflexivity. Qed.

Lemma chain_fuel (n m : nat) (p : string) :
  Path.rooted p = true -> String.length p <= n -> String.length p <= m ->
  Os.chain n p = Os.chain m p.
Proof.
  revert m p. induction n as [|n IH]; intros m p Hr Hn Hm.
  - destruct p; [discriminate|simpl in Hn; lia].
  - destruct m as [|m]; [destruct p; [discriminate|simpl in Hm; lia]|].
    simpl. destruct (String.eqb_spec p "/") as [|Hne]; [reflexivity|].
    destruct (Dir_shorter p Hr Hne) as [Hr' Hl].
    f_equal. apply IH; [assumption|lia|lia].
Qed.

(** The directories above a rooted path: the path itself, then those of
    its parent, up to the root. *)
Lemma ancestors_unfold (p : string) :
  Path.rooted p = true ->
  Os.ancestors p =
    if String.eqb p "/" then [p] else p :: Os.ancestors (Path.Dir p).
Proof.
  intros Hr. unfold Os.ancestors.
  destruct (rooted_inv _ Hr) as [p' ->].
  change (String.length (String Path.slash p')) with (S (String.length p')).
  rewrite chain_S.
  destruct (String.eqb_spec (String Path.slash p') "/") as [E|Hne];
    [reflexivity|].
  destruct (Dir_shorter _ Hr Hne) as [Hr' Hl]. f_equal.
  change (String.length (String Path.slash p')) with (S (String.length p'))
    in Hl.
  apply chain_fuel; [assumption|lia|lia].
Qed.

Lemma ancestors_last (p : string) :
  Path.rooted p = true -> last (Os.ancestors p) "" = "/".
Proof.
  remember (String.length p) as n eqn:Hn.
  assert (Hle : String.length p <= n) by lia. clear Hn.
  revert p Hle. induction n as [|n IH]; intros p Hle Hr.
  - destruct p; [discriminate|simpl in Hle; lia].
  - rewrite ancestors_unfold by assumption.
    destruct (String.eqb_spec p "/") as [->|Hne]; [reflexivity|].
    destruct (Dir_shorter p Hr Hne) as [Hr' Hl].
    specialize (IH (Path.Dir p) ltac:(lia) Hr').
    destruct (Os.ancestors (Path.Dir p)) eqn:E; [discriminate|exact IH].
Qed.

Lemma getModuleRoot_search (f : FS) (n m : nat) (p : string) :
  Path.rooted p = true -> String.length p <= n -> String.length p < m ->
  getModuleRoot m f p = Some (first_root f (Os.chain n p)).
Proof.
  revert m p. induction n as [|n IH]; intros m p Hr Hn Hm.
  - destruct p; [discriminate|simpl in Hn; lia].
  - destruct m as [|m]; [lia|]. simpl. unfold first_root.
    destruct (String.eqb_spec p "/") as [->|Hne].
    + simpl. now destruct (is_module_root f "/").
    + simpl. destruct (is_module_root f p); [reflexivity|].
      destruct (Dir_shorter p Hr Hne) as [Hr' Hl].
      apply IH; [assumption|lia|lia].
Qed.

Lemma getModuleRoot_mono (f : FS) (i j : nat) (p : string) (r : result string) :
  getModuleRoot i f p = Some r -> i <= j -> getModuleRoot j f p = Some r.
Proof.
  revert j p. induction i as [|i IH]; intros j p H Hij; [discriminate|].
  destruct j as [|j]; [lia|]. simpl in *.
  destruct (is_module_root f p); [assumption|].
  destruct (String.eqb p "/"); [assumption|].
  apply IH; [assumption|lia].
Qed.

Lemma workspace_loop_mono (i i' k k' : nat) (p : string) (w : World)
  (r : outcome string * World) :
  workspace_loop i k p w = Some r -> i <= i' -> k <= k' ->
  workspace_loop i' k' p w = Some r.
Proof.
  revert k' p. induction k as [|k IH]; intros k' p H Hi Hk; [discriminate|].
  destruct k' as [|k']; [lia|]. simpl in *.
  destruct (getModuleRoot i (fs w) p) as [r0|] eqn:E; [|discriminate].
  rewrite (getModuleRoot_mono _ _ _ _ _ E Hi).
  destruct r0 as [q|e]; [|assumption].
  destruct (negb (String.eqb (Path.Base (Path.Dir q)) DepsDirName));
    [assumption|].
  apply IH; [assumption|assumption|lia].
Qed.

Lemma workspace_loop_S (i k : nat) (p : string) (w : World) :
  workspace_loop i (S k) p w =
    match getModuleRoot i (fs w) p with
    | None => None
    | Some (Err e) =>
        Some (log_Fatal
                ("Could not identify workspace root directory. Make sure you run this command inside a workspace: %s."
                 ++ LF) [e] w)
    | Some (Ok p') =>
        if negb (String.eqb (Path.Base (Path.Dir p')) DepsDirName) then
          Some (Ret p', w)
        else workspace_loop i k (Path.Dir p') w
    end.
Proof. reflexivity. Qed.

Lemma getModuleRoot_S (n : nat) (f : FS) (p : string) :
  getModuleRoot (S n) f p =
    if is_module_root f p then Some (Ok p)
    else if String.eqb p "/" then Some (Err "not inside a module")
    else getModuleRoot n f (Path.Dir p).
Proof. reflexivity. Qed.

Lemma find_cons {A : Type} (g : A -> bool) (x : A) (l : list A) :
  find g (x :: l) = if g x then Some x else find g l.
Proof. reflexivity. Qed.

Lemma workspace_loop_search (w : World) (n i k : nat) (p : string) :
  Path.rooted p = true ->
  String.length p <= n -> String.length p < i -> String.length p < k ->
  workspace_loop i k p w =
    Some (workspace_answer w (find (is_workspace_root (fs w)) (Os.chain n p))).
Proof.
  revert i k p. induction n as [|n IH]; intros i k p Hr Hn Hi Hk.
  - destruct p; [discriminate|simpl in Hn; lia].
  - destruct k as [|k]; [lia|]. destruct i as [|i]; [lia|].
    rewrite workspace_loop_S, getModuleRoot_S, chain_S.
    destruct (String.eqb_spec p "/") as [->|Hne].
    + (* at the root the search ends either way *)
      rewrite find_cons. unfold is_workspace_root.
      destruct (is_module_root (fs w) "/"); reflexivity.
    + rewrite find_cons. unfold is_workspace_root at 1.
      destruct (Dir_shorter _ Hr Hne) as [Hr' Hl].
      destruct (is_module_root (fs w) p) eqn:Em; simpl andb.
      * (* the search stops at [p] at once *)
        destruct (negb (String.eqb (Path.Base (Path.Dir p)) DepsDirName));
          [reflexivity|].
        apply IH; [assumption|lia|lia|lia].
      * (* the search moves to the parent: the same as starting there *)
        assert (Hs : getModuleRoot i (fs w) (Path.Dir p) =
                     Some (first_root (fs w) (Os.chain n (Path.Dir p))))
          by (apply getModuleRoot_search; [assumption|lia|lia]).
        assert (Hw : workspace_loop (S i) (S k) (Path.Dir p) w =
                     Some (workspace_answer w
                             (find (is_workspace_root (fs w))
                                (Os.chain n (Path.Dir p))))).
        { apply workspace_loop_mono with (i := i) (k := S k); [|lia|lia].
          apply IH; [assumption|lia|lia|lia]. }
        cbv iota. rewrite <- Hw, workspace_loop_S.
        rewrite (getModuleRoot_mono _ _ _ _ _ Hs (Nat.le_succ_diag_r i)).
        rewrite Hs. reflexivity.
Qed.

(** C9 (amended).  On every absolute input path both searches terminate:
    the parent of an absolute path other than the root is absolute and
    strictly shorter, and the directories visited are the path, then its
    parent, and so on up to the root; [getModuleRoot] returns the first of
    them that satisfies its stopping condition (a [MODULE] file, a parent
    directory named [DEPS], or a [.git] directory) and fails with ["not inside a module"] when none
    does, the root included; [GetWorkspaceRoot], started in the working
    directory, returns the first of them that satisfies the stopping
    condition and whose parent directory is not named [DEPS], the nearest
    such enclosing directory, and ends the run when there is none. *)
Theorem root_search_terminates (w : World) (p : string) (fuel : nat) :
  Path.rooted p = true -> String.length p < fuel ->
  (p <> "/" ->
   Path.rooted (Path.Dir p) = true /\
   String.length (Path.Dir p) < String.length p) /\
  Os.ancestors p =
    (if String.eqb p "/" then [p] else p :: Os.ancestors (Path.Dir p)) /\
  last (Os.ancestors p) "" = "/" /\
  getModuleRoot fuel (fs w) p =
    Some (match find (is_module_root (fs w)) (Os.ancestors p) with
          | Some q => Ok q
          | None => Err "not inside a module"
          end) /\
  (cwd (fs w) = Some p ->
   GetWorkspaceRoot fuel w =
     Some (workspace_answer w
             (find (is_workspace_root (fs w)) (Os.ancestors p)))).
Proof.
  intros Hr Hf. split; [|split; [|split; [|split]]].
  - now apply Dir_shorter.
  - now apply ancestors_unfold.
  - now apply ancestors_last.
  - apply (getModuleRoot_search (fs w) (String.length p) fuel p Hr);
      [lia|assumption].
  - intros Hc. unfold GetWorkspaceRoot, GetWorkingDir. rewrite Hc.
    unfold ret. apply workspace_loop_search; [assumption|lia|lia|lia].
Qed.

Lemma root_search_terminates_witness :
  Path.rooted "/ws/DEPS/lib/src" = true /\
  String.length "/ws/DEPS/lib/src" < 20 /\
  getModuleRoot 20 dep_fs "/ws/DEPS/lib/src" = Some (Ok "/ws/DEPS/lib") /\
  GetWorkspaceRoot 20 (world_of dep_fs) = Some (Ret "/ws", world_of dep_fs).
Proof.
  assert (Hl : String.length "/ws/DEPS/lib/src" < 20) by (simpl; lia).
  destruct (root_search_terminates (world_of dep_fs) "/ws/DEPS/lib/src" 20
              eq_refl Hl) as (_ & _ & _ & Hm & Hw).
  split; [reflexivity|]. split; [exact Hl|]. split.
  - eapply eq_trans; [exact Hm|reflexivity].
  - eapply eq_trans; [exact (Hw eq_refl)|reflexivity].
Defined.

(** C9, as stated, fails twice.  On the relative path [.] the module-root
    search never returns where no stopping condition holds, because the
    parent of [.] is [.] again and is never the root.  And in a module
    nested in another one the workspace root returned is the inner module,
    although the outer one encloses it, satisfies the stopping condition
    and has a parent directory that is not named [DEPS]. *)
Lemma root_search_counterexample :
  (forall fuel, getModuleRoot fuel bare_fs "." = None) /\
  (GetWorkspaceRoot 16 (world_of nested_fs)
     = Some (Ret "/ws/sub", world_of nested_fs) /\
   Os.ancestors "/ws/sub" = ["/ws/sub"; "/ws"; "/"] /\
   is_module_root nested_fs "/ws" = true /\
   Path.Base (Path.Dir "/ws") <> DepsDirName).
Proof.
  split.
  - induction fuel as [|fuel IH]; [reflexivity|].
    rewrite getModuleRoot_S.
    change (is_module_root bare_fs ".") with false.
    change (Path.Dir ".") with ".". exact IH.
  - repeat split; try reflexivity. discriminate.
Qed.

(** ** Suffixes and messages *)

Lemma slice_from_split (n : nat) (s t : string) :
  Strings.slice_from n s = Some t ->
  exists h, Strings.slice_to n s = Some h /\ s = h ++ t.
Proof.
  revert s t; induction n as [|n IH]; intros s t.
  - simpl. intros [= <-]. now exists "".
  - destruct s as [|a s]; simpl; [discriminate|].
    intros H. destruct (IH _ _ H) as (h & Hh & ->).
    exists (String a h). now rewrite Hh.
Qed.

Lemma HasSuffix_app (x suf : string) : Strings.HasSuffix (x ++ suf) suf = true.
Proof.
  unfold Strings.HasSuffix. rewrite length_app.
  replace (String.length x + String.length suf - String.length suf)
    with (String.length x) by lia.
  rewrite slice_from_app, String.eqb_refl, andb_true_r.
  apply Nat.leb_le. lia.
Qed.

Lemma HasSuffix_true (s suf : string) :
  Strings.HasSuffix s suf = true ->
  exists x, s = x ++ suf /\ Strings.TrimSuffix s suf = x.
Proof.
  intros H. unfold Strings.TrimSuffix. rewrite H.
  unfold Strings.HasSuffix in H. apply andb_true_iff in H as [_ H].
  destruct (Strings.slice_from _ s) as [t|] eqn:E; [|discriminate].
  apply String.eqb_eq in H. subst t.
  destruct (slice_from_split _ _ _ E) as (h & Hh & Hs).
  exists h. now rewrite Hh.
Qed.

Lemma TrimSuffix_app (x suf : string) : Strings.TrimSuffix (x ++ suf) suf = x.
Proof.
  unfold Strings.TrimSuffix. rewrite HasSuffix_app, length_app.
  replace (String.length x + String.length suf - String.length suf)
    with (String.length x) by lia.
  now rewrite slice_to_app.
Qed.

(** A stream trimmed of its final line feed and followed by a line feed
    starts with the whole stream. *)
Lemma TrimSuffix_LF (s : string) :
  exists post, Strings.TrimSuffix s LF ++ LF = s ++ post.
Proof.
  destruct (Strings.HasSuffix s LF) eqn:E.
  - destruct (HasSuffix_true _ _ E) as (x & -> & Hx).
    rewrite TrimSuffix_app. exists "". now rewrite app_empty_r.
  - unfold Strings.TrimSuffix. rewrite E. now exists LF.
Qed.

Lemma contains_trimmed (s post : string) :
  contains (Strings.TrimSuffix s LF ++ LF ++ post) s.
Proof.
  destruct (TrimSuffix_LF s) as [t Ht]. exists "", (t ++ post).
  change ("" ++ s ++ t ++ post) with (s ++ t ++ post).
  transitivity ((Strings.TrimSuffix s LF ++ LF) ++ post);
    [symmetry; apply app_assoc_s|].
  rewrite Ht. apply app_assoc_s.
Qed.

Lemma contains_skip (x t s : string) : contains t s -> contains (x ++ t) s.
Proof.
  intros (pre & post & ->). exists (x ++ pre), post.
  now rewrite app_assoc_s.
Qed.

Lemma tryRunJjCommand_eq (tool : Tool) (m : JujutsuModule) (a : list string)
  (w : World) (r : ProcResult) (f' : FS) :
  tool (trace w) (fs w) (jj m a) = (r, f') ->
  tryRunJjCommand tool m a w =
    (Ret (Strings.TrimSuffix (stdout r) LF,
          Strings.TrimSuffix (stderr r) LF, err r),
     mkWorld f' (jj m a :: trace w) (debug_jj a :: logs w)).
Proof.
  intros H. unfold tryRunJjCommand, bind, log_Debug, log_call, Run, ret.
  simpl. unfold jj in H. now rewrite H.
Qed.

Lemma runJjCommand_ok (tool : Tool) (m : JujutsuModule) (a : list string)
  (w : World) (r : ProcResult) (f' : FS) :
  tool (trace w) (fs w) (jj m a) = (r, f') -> err r = None ->
  runJjCommand tool m a w =
    (Ret (Strings.TrimSuffix (stdout r) LF),
     mkWorld f' (jj m a :: trace w) (debug_jj a :: logs w)).
Proof.
  intros H He. unfold runJjCommand, bind.
  rewrite (tryRunJjCommand_eq _ _ _ _ _ _ H), He. reflexivity.
Qed.

Lemma runJjCommand_fail (tool : Tool) (m : JujutsuModule) (a : list string)
  (w : World) (r : ProcResult) (f' : FS) (e : string) :
  tool (trace w) (fs w) (jj m a) = (r, f') -> err r = Some e ->
  runJjCommand tool m a w =
    (Exit (mkLog LFatal
             ("Failed to run jj command 'jj %s':" ++ LF ++ "%s" ++ LF ++ "%s"
              ++ LF ++ "%s" ++ LF)
             [Strings.Join a " "; Strings.TrimSuffix (stderr r) LF;
              Strings.TrimSuffix (stdout r) LF; e]),
     mkWorld f' (jj m a :: trace w) (debug_jj a :: logs w)).
Proof.
  intros H He. unfold runJjCommand, bind.
  rewrite (tryRunJjCommand_eq _ _ _ _ _ _ H), He. reflexivity.
Qed.

Lemma exits_bind {A : Type} (x : M A) (w w' : World) (c : LogCall)
  (text : string) :
  x w = (Exit c, w') -> lvl c = LFatal -> contains (message c) text ->
  exits_with x w text.
Proof.
  intros H Hl Hc. exists c, w'. repeat split; try assumption.
  intros B k. unfold bind. now rewrite H.
Qed.

Lemma runJjCommand_exits (tool : Tool) (m : JujutsuModule) (a : list string)
  (w : World) (r : ProcResult) (f' : FS) (e : string) :
  tool (trace w) (fs w) (jj m a) = (r, f') -> err r = Some e ->
  exits_with (runJjCommand tool m a) w (stderr r).
Proof.
  intros H He. eapply exits_bind.
  - exact (runJjCommand_fail _ _ _ _ _ _ _ H He).
  - reflexivity.
  - change (contains
              ("Failed to run jj command 'jj " ++ Strings.Join a " " ++ "':"
               ++ LF ++ Strings.TrimSuffix (stderr r) LF ++ LF
               ++ Strings.TrimSuffix (stdout r) LF ++ LF ++ e ++ LF)
              (stderr r)).
    do 4 apply contains_skip. apply contains_trimmed.
Qed.

Lemma tryRunGitCommand_unfold (tool : Tool) (m : JujutsuModule)
  (a : list string) (w : World) :
  tryRunGitCommand tool m a w =
    match runJjCommand tool m ["git"; "root"] (git_world a w) with
    | (Ret gitRepoPath, w1) =>
        (r <- Run tool (mkCmd "git" a gitRepoPath) ;;
         ret (Strings.TrimSuffix (stdout r) LF,
              Strings.TrimSuffix (stderr r) LF, err r)) w1
    | (Exit c, w1) => (Exit c, w1)
    end.
Proof. reflexivity. Qed.

Section GitRunner.

Variables (tool : Tool) (m : JujutsuModule) (a : list string) (w : World).
Variables (r1 : ProcResult) (f1 : FS).
Hypothesis Hroot : tool (trace w) (fs w) (root_cmd m) = (r1, f1).

Lemma locate_in_git :
  tool (trace (git_world a w)) (fs (git_world a w)) (jj m ["git"; "root"])
    = (r1, f1).
Proof. exact Hroot. Qed.

Lemma tryRunGitCommand_root_fail (e : string) :
  err r1 = Some e ->
  exists c w',
    tryRunGitCommand tool m a w = (Exit c, w') /\
    runJjCommand tool m ["git"; "root"] (git_world a w) = (Exit c, w').
Proof.
  intros He.
  pose proof (runJjCommand_fail _ _ _ _ _ _ _ locate_in_git He) as Hj.
  eexists. eexists. split; [|exact Hj].
  rewrite tryRunGitCommand_unfold. now rewrite Hj.
Qed.

Lemma tryRunGitCommand_eq (r2 : ProcResult) (f2 : FS) :
  err r1 = None ->
  tool (root_cmd m :: trace w) f1 (git a r1) = (r2, f2) ->
  tryRunGitCommand tool m a w =
    (Ret (Strings.TrimSuffix (stdout r2) LF,
          Strings.TrimSuffix (stderr r2) LF, err r2),
     mkWorld f2 (git a r1 :: root_cmd m :: trace w)
       (debug_jj ["git"; "root"] :: debug_git a :: logs w)).
Proof.
  intros He H2.
  pose proof (runJjCommand_ok _ _ _ _ _ _ locate_in_git He) as Hj.
  rewrite tryRunGitCommand_unfold, Hj. unfold bind, Run, ret. simpl.
  unfold git, root_cmd in H2. now rewrite H2.
Qed.

Lemma runGitCommand_ok (r2 : ProcResult) (f2 : FS) :
  err r1 = None ->
  tool (root_cmd m :: trace w) f1 (git a r1) = (r2, f2) ->
  err r2 = None ->
  runGitCommand tool m a w =
    (Ret (Strings.TrimSuffix (stdout r2) LF),
     mkWorld f2 (git a r1 :: root_cmd m :: trace w)
       (debug_jj ["git"; "root"] :: debug_git a :: logs w)).
Proof.
  intros He H2 He2. unfold runGitCommand, bind.
  rewrite (tryRunGitCommand_eq _ _ He H2), He2. reflexivity.
Qed.

Lemma runGitCommand_root_exits (e : string) :
  err r1 = Some e -> exits_with (runGitCommand tool m a) w (stderr r1).
Proof.
  intros He.
  destruct (tryRunGitCommand_root_fail _ He) as (c & w' & Ht & Hj).
  destruct (runJjCommand_exits _ _ _ _ _ _ _ locate_in_git He)
    as (c' & w'' & Hj' & Hl & Hc & _).
  rewrite Hj in Hj'. injection Hj' as <- <-.
  apply exits_bind with (w' := w') (c := c); try assumption.
  unfold runGitCommand, bind. now rewrite Ht.
Qed.

Lemma runGitCommand_exits (r2 : ProcResult) (f2 : FS) (e : string) :
  err r1 = None ->
  tool (root_cmd m :: trace w) f1 (git a r1) = (r2, f2) ->
  err r2 = Some e ->
  exits_with (runGitCommand tool m a) w (stderr r2).
Proof.
  intros He H2 He2. eapply exits_bind.
  - unfold runGitCommand, bind.
    rewrite (tryRunGitCommand_eq _ _ He H2), He2. reflexivity.
  - reflexivity.
  - change (contains
              ("Failed to run git command 'git " ++ Strings.Join a " "
               ++ "':" ++ LF ++ Strings.TrimSuffix (stderr r2) LF ++ LF
               ++ Strings.TrimSuffix (stdout r2) LF ++ LF ++ e ++ LF)
              (stderr r2)).
    do 4 apply contains_skip. apply contains_trimmed.
Qed.

End GitRunner.

(** C6.  Through [runJjCommand] and [runGitCommand] a subprocess that
    ends with an error (a nonzero exit status among them) ends the whole
    run: the outcome is the fatal exit whatever computation was to follow,
    and the text captured on the standard error of that subprocess occurs
    unchanged in the fatal message.  For a git command this holds both for
    the [jj git root] run that locates the repository and for the git
    command itself. *)
Theorem runners_exit_on_failure (tool : Tool) (m : JujutsuModule)
  (a : list string) (w : World) :
  (forall r f' e,
      tool (trace w) (fs w) (jj m a) = (r, f') -> err r = Some e ->
      exits_with (runJjCommand tool m a) w (stderr r)) /\
  (forall r1 f1 e,
      tool (trace w) (fs w) (root_cmd m) = (r1, f1) -> err r1 = Some e ->
      exits_with (runGitCommand tool m a) w (stderr r1)) /\
  (forall r1 f1 r2 f2 e,
      tool (trace w) (fs w) (root_cmd m) = (r1, f1) -> err r1 = None ->
      tool (root_cmd m :: trace w) f1 (git a r1) = (r2, f2) ->
      err r2 = Some e ->
      exits_with (runGitCommand tool m a) w (stderr r2)).
Proof.
  split; [|split].
  - intros r f' e. apply runJjCommand_exits.
  - intros r1 f1 e H He.
    exact (runGitCommand_root_exits _ _ _ _ _ _ H _ He).
  - intros r1 f1 r2 f2 e H He H2 He2.
    exact (runGitCommand_exits _ _ _ _ _ _ H _ _ _ He H2 He2).
Qed.

Lemma runners_exit_on_failure_witness :
  lib_tool [] lib_fs (root_cmd lib) = (mkProc (lib_store ++ LF) "" None, lib_fs)
  /\ exits_with (runGitCommand lib_tool lib ["rev-list"; "-n"; "1"; "nosuch"])
       (world_of lib_fs) ("fatal: bad revision 'nosuch'" ++ LF).
Proof.
  split; [reflexivity|].
  exact (proj2 (proj2 (runners_exit_on_failure lib_tool lib
                         ["rev-list"; "-n"; "1"; "nosuch"] (world_of lib_fs)))
           _ _ _ _ _ eq_refl eq_refl eq_refl eq_refl).
Defined.

(** ** Checkout *)

(** C1 (amended).  For every reference and in every state, [Checkout] on a
    Jujutsu module ends the process through [log.Fatal], the call carrying
    the text ["Unable to checkout a JJ repository to "] and the reference;
    nothing that was to follow it runs, and it returns no value, so no
    typed result reaches its caller. *)
Theorem Checkout_exits (m : JujutsuModule) (ref : string) (w : World) :
  Checkout m ref w =
    (Exit (mkLog LFatal "Unable to checkout a JJ repository to " [ref]), w) /\
  forall (B : Type) (k : unit -> M B),
    bind (Checkout m ref) k w =
      (Exit (mkLog LFatal "Unable to checkout a JJ repository to " [ref]), w).
Proof. split; reflexivity. Qed.

(** C1, as stated, fails: checking out [main] in the dependency ends the
    process instead of returning a result to the engine. *)
Lemma Checkout_counterexample :
  fst (Checkout lib "main" (world_of lib_fs)) =
    Exit (mkLog LFatal "Unable to checkout a JJ repository to " ["main"]) /\
  ~ (exists v, fst (Checkout lib "main" (world_of lib_fs)) = Ret v).
Proof. split; [reflexivity|]. intros [v H]. discriminate H. Qed.

(** ** IsDirty *)

(** C3.  [IsDirty] on a Jujutsu module returns [false] in every state, the
    working copy carrying local changes or not, and changes nothing: what
    follows it runs on [false] in the same state. *)
Theorem IsDirty_false (m : JujutsuModule) (w : World) :
  IsDirty m w = (Ret false, w) /\
  forall (B : Type) (k : bool -> M B), bind (IsDirty m) k w = k false w.
Proof.
  split.
  - reflexivity.
  - intros B k. unfold bind, IsDirty, ret. reflexivity.
Qed.

Example IsDirty_with_local_changes :
  uncommitted dirty_fs (path lib) = true /\
  fst (IsDirty lib (world_of dirty_fs)) = Ret false.
Proof. split; reflexivity. Qed.

(** ** RevParse *)

(** C5 (amended).  [RevParse ref] runs [git rev-list -n 1 ref] in the
    repository that [jj git root] names.  When both commands succeed it
    returns what git printed, without the final line feed: the commit that
    [ref] resolves to.  When either fails, a reference that does not resolve
    included, the process ends through [log.Fatal], the message carrying
    the standard error text of the failed command; no error value is
    returned. *)
Theorem RevParse_spec (tool : Tool) (m : JujutsuModule) (ref : string)
  (w : World) (r1 : ProcResult) (f1 : FS) :
  tool (trace w) (fs w) (root_cmd m) = (r1, f1) ->
  (forall e, err r1 = Some e ->
     exits_with (RevParse tool m ref) w (stderr r1)) /\
  (err r1 = None ->
   forall r2 f2,
     tool (root_cmd m :: trace w) f1 (git ["rev-list"; "-n"; "1"; ref] r1)
       = (r2, f2) ->
     (err r2 = None ->
      fst (RevParse tool m ref w) = Ret (Strings.TrimSuffix (stdout r2) LF)) /\
     (forall e, err r2 = Some e ->
        exits_with (RevParse tool m ref) w (stderr r2))).
Proof.
  intros H. split.
  - intros e He. exact (runGitCommand_root_exits _ _ _ _ _ _ H _ He).
  - intros He r2 f2 H2. split.
    + intros He2. unfold RevParse.
      now rewrite (runGitCommand_ok _ _ _ _ _ _ H _ _ He H2 He2).
    + intros e He2.
      exact (runGitCommand_exits _ _ _ _ _ _ H _ _ _ He H2 He2).
Qed.

Lemma RevParse_spec_witness :
  lib_tool [] lib_fs (root_cmd lib) = (mkProc (lib_store ++ LF) "" None, lib_fs)
  /\ fst (RevParse lib_tool lib "HEAD" (world_of lib_fs)) = Ret "4f2a9c1".
Proof.
  split; [reflexivity|].
  exact (proj1 (proj2 (RevParse_spec lib_tool lib "HEAD" (world_of lib_fs)
                         _ _ eq_refl) eq_refl _ _ eq_refl) eq_refl).
Defined.

(** C5, as stated, fails: a reference that does not resolve ends the
    process with the message of git instead of returning an error. *)
Lemma RevParse_counterexample :
  fst (RevParse lib_tool lib "nosuch" (world_of lib_fs)) =
    Exit (mkLog LFatal
            ("Failed to run git command 'git %s':" ++ LF ++ "%s" ++ LF ++ "%s"
             ++ LF ++ "%s" ++ LF)
            ["rev-list -n 1 nosuch"; "fatal: bad revision 'nosuch'"; "";
             "exit status 128"]) /\
  ~ (exists v, fst (RevParse lib_tool lib "nosuch" (world_of lib_fs)) = Ret v).
Proof. split; [reflexivity|]. intros [v H]. discriminate H. Qed.

(** ** Fetch *)

(** C4 (amended).  [Fetch] on a Jujutsu module always runs [jj git fetch] in
    the module directory, in every state of the working copy: [IsDirty] is
    constantly false, so the fetch is never skipped and no warning is
    logged.  When the command succeeds [Fetch] returns [true] exactly when
    the command printed something on its standard output, a final line
    feed not counted; when it fails the process ends through
    [log.Fatal]. *)
Theorem Fetch_spec (tool : Tool) (m : JujutsuModule) (w : World)
  (r : ProcResult) (f' : FS) :
  tool (trace w) (fs w) (jj m ["git"; "fetch"]) = (r, f') ->
  (err r = None ->
   exists updated,
     Fetch tool m w =
       (Ret updated,
        mkWorld f' (jj m ["git"; "fetch"] :: trace w)
          (debug_jj ["git"; "fetch"] :: logs w)) /\
     (updated = true <-> Strings.TrimSuffix (stdout r) LF <> "")) /\
  (forall e, err r = Some e -> exits_with (Fetch tool m) w (stderr r)).
Proof.
  intros H. split.
  - intros He. eexists. split.
    + unfold Fetch, bind, IsDirty, ret.
      rewrite (runJjCommand_ok _ _ _ _ _ _ H He). reflexivity.
    + destruct (Strings.TrimSuffix (stdout r) LF); simpl; split; intros Hu;
        try reflexivity; try discriminate; now try destruct Hu.
  - intros e He.
    destruct (runJjCommand_exits _ _ _ _ _ _ _ H He)
      as (c & w' & Hj & Hl & Hc & _).
    apply exits_bind with (w' := w') (c := c); try assumption.
    unfold Fetch, bind, IsDirty, ret. now rewrite Hj.
Qed.

Lemma Fetch_spec_witness :
  lib_tool [] dirty_fs (jj lib ["git"; "fetch"]) =
    (mkProc ("bookmark: main@origin [+] tracked" ++ LF) "" None, dirty_fs) /\
  exists updated,
    Fetch lib_tool lib (world_of dirty_fs) =
      (Ret updated,
       mkWorld dirty_fs [jj lib ["git"; "fetch"]]
         [debug_jj ["git"; "fetch"]]) /\
    (updated = true <->
     Strings.TrimSuffix ("bookmark: main@origin [+] tracked" ++ LF) LF <> "").
Proof.
  split; [reflexivity|].
  exact (proj1 (Fetch_spec lib_tool lib (world_of dirty_fs) _ _ eq_refl)
           eq_refl).
Defined.

(** C4, as stated, fails: with local changes in the working copy the
    fetch is not skipped.  The remote is contacted, no warning is logged
    and the answer is [true]. *)
Lemma Fetch_counterexample :
  uncommitted dirty_fs (path lib) = true /\
  Fetch lib_tool lib (world_of dirty_fs) =
    (Ret true,
     mkWorld dirty_fs [jj lib ["git"; "fetch"]] [debug_jj ["git"; "fetch"]]).
Proof. split; reflexivity. Qed.

(** ** GetCommitsBetweenRefs *)

Lemma collect_lines_eq (acc lines : list string) :
  collect_lines acc lines =
    (acc ++ filter nonblank (map Strings.TrimSpace lines))%list.
Proof.
  revert acc. induction lines as [|l lines IH]; intros acc; simpl.
  - now rewrite app_nil_r.
  - unfold nonblank at 1.
    destruct (Nat.eqb (String.length (Strings.TrimSpace l)) 0); simpl.
    + apply IH.
    + rewrite IH, <- app_assoc. reflexivity.
Qed.

Lemma nonblank_nonempty (l : list string) :
  Forall (fun c => c <> "") (filter nonblank l).
Proof.
  apply Forall_forall. intros c Hc. apply filter_In in Hc as [_ Hc].
  intros ->. discriminate Hc.
Qed.

Lemma rev_onto_twice (s a b : string) :
  Strings.rev_onto (Strings.rev_onto s a) b = Strings.rev_onto a (s ++ b).
Proof.
  revert a b. induction s as [|c s IH]; intros a b; simpl; [reflexivity|].
  now rewrite IH.
Qed.

Lemma rev_involutive (s : string) : Strings.rev (Strings.rev s) = s.
Proof.
  unfold Strings.rev. rewrite rev_onto_twice. simpl. apply app_empty_r.
Qed.

Lemma rev_onto_app (x y acc : string) :
  Strings.rev_onto (x ++ y) acc = Strings.rev_onto y (Strings.rev_onto x acc).
Proof.
  revert acc. induction x as [|c x IH]; intros acc; simpl; [reflexivity|].
  apply IH.
Qed.

Lemma HasPrefix_head (a b : ascii) (t r : string) :
  Strings.HasPrefix (String a t) (String b r) = true -> b = a.
Proof.
  intros H. apply HasPrefix_iff in H as [rest H]. simpl in H. congruence.
Qed.

(** A string whose first byte starts none of the runes starts with none of
    them. *)
Lemma rune_width_other (runes : list string) (a : ascii) (t : string) :
  forallb (fun r => match r with
                    | String b _ => negb (Ascii.eqb b a)
                    | EmptyString => false
                    end) runes = true ->
  Strings.rune_width runes (String a t) = 0.
Proof.
  unfold Strings.rune_width. induction runes as [|r runes IH]; simpl;
    [reflexivity|].
  intros H. apply andb_true_iff in H as [Hr H].
  destruct (Strings.HasPrefix (String a t) r) eqn:E; [|now apply IH].
  destruct r as [|b r]; [discriminate|].
  apply HasPrefix_head in E. subst b. now rewrite Ascii.eqb_refl in Hr.
Qed.

Lemma printable_no_space (a : ascii) :
  printable a = true ->
  forallb (fun r => match r with
                    | String b _ => negb (Ascii.eqb b a)
                    | EmptyString => false
                    end) Strings.space_runes = true /\
  forallb (fun r => match r with
                    | String b _ => negb (Ascii.eqb b a)
                    | EmptyString => false
                    end) (map Strings.rev Strings.space_runes) = true /\
  Ascii.eqb a (ascii_of_nat 10) = false.
Proof.
  destruct a as [[] [] [] [] [] [] [] []]; intros H;
    try discriminate H; repeat split; reflexivity.
Qed.

Lemma all_printable_last (c : string) :
  c <> "" -> all_printable c = true ->
  exists x z, c = x ++ String z "" /\ printable z = true.
Proof.
  induction c as [|a c IH]; [congruence|]. intros _ H. simpl in H.
  apply andb_true_iff in H as [Ha Hc]. destruct c as [|b c].
  - now exists "", a.
  - destruct (IH ltac:(discriminate) Hc) as (x & z & -> & Hz).
    now exists (String a x), z.
Qed.

(** Trimming leaves a commit identifier as it is. *)
Lemma TrimSpace_commit_id (c : string) :
  commit_id c -> Strings.TrimSpace c = c.
Proof.
  intros [Hne Hp]. unfold Strings.TrimSpace.
  assert (Hl : Strings.trim_left Strings.space_runes 0 c = c).
  { destruct c as [|a t]; [congruence|]. simpl in Hp.
    apply andb_true_iff in Hp as [Ha _].
    destruct (printable_no_space a Ha) as (H1 & _).
    simpl. now rewrite (rune_width_other _ _ _ H1). }
  rewrite Hl. destruct (all_printable_last c Hne Hp) as (x & z & -> & Hz).
  assert (Hr : Strings.rev (x ++ String z "") = String z (Strings.rev x))
    by (unfold Strings.rev; now rewrite rev_onto_app).
  destruct (printable_no_space z Hz) as (_ & H2 & _).
  rewrite Hr. simpl Strings.trim_left.
  rewrite (rune_width_other _ _ _ H2), <- Hr. apply rev_involutive.
Qed.

Lemma Split_plain (c : string) :
  all_printable c = true -> Strings.Split c (ascii_of_nat 10) = [c].
Proof.
  induction c as [|a c IH]; [reflexivity|]. simpl. intros H.
  apply andb_true_iff in H as [Ha Hc].
  destruct (printable_no_space a Ha) as (_ & _ & ->). now rewrite IH.
Qed.

Lemma Split_line (c rest : string) :
  all_printable c = true ->
  Strings.Split (c ++ LF ++ rest) (ascii_of_nat 10) =
    c :: Strings.Split rest (ascii_of_nat 10).
Proof.
  induction c as [|a c IH]; [reflexivity|]. simpl. intros H.
  apply andb_true_iff in H as [Ha Hc].
  destruct (printable_no_space a Ha) as (_ & _ & ->).
  change (String (ascii_of_nat 10) rest) with (LF ++ rest).
  now rewrite IH.
Qed.

Lemma Split_concat (c : string) (cs : list string) :
  Forall commit_id (c :: cs) ->
  Strings.Split (String.concat LF (c :: cs)) (ascii_of_nat 10) = c :: cs.
Proof.
  revert c. induction cs as [|c' cs IH]; intros c H.
  - simpl. apply Split_plain. now inversion H as [|? ? [_ Hc] _].
  - inversion H as [|? ? [_ Hc] Hcs]. subst.
    change (String.concat LF (c :: c' :: cs))
      with (c ++ LF ++ String.concat LF (c' :: cs)).
    rewrite Split_line by assumption. now rewrite IH.
Qed.

Lemma keep_commit_ids (cs : list string) :
  Forall commit_id cs -> filter nonblank (map Strings.TrimSpace cs) = cs.
Proof.
  induction 1 as [|c cs Hc _ IH]; [reflexivity|]. simpl.
  rewrite (TrimSpace_commit_id c Hc), IH.
  destruct Hc as [Hne _]. now destruct c.
Qed.

(** C7.  [GetCommitsBetweenRefs base head] asks git for the range
    [base..head], both references trimmed: the commits reachable from
    [head] but not from [base], as [git rev-list] lists them.  It returns
    the lines of that listing in their order, each trimmed, the blank ones
    left out, so no entry is empty; when git lists nothing, as it does when
    both references denote the same commit, the list is empty; and when
    git lists commit identifiers one per line, the list returned is that
    list of identifiers, in that order.  The error of the run is returned
    next to the list. *)
Theorem GetCommitsBetweenRefs_spec (tool : Tool) (m : JujutsuModule)
  (base head : string) (w : World) (r1 r2 : ProcResult) (f1 f2 : FS) :
  tool (trace w) (fs w) (root_cmd m) = (r1, f1) -> err r1 = None ->
  tool (root_cmd m :: trace w) f1
    (git ["rev-list"; Strings.TrimSpace base ++ ".." ++ Strings.TrimSpace head]
       r1) = (r2, f2) ->
  exists commits,
    fst (GetCommitsBetweenRefs tool m base head w) = Ret (commits, err r2) /\
    commits =
      filter nonblank
        (map Strings.TrimSpace
           (Strings.Split (Strings.TrimSuffix (stdout r2) LF)
              (ascii_of_nat 10))) /\
    Forall (fun c => c <> "") commits /\
    (stdout r2 = "" -> commits = []) /\
    (forall cs, Forall commit_id cs -> stdout r2 = listing cs ->
       commits = cs).
Proof.
  intros H He H2. eexists. split; [|split; [reflexivity|split; [|split]]].
  - unfold GetCommitsBetweenRefs, bind.
    change (Strings.Join [Strings.TrimSpace base; Strings.TrimSpace head] "..")
      with (Strings.TrimSpace base ++ ".." ++ Strings.TrimSpace head).
    rewrite (tryRunGitCommand_eq _ _ _ _ _ _ H _ _ He H2).
    unfold ret. simpl fst. now rewrite collect_lines_eq.
  - apply nonblank_nonempty.
  - intros ->. reflexivity.
  - intros cs Hcs ->. destruct cs as [|c cs]; [reflexivity|].
    unfold listing. rewrite TrimSuffix_app, Split_concat by assumption.
    now apply keep_commit_ids.
Qed.

Lemma GetCommitsBetweenRefs_spec_witness :
  lib_tool [] lib_fs (root_cmd lib) = (mkProc (lib_store ++ LF) "" None, lib_fs)
  /\ fst (GetCommitsBetweenRefs lib_tool lib " 4f2a9c1" ("9d07e55" ++ LF)
            (world_of lib_fs))
     = Ret (["9d07e55"; "81b3f02"; "77aa010"], None).
Proof.
  split; [reflexivity|].
  destruct (GetCommitsBetweenRefs_spec lib_tool lib " 4f2a9c1"
              ("9d07e55" ++ LF) (world_of lib_fs) _ _ _ _
              eq_refl eq_refl eq_refl) as (commits & Hc & -> & _).
  exact Hc.
Defined.

Example listing_returned_as_listed :
  Forall commit_id ["9d07e55"; "81b3f02"; "77aa010"] /\
  collect_lines []
    (Strings.Split
       (Strings.TrimSuffix (listing ["9d07e55"; "81b3f02"; "77aa010"]) LF)
       (ascii_of_nat 10)) = ["9d07e55"; "81b3f02"; "77aa010"].
Proof.
  split; [|reflexivity].
  repeat constructor; discriminate.
Qed.

Example GetCommitsBetweenRefs_same_commit :
  fst (GetCommitsBetweenRefs lib_tool lib "4f2a9c1" "4f2a9c1"
         (world_of lib_fs)) = Ret ([], None).
Proof. reflexivity. Qed.

(** ** Name *)

Lemma has_slash_app (x y : string) :
  Path.has_slash (x ++ y) = Path.has_slash x || Path.has_slash y.
Proof.
  induction x as [|a x IH]; simpl; [reflexivity|].
  now rewrite IH, orb_assoc.
Qed.

Lemma all_slashes_app (x c : string) :
  c <> "" -> Path.has_slash c = false -> Path.all_slashes (x ++ c) = false.
Proof.
  intros Hc Hs. induction x as [|a x IH]; simpl.
  - destruct c as [|b c]; [congruence|]. simpl in *.
    apply orb_false_iff in Hs as [-> _]. reflexivity.
  - rewrite IH. apply andb_false_r.
Qed.

Lemma strip_slashes_plain (c : string) :
  Path.has_slash c = false -> Path.strip_slashes c = c.
Proof.
  induction c as [|a c IH]; simpl; [reflexivity|].
  intros H. apply orb_false_iff in H as [-> H]. simpl. now rewrite IH.
Qed.

Lemma strip_slashes_app (x c : string) :
  c <> "" -> Path.has_slash c = false ->
  Path.strip_slashes (x ++ c) = x ++ c.
Proof.
  intros Hc Hs. induction x as [|a x IH]; simpl.
  - now apply strip_slashes_plain.
  - rewrite all_slashes_app, andb_false_r, IH by assumption. reflexivity.
Qed.

Lemma file_part_plain (c : string) :
  Path.has_slash c = false -> Path.file_part c = c.
Proof.
  destruct c as [|a c]; simpl; [reflexivity|]. now intros ->.
Qed.

Lemma file_part_app (d c : string) :
  Path.has_slash c = false -> Path.file_part (d ++ "/" ++ c) = c.
Proof.
  intros Hs. induction d as [|a d IH].
  - simpl. now apply file_part_plain.
  - simpl. rewrite has_slash_app. simpl. rewrite !orb_true_r. exact IH.
Qed.

(** The base of a path that ends with a slash and an element is that
    element. *)
Lemma Base_last_element (d c : string) :
  c <> "" -> Path.has_slash c = false -> Path.Base (d ++ "/" ++ c) = c.
Proof.
  intros Hc Hs. unfold Path.Base.
  assert (Hne : String.eqb (d ++ "/" ++ c) "" = false) by (now destruct d).
  assert (Hstrip : Path.strip_slashes (d ++ "/" ++ c) = d ++ "/" ++ c).
  { rewrite <- (app_assoc_s d "/" c). now apply strip_slashes_app. }
  rewrite Hne, Hstrip, file_part_app by assumption.
  destruct c; [congruence|reflexivity].
Qed.

(** C8.  The name of a module is a function of the URL of its repository
    alone: whenever [URL] returns [u], [Name] returns the base of [u], its
    last path element, without a final [.git]; so two modules whose [URL]
    return the same text have the same name, whatever their tools, paths
    and states.  For a URL that ends with a slash and an element [c], the
    name is [c] without a final [.git]. *)
Theorem Name_of_URL (tool tool' : Tool) (m m' : JujutsuModule)
  (w w1 w' w1' : World) (u : string) :
  URL tool m w = (Ret u, w1) -> URL tool' m' w' = (Ret u, w1') ->
  Name tool m w = (Ret (Strings.TrimSuffix (Path.Base u) ".git"), w1) /\
  fst (Name tool' m' w') = fst (Name tool m w) /\
  (forall d c, u = d ++ "/" ++ c -> c <> "" -> Path.has_slash c = false ->
     fst (Name tool m w) = Ret (Strings.TrimSuffix c ".git")) /\
  (forall d n, u = d ++ "/" ++ n ++ ".git" -> Path.has_slash n = false ->
     fst (Name tool m w) = Ret n).
Proof.
  intros H H'.
  assert (HN : Name tool m w =
               (Ret (Strings.TrimSuffix (Path.Base u) ".git"), w1))
    by (unfold Name, bind; now rewrite H).
  assert (HN' : Name tool' m' w' =
                (Ret (Strings.TrimSuffix (Path.Base u) ".git"), w1'))
    by (unfold Name, bind; now rewrite H').
  split; [exact HN|]. split; [now rewrite HN, HN'|]. split.
  - intros d c -> Hc Hs. rewrite HN. cbn [fst].
    now rewrite Base_last_element.
  - intros d n -> Hs. rewrite HN. cbn [fst].
    rewrite Base_last_element.
    + now rewrite TrimSuffix_app.
    + now destruct n.
    + rewrite has_slash_app, Hs. reflexivity.
Qed.

Lemma Name_of_URL_witness :
  fst (URL lib_tool lib (world_of lib_fs)) =
    Ret "https://example.org/team/lib.git" /\
  fst (Name lib_tool lib (world_of lib_fs)) = Ret "lib".
Proof.
  split; [reflexivity|].
  exact (proj2 (proj2 (proj2
           (Name_of_URL lib_tool lib_tool lib lib (world_of lib_fs)
              (snd (URL lib_tool lib (world_of lib_fs))) (world_of lib_fs)
              (snd (URL lib_tool lib (world_of lib_fs)))
              "https://example.org/team/lib.git" eq_refl eq_refl)))
           "https://example.org/team" "lib" eq_refl eq_refl).
Defined.

(** ** The operating system *)

(** A walk that succeeds still succeeds, and ends at the same place, when
    directories are added. *)
Lemma walk_mono (f f' : FS) :
  (forall q, entry f q = Some Directory -> entry f' q = Some Directory) ->
  forall l cur a,
    Os.walk f cur l = Os.Found a -> Os.walk f' cur l = Os.Found a.
Proof.
  intros H l. induction l as [|e l IH]; intros cur a; simpl; [auto|].
  destruct (entry f cur) as [[|]|] eqn:E; try discriminate.
  rewrite (H _ E). apply IH.
Qed.

Lemma namei_mono (f f' : FS) (name a : string) :
  cwd f' = cwd f ->
  (forall q, entry f q = Some Directory -> entry f' q = Some Directory) ->
  Os.namei f name = Os.Found a -> Os.namei f' name = Os.Found a.
Proof.
  intros Hc H. unfold Os.namei. rewrite Hc.
  destruct (String.eqb name ""); [discriminate|].
  destruct (Path.rooted name); [apply walk_mono, H|].
  destruct (cwd f); [apply walk_mono, H|discriminate].
Qed.



Lemma grown_dirs (f f' : FS) (q : string) :
  grown f f' -> entry f q = Some Directory -> entry f' q = Some Directory.
Proof.
  intros (_ & _ & _ & E) H. destruct (E q) as [E1|[E1 _]]; congruence.
Qed.


Lemma shrunk_dirs (f f' : FS) (q : string) (k : node) :
  shrunk f f' -> entry f' q = Some k -> entry f q = Some k.
Proof.
  intros (_ & _ & _ & E) H. destruct (E q) as [E1|E1]; congruence.
Qed.

Lemma create_grown (f : FS) (a : string) :
  entry f a = None -> grown f (Os.create f a).
Proof.
  intros H. split; [reflexivity|]. split; [reflexivity|].
  split; [reflexivity|]. intros q. simpl.
  destruct (String.eqb q a) eqn:E; [|now left].
  apply String.eqb_eq in E. subst q. now right.
Qed.

(** What [os.Mkdir] does: nothing when it fails; otherwise one directory
    is new, at the place the name denotes, where nothing was. *)
Lemma Mkdir_inv (name : string) (f f' : FS) (e : option Os.errno) :
  Os.Mkdir name f = (e, f') ->
  (e <> None /\ f' = f) \/
  (e = None /\ exists a, Os.namei f name = Os.Found a /\ entry f a = None /\
                         f' = Os.create f a).
Proof.
  unfold Os.Mkdir. destruct (Os.namei f name) as [a|e0].
  - destruct (_ || _).
    + intros [= <- <-]. left. split; [discriminate|reflexivity].
    + destruct (entry f a) eqn:Ea.
      * intros [= <- <-]. left. split; [discriminate|reflexivity].
      * destruct (Os.refused f a); intros [= <- <-].
        -- left. split; [discriminate|reflexivity].
        -- right. split; [reflexivity|]. now exists a.
  - intros [= <- <-]. left. split; [discriminate|reflexivity].
Qed.


Lemma Stat_dir (f : FS) (name a : string) :
  Os.namei f name = Os.Found a -> entry f a = Some Directory ->
  Os.Stat f name = Some Directory.
Proof. intros Hn Ha. unfold Os.Stat. now rewrite Hn, Ha. Qed.

(** After [os.Mkdir] has succeeded the name is a directory. *)
Lemma Mkdir_ok (name : string) (f f' : FS) :
  Os.Mkdir name f = (None, f') -> Os.Stat f' name = Some Directory.
Proof.
  intros H.
  destruct (Mkdir_inv _ _ _ _ H) as [[Hn _]|(_ & a & Hn & Ha & ->)];
    [now elim Hn|].
  apply (Stat_dir _ _ a).
  - apply (namei_mono f); [reflexivity| |exact Hn].
    intros q Hq. exact (grown_dirs _ _ _ (create_grown _ _ Ha) Hq).
  - simpl. now rewrite String.eqb_refl.
Qed.

Lemma mkdir_all_eq (fuel : nat) (path : string) (f : FS) :
  Os.mkdir_all fuel path f =
    match Os.Stat f path with
    | Some Directory => (None, f)
    | Some File => (Some Os.ENOTDIR, f)
    | None =>
        match
          match fuel with
          | S k =>
              if String.eqb (Path.dir_part (Path.strip_slashes path)) ""
              then (None, f)
              else Os.mkdir_all k (Path.dir_part (Path.strip_slashes path)) f
          | 0 => (None, f)
          end
        with
        | (Some e, f1) => (Some e, f1)
        | (None, f1) =>
            match Os.Mkdir path f1 with
            | (None, f2) => (None, f2)
            | (Some e, f2) =>
                match Os.Stat f2 path with
                | Some Directory => (None, f2)
                | _ => (Some e, f2)
                end
            end
        end
    end.
Proof. destruct fuel; reflexivity. Qed.


(** After [os.MkdirAll] has succeeded the name is a directory. *)
Lemma mkdir_all_ok (fuel : nat) (path : string) (f f' : FS) :
  Os.mkdir_all fuel path f = (None, f') -> Os.Stat f' path = Some Directory.
Proof.
  rewrite mkdir_all_eq. destruct (Os.Stat f path) as [[|]|] eqn:Es.
  - discriminate.
  - now intros [= <-].
  - destruct (match fuel with 0 => _ | S _ => _ end) as [[e1|] f1];
      [discriminate|].
    destruct (Os.Mkdir path f1) as [[e2|] f2] eqn:Em.
    + destruct (Os.Stat f2 path) as [[|]|] eqn:E2; try discriminate.
      now intros [= <-].
    + intros [= <-]. exact (Mkdir_ok _ _ _ Em).
Qed.

Lemma MkdirAll_inv (p : string) (f f' : FS) (e : option string) :
  Os.MkdirAll p f = (e, f') ->
  exists e0, Os.mkdir_all (String.length p) p f = (e0, f') /\
             e = option_map Os.strerror e0.
Proof.
  unfold Os.MkdirAll.
  destruct (Os.mkdir_all (String.length p) p f) as [e0 f0].
  intros [= <- <-]. now exists e0.
Qed.

Lemma MkdirAll_ok (p : string) (f f' : FS) :
  Os.MkdirAll p f = (None, f') -> DirExists f' p = true.
Proof.
  intros H. destruct (MkdirAll_inv _ _ _ _ H) as (e0 & Hm & He).
  destruct e0; [discriminate|].
  unfold DirExists. now rewrite (mkdir_all_ok _ _ _ _ Hm).
Qed.


(** The parent that [os.MkdirAll] makes first is shorter than the name,
    so a recursion as deep as the name is long reaches every parent. *)
Lemma strip_slashes_length (p : string) :
  String.length (Path.strip_slashes p) <= String.length p.
Proof.
  induction p as [|a p IH]; simpl; [lia|].
  destruct (Ascii.eqb a Path.slash && Path.all_slashes p); simpl; lia.
Qed.

Lemma strip_slashes_empty (p : string) :
  Path.strip_slashes p = "" -> Path.all_slashes p = true.
Proof.
  destruct p as [|a p]; simpl; [reflexivity|].
  destruct (Ascii.eqb a Path.slash && Path.all_slashes p); [|discriminate].
  reflexivity.
Qed.

Lemma dir_file_part (s : string) : Path.dir_part s ++ Path.file_part s = s.
Proof.
  induction s as [|a s IH]; simpl; [reflexivity|].
  destruct (Ascii.eqb a Path.slash || Path.has_slash s); simpl;
    [now rewrite IH|reflexivity].
Qed.

Lemma file_part_stripped (p : string) :
  Path.file_part (Path.strip_slashes p) = "" -> Path.strip_slashes p = "".
Proof.
  induction p as [|a p IH]; simpl; [reflexivity|].
  destruct (Ascii.eqb a Path.slash) eqn:Ea; simpl.
  - destruct (Path.all_slashes p) eqn:E; [reflexivity|]. simpl.
    rewrite Ea. simpl. intros H. apply IH, strip_slashes_empty in H.
    congruence.
  - rewrite Ea. simpl.
    destruct (Path.has_slash (Path.strip_slashes p)) eqn:Hs; [|discriminate].
    intros H. apply IH in H. rewrite H in Hs. discriminate.
Qed.

Lemma parent_shorter (p : string) :
  p <> "" ->
  String.length (Path.dir_part (Path.strip_slashes p)) < String.length p.
Proof.
  intros Hp. pose proof (strip_slashes_length p) as Hl.
  pose proof (dir_file_part (Path.strip_slashes p)) as Hd.
  apply (f_equal String.length) in Hd. rewrite length_app in Hd.
  destruct (Path.file_part (Path.strip_slashes p)) eqn:Ef.
  - apply file_part_stripped in Ef. rewrite Ef. simpl.
    destruct p; [now elim Hp|simpl; lia].
  - simpl in Hd. lia.
Qed.

Lemma mkdir_all_fuel (n : nat) :
  forall (m : nat) (path : string) (f : FS),
    String.length path <= n -> String.length path <= m ->
    Os.mkdir_all n path f = Os.mkdir_all m path f.
Proof.
  induction n as [|n IH]; intros m path f Hn Hm.
  - destruct path; [|simpl in Hn; lia].
    rewrite (mkdir_all_eq 0), (mkdir_all_eq m). destruct m; reflexivity.
  - destruct m as [|m].
    + destruct path; [|simpl in Hm; lia].
      rewrite (mkdir_all_eq (S n)), (mkdir_all_eq 0). reflexivity.
    + rewrite (mkdir_all_eq (S n)), (mkdir_all_eq (S m)).
      destruct (String.eqb (Path.dir_part (Path.strip_slashes path)) "")
        eqn:E; [reflexivity|].
      assert (Hp : path <> "") by (intros ->; discriminate).
      pose proof (parent_shorter path Hp) as Hs.
      rewrite (IH m); [reflexivity|lia|lia].
Qed.

(** More fuel than the length of the name changes nothing. *)
Lemma MkdirAll_fuel (n : nat) (p : string) (f : FS) :
  String.length p <= n ->
  Os.MkdirAll p f =
    (option_map Os.strerror (fst (Os.mkdir_all n p f)),
     snd (Os.mkdir_all n p f)).
Proof.
  intros H. unfold Os.MkdirAll.
  rewrite (mkdir_all_fuel n (String.length p) p f H (le_n _)).
  now destruct (Os.mkdir_all (String.length p) p f).
Qed.

(** ** Removing *)

Lemma names_nil (p : string) : Os.names p = [] -> Path.all_slashes p = true.
Proof.
  unfold Os.names. induction p as [|a p IH]; [reflexivity|]. simpl.
  destruct (Ascii.eqb a Path.slash) eqn:Ea; simpl; [exact IH|].
  destruct (Strings.Split p Path.slash); simpl; discriminate.
Qed.

Lemma under_refl (t : string) : Os.under t t = true.
Proof. unfold Os.under. now rewrite String.eqb_refl, orb_true_r. Qed.

Lemma purge_shrunk (f : FS) (t : string) (keep : bool) :
  shrunk f (Os.purge f t keep).
Proof.
  split; [reflexivity|]. split; [reflexivity|]. split; [reflexivity|].
  intros q. simpl. destruct (_ && _); [now right|now left].
Qed.

Lemma shrunk_refl (f : FS) : shrunk f f.
Proof. repeat split; auto. Qed.

Lemma purge_outside (f : FS) (t q : string) (keep : bool) :
  Os.under t q = false -> entry (Os.purge f t keep) q = entry f q.
Proof. intros H. simpl. now rewrite H. Qed.

Lemma removeAllFrom_shrunk (f f' : FS) (t : string)
  (pin : option Os.errno) (e : option string) :
  Os.removeAllFrom f t pin = (e, f') ->
  shrunk f f' /\
  forall q, Os.under t q = false -> entry f' q = entry f q.
Proof.
  unfold Os.removeAllFrom. destruct (entry f t).
  - destruct (Os.stays f t); intros [= <- <-];
      (split; [apply purge_shrunk|intros q; apply purge_outside]).
  - intros [= <- <-]. split; [apply shrunk_refl|reflexivity].
Qed.

(** [os.RemoveAll] removes entries and touches nothing else, whether it
    succeeds or not; what it removes lies at the place the name denotes
    or below it. *)
Lemma RemoveAll_shrunk (p : string) (f f' : FS) (e : option string) :
  Os.RemoveAll p f = (e, f') ->
  shrunk f f' /\
  forall q, entry f' q <> entry f q ->
            exists t, Os.namei f p = Os.Found t /\ Os.under t q = true.
Proof.
  assert (Same : forall e0, (e0, f) = (e, f') ->
            shrunk f f' /\
            forall q, entry f' q <> entry f q ->
              exists t, Os.namei f p = Os.Found t /\ Os.under t q = true).
  { intros e0 [= <- <-]. split; [apply shrunk_refl|]. intros q H.
    now elim H. }
  unfold Os.RemoveAll.
  destruct (String.eqb p "") eqn:Ep; [apply Same|].
  destruct (Os.endsWithDot p); [apply Same|].
  destruct (Os.names p) eqn:En.
  - destruct (Os.namei f ".") as [a|[]]; try apply Same.
    intros H. apply removeAllFrom_shrunk in H as [Hs Ho].
    split; [exact Hs|]. intros q Hq. exists "/". split; [|reflexivity].
    unfold Os.namei. rewrite En, Ep.
    destruct p as [|c p]; [discriminate|].
    apply names_nil in En. simpl in En. apply andb_prop in En as [Hc _].
    simpl. now rewrite Hc.
  - rewrite <- En. destruct (Os.namei f p) as [t|[]]; try apply Same.
    intros H. apply removeAllFrom_shrunk in H as [Hs Ho].
    split; [exact Hs|]. intros q Hq. exists t. split; [reflexivity|].
    destruct (Os.under t q) eqn:Eu; [reflexivity|].
    now elim Hq; apply Ho.
Qed.

(** After [os.RemoveAll] has succeeded nothing exists at the name, the
    root apart, which is never removed. *)
Lemma RemoveAll_ok (p : string) (f f' : FS) :
  Os.RemoveAll p f = (None, f') -> Path.all_slashes p = false ->
  Os.Stat f' p = None.
Proof.
  intros H Hr. pose proof (RemoveAll_shrunk _ _ _ _ H) as [Hs _].
  assert (Hk : forall a, Os.namei f p = Os.Found a -> entry f' a = None ->
                         Os.Stat f' p = None).
  { intros a Hn Ha. unfold Os.Stat.
    destruct (Os.namei f' p) as [b|] eqn:Eb; [|reflexivity].
    assert (Hb : Os.namei f p = Os.Found b).
    { apply (namei_mono f'); [symmetry; apply Hs| |exact Eb].
      intros q. apply shrunk_dirs, Hs. }
    rewrite Hb in Hn. injection Hn as ->. now rewrite Ha. }
  revert H. unfold Os.RemoveAll.
  destruct (String.eqb p "") eqn:Ep.
  { apply String.eqb_eq in Ep. subst p. discriminate. }
  destruct (Os.endsWithDot p); [discriminate|].
  destruct (Os.names p) eqn:En.
  { apply names_nil in En. congruence. }
  rewrite <- En. destruct (Os.namei f p) as [t|e0] eqn:Et.
  - unfold Os.removeAllFrom. destruct (entry f t) eqn:Ee.
    + destruct (Os.stays f t) eqn:Est; [discriminate|].
      destruct (Os.pinned _); [discriminate|].
      intros [= <-]. apply (Hk t eq_refl). simpl.
      now rewrite under_refl, Est.
    + intros [= <-]. exact (Hk t eq_refl Ee).
  - destruct e0; try discriminate. intros [= <-].
    unfold Os.Stat. now rewrite Et.
Qed.

(** ** Clone *)

(** What [clone] comes to, once [jj git clone] has answered. *)
Lemma clone_run (tool : Tool) (m : JujutsuModule) (url : string)
  (w : World) (r : ProcResult) (f1 : FS) :
  tool (trace w) (fs w) (jj m ["git"; "clone"; url; path m]) = (r, f1) ->
  clone tool m url w =
    let c := jj m ["git"; "clone"; url; path m] in
    let said := debug_jj ["git"; "clone"; url; path m] :: cloning url
                :: logs w in
    match err r with
    | None => (Ret None, mkWorld f1 (c :: trace w) said)
    | Some e =>
        match Os.RemoveAll (path m) f1 with
        | (None, f2) => (Ret (Some e), mkWorld f2 (c :: trace w) said)
        | (Some e', f2) =>
            (Exit (mkLog LFatal ("Failed to remove directory '%s': %s." ++ LF)
                     [path m; e']),
             mkWorld f2 (c :: trace w) said)
        end
    end.
Proof.
  intros Ht. unfold clone, bind, log_Log, log_call.
  rewrite (tryRunJjCommand_eq tool m _
             (mkWorld (fs w) (trace w)
                (mkLog LLog ("Cloning '%s'." ++ LF) [url] :: logs w)) r f1 Ht).
  cbv zeta. destruct (err r) as [e|]; [|reflexivity].
  unfold RemoveDir. simpl fs.
  destruct (Os.RemoveAll (path m) f1) as [[e'|] f2]; reflexivity.
Qed.

Lemma absent (f : FS) (p : string) :
  Os.Stat f p = None -> FileExists f p = false /\ DirExists f p = false.
Proof. intros H. unfold FileExists, DirExists. now rewrite H. Qed.

(** C2.  For every url and module path, what a clone comes to is fixed by
    the answer of [jj git clone] and by what the system lets be removed.
    When jj succeeds nothing is removed: the file system is as jj left it.
    When jj fails the module path is removed before anything is returned:
    if the removal succeeds, the error returned is the error of jj and
    neither a file nor a directory exists at the module path (the root
    apart); if the removal fails, the process ends with the message of
    [RemoveDir] and no error is returned.  [createJujutsuModule] creates
    the directory first, ending the process when it cannot, and so runs
    jj in a file system where the module path is a directory; it returns
    the module when jj succeeds and the error of jj otherwise. *)
Theorem Clone_spec (tool : Tool) (modulePath url : string) (w : World) :
  let m := mkJujutsu modulePath in
  let c := jj m ["git"; "clone"; url; modulePath] in
  let said := debug_jj ["git"; "clone"; url; modulePath] :: cloning url
              :: logs w in
  let failed e' :=
    mkLog LFatal ("Failed to remove directory '%s': %s." ++ LF)
      [modulePath; e'] in
  (forall r f1,
     tool (trace w) (fs w) c = (r, f1) ->
     (err r = None ->
      clone tool m url w = (Ret None, mkWorld f1 (c :: trace w) said)) /\
     (forall e, err r = Some e ->
        (forall f2, Os.RemoveAll modulePath f1 = (None, f2) ->
           clone tool m url w =
             (Ret (Some e), mkWorld f2 (c :: trace w) said) /\
           (Path.all_slashes modulePath = false ->
            FileExists f2 modulePath = false /\
            DirExists f2 modulePath = false)) /\
        (forall e' f2, Os.RemoveAll modulePath f1 = (Some e', f2) ->
           clone tool m url w =
             (Exit (failed e'), mkWorld f2 (c :: trace w) said)))) /\
  (forall e0 f0,
     Os.MkdirAll modulePath (fs w) = (Some e0, f0) ->
     createJujutsuModule tool modulePath url w =
       (Exit (mkLog LFatal ("Failed to create directory '%s': %s." ++ LF)
                [modulePath; e0]),
        mkWorld f0 (trace w) (logs w))) /\
  (forall f0 r f1,
     Os.MkdirAll modulePath (fs w) = (None, f0) ->
     tool (trace w) f0 c = (r, f1) ->
     DirExists f0 modulePath = true /\
     (err r = None ->
      createJujutsuModule tool modulePath url w =
        (Ret (Ok m), mkWorld f1 (c :: trace w) said)) /\
     (forall e, err r = Some e ->
        (forall f2, Os.RemoveAll modulePath f1 = (None, f2) ->
           createJujutsuModule tool modulePath url w =
             (Ret (Err e), mkWorld f2 (c :: trace w) said) /\
           (Path.all_slashes modulePath = false ->
            FileExists f2 modulePath = false /\
            DirExists f2 modulePath = false)) /\
        (forall e' f2, Os.RemoveAll modulePath f1 = (Some e', f2) ->
           createJujutsuModule tool modulePath url w =
             (Exit (failed e'), mkWorld f2 (c :: trace w) said)))).
Proof.
  intros m c said failed. split; [|split].
  - intros r f1 Ht. pose proof (clone_run tool m url w r f1 Ht) as Hc.
    cbv zeta in Hc. simpl path in Hc. split.
    + intros He. now rewrite He in Hc.
    + intros e He. rewrite He in Hc. split.
      * intros f2 Hr. rewrite Hr in Hc. split; [exact Hc|].
        intros Hp. exact (absent _ _ (RemoveAll_ok _ _ _ Hr Hp)).
      * intros e' f2 Hr. now rewrite Hr in Hc.
  - intros e0 f0 Hm. unfold createJujutsuModule, bind, MkdirAll.
    now rewrite Hm.
  - intros f0 r f1 Hm Ht. split; [exact (MkdirAll_ok _ _ _ Hm)|].
    pose proof (clone_run tool m url (mkWorld f0 (trace w) (logs w)) r f1 Ht)
      as Hc.
    cbv zeta in Hc. simpl path in Hc. simpl trace in Hc. simpl logs in Hc.
    assert (Hj : createJujutsuModule tool modulePath url w =
                 match clone tool m url (mkWorld f0 (trace w) (logs w)) with
                 | (Ret None, w') => (Ret (Ok m), w')
                 | (Ret (Some e), w') => (Ret (Err e), w')
                 | (Exit x, w') => (Exit x, w')
                 end).
    { unfold createJujutsuModule, bind, MkdirAll. rewrite Hm.
      fold m. destruct (clone tool m url _) as [[[e|]|x] w']; reflexivity. }
    rewrite Hj, Hc. split.
    + intros He. now rewrite He.
    + intros e He. rewrite He. split.
      * intros f2 Hr. rewrite Hr. split; [reflexivity|].
        intros Hp. exact (absent _ _ (RemoveAll_ok _ _ _ Hr Hp)).
      * intros e' f2 Hr. now rewrite Hr.
Qed.

Lemma Clone_spec_witness :
  (Os.MkdirAll "/ws/DEPS/lib" fresh_fs =
     (None, snd (Os.MkdirAll "/ws/DEPS/lib" fresh_fs)) /\
   fst (createJujutsuModule jj_fake "/ws/DEPS/lib"
          "https://example.org/team/lib.git" (world_of fresh_fs))
     = Ret (Ok lib)) /\
  (Path.all_slashes "/ws/DEPS/lib" = false /\
   fst (createJujutsuModule jj_fake "/ws/DEPS/lib"
          "https://example.org/team/gone.git" (world_of fresh_fs))
     = Ret (Err "exit status 1") /\
   DirExists
     (fs (snd (createJujutsuModule jj_fake "/ws/DEPS/lib"
                 "https://example.org/team/gone.git" (world_of fresh_fs))))
     "/ws/DEPS/lib" = false).
Proof.
  split.
  - split; [reflexivity|].
    pose proof (proj2 (proj2 (Clone_spec jj_fake "/ws/DEPS/lib"
                                "https://example.org/team/lib.git"
                                (world_of fresh_fs)))
                  _ _ _ eq_refl eq_refl) as (_ & Hs & _).
    now rewrite (Hs eq_refl).
  - split; [reflexivity|].
    pose proof (proj2 (proj2 (Clone_spec jj_fake "/ws/DEPS/lib"
                                "https://example.org/team/gone.git"
                                (world_of fresh_fs)))
                  _ _ _ eq_refl eq_refl) as (_ & _ & Hf).
    destruct (Hf "exit status 1" eq_refl) as [Hr _].
    destruct (Hr _ eq_refl) as [Hc Ha].
    rewrite Hc. split; [reflexivity|]. exact (proj2 (Ha eq_refl)).
Defined.

(** C2, as stated, fails: when the system refuses the removal, the clone
    has failed, yet no error is returned, the process ends in [RemoveDir],
    and the directory at the module path is still there. *)
Lemma Clone_counterexample :
  err (fst (jj_fake [] stuck_fs
              (jj lib ["git"; "clone"; "https://example.org/team/gone.git";
                       "/ws/DEPS/lib"]))) = Some "exit status 1" /\
  (exists e,
     fst (createJujutsuModule jj_fake "/ws/DEPS/lib"
            "https://example.org/team/gone.git" (world_of stuck_fs)) =
       Exit (mkLog LFatal ("Failed to remove directory '%s': %s." ++ LF)
               ["/ws/DEPS/lib"; e])) /\
  DirExists
    (fs (snd (createJujutsuModule jj_fake "/ws/DEPS/lib"
                "https://example.org/team/gone.git" (world_of stuck_fs))))
    "/ws/DEPS/lib" = true.
Proof.
  split; [reflexivity|]. split; [|reflexivity].
  eexists. reflexivity.
Qed.

(** * Further properties of the code *)

(** ** The queries of the Jujutsu backend that report errors as values *)

Lemma tryRunGitCommand_value (tool : Tool) (m : JujutsuModule)
  (a : list string) (w : World) (r1 r2 : ProcResult) (f1 f2 : FS) :
  tool (trace w) (fs w) (root_cmd m) = (r1, f1) -> err r1 = None ->
  tool (root_cmd m :: trace w) f1 (git a r1) = (r2, f2) ->
  fst (tryRunGitCommand tool m a w) =
    Ret (Strings.TrimSuffix (stdout r2) LF,
         Strings.TrimSuffix (stderr r2) LF, err r2).
Proof.
  intros H He H2.
  now rewrite (tryRunGitCommand_eq _ _ _ _ _ _ H _ _ He H2).
Qed.

(** X1.  Once [jj git root] has located the repository, [IsAncestor]
    always returns: [true] exactly when [git merge-base --is-ancestor]
    exited with success.  A failing git, a reference it does not know
    included, is the answer [false], never a fatal exit. *)
Theorem IsAncestor_spec (tool : Tool) (m : JujutsuModule)
  (ancestor rev : string) (w : World) (r1 r2 : ProcResult) (f1 f2 : FS) :
  tool (trace w) (fs w) (root_cmd m) = (r1, f1) -> err r1 = None ->
  tool (root_cmd m :: trace w) f1
    (git ["merge-base"; "--is-ancestor"; ancestor; rev] r1) = (r2, f2) ->
  exists b,
    IsAncestor tool m ancestor rev w =
      (Ret b,
       mkWorld f2
         (git ["merge-base"; "--is-ancestor"; ancestor; rev] r1
            :: root_cmd m :: trace w)
         (debug_jj ["git"; "root"]
            :: debug_git ["merge-base"; "--is-ancestor"; ancestor; rev]
            :: logs w)) /\
    (b = true <-> err r2 = None).
Proof.
  intros H He H2. eexists. split.
  - unfold IsAncestor, bind.
    rewrite (tryRunGitCommand_eq _ _ _ _ _ _ H _ _ He H2). reflexivity.
  - destruct (err r2); split; intros Hb; try reflexivity; discriminate.
Qed.

Lemma IsAncestor_spec_witness :
  history_tool [] lib_fs (root_cmd lib)
    = (mkProc (lib_store ++ LF) "" None, lib_fs) /\
  fst (IsAncestor history_tool lib "4f2a9c1" "9d07e55" (world_of lib_fs))
    = Ret true /\
  fst (IsAncestor history_tool lib "9d07e55" "4f2a9c1" (world_of lib_fs))
    = Ret false.
Proof.
  split; [reflexivity|]. split.
  - destruct (IsAncestor_spec history_tool lib "4f2a9c1" "9d07e55"
                (world_of lib_fs) _ _ _ _ eq_refl eq_refl eq_refl)
      as (b & Hb & Hi).
    rewrite Hb. simpl fst. f_equal. now apply Hi.
  - destruct (IsAncestor_spec history_tool lib "9d07e55" "4f2a9c1"
                (world_of lib_fs) _ _ _ _ eq_refl eq_refl eq_refl)
      as (b & Hb & Hi).
    rewrite Hb. simpl fst. f_equal. destruct b; [|reflexivity].
    destruct Hi as [Hi _]. discriminate (Hi eq_refl).
Defined.

(** X2.  [GetMergeBase], [GetCommitTitle] and [GetCommitAuthorName] return
    what git printed, without the final line feed, next to the error of
    the run: once the repository is located, a failing git is reported to
    the caller as a value and does not end the process. *)
Theorem git_queries_return_errors (tool : Tool) (m : JujutsuModule)
  (w : World) (r1 : ProcResult) (f1 : FS) :
  tool (trace w) (fs w) (root_cmd m) = (r1, f1) -> err r1 = None ->
  (forall revA revB r2 f2,
     tool (root_cmd m :: trace w) f1 (git ["merge-base"; revA; revB] r1)
       = (r2, f2) ->
     fst (GetMergeBase tool m revA revB w) =
       Ret (Strings.TrimSuffix (stdout r2) LF, err r2)) /\
  (forall revision r2 f2,
     tool (root_cmd m :: trace w) f1
       (git ["show"; "--format=format:" ++ DQ ++ "%s" ++ DQ; "-s"; revision]
          r1) = (r2, f2) ->
     fst (GetCommitTitle tool m revision w) =
       Ret (Strings.TrimSuffix (stdout r2) LF, err r2)) /\
  (forall revision r2 f2,
     tool (root_cmd m :: trace w) f1
       (git ["show"; "--format=format:" ++ DQ ++ "%an" ++ DQ; "-s"; revision]
          r1) = (r2, f2) ->
     fst (GetCommitAuthorName tool m revision w) =
       Ret (Strings.TrimSuffix (stdout r2) LF, err r2)).
Proof.
  intros H He. split; [|split].
  - intros revA revB r2 f2 H2. unfold GetMergeBase, bind.
    now rewrite (tryRunGitCommand_eq _ _ _ _ _ _ H _ _ He H2).
  - intros revision r2 f2 H2. unfold GetCommitTitle, bind.
    now rewrite (tryRunGitCommand_eq _ _ _ _ _ _ H _ _ He H2).
  - intros revision r2 f2 H2. unfold GetCommitAuthorName, bind.
    now rewrite (tryRunGitCommand_eq _ _ _ _ _ _ H _ _ He H2).
Qed.

Lemma git_queries_return_errors_witness :
  history_tool [] lib_fs (root_cmd lib)
    = (mkProc (lib_store ++ LF) "" None, lib_fs) /\
  fst (GetMergeBase history_tool lib "4f2a9c1" "9d07e55" (world_of lib_fs))
    = Ret ("4f2a9c1", None) /\
  fst (GetMergeBase history_tool lib "4f2a9c1" "0c0ffee" (world_of lib_fs))
    = Ret ("", Some "exit status 1").
Proof.
  split; [reflexivity|]. split.
  - exact (proj1 (git_queries_return_errors history_tool lib
                    (world_of lib_fs) _ _ eq_refl eq_refl)
             "4f2a9c1" "9d07e55" _ _ eq_refl).
  - exact (proj1 (git_queries_return_errors history_tool lib
                    (world_of lib_fs) _ _ eq_refl eq_refl)
             "4f2a9c1" "0c0ffee" _ _ eq_refl).
Defined.

Lemma exits_through (A B : Type) (x : M A) (k : A -> M B) (w : World)
  (text : string) :
  exits_with x w text -> exits_with (bind x k) w text.
Proof.
  intros (c & w' & Hx & Hl & Hc & Hk). exists c, w'.
  split; [apply Hk|]. split; [assumption|]. split; [assumption|].
  intros C k'. unfold bind. rewrite Hx. reflexivity.
Qed.

Lemma tryRunGitCommand_root_exits (tool : Tool) (m : JujutsuModule)
  (a : list string) (w : World) (r1 : ProcResult) (f1 : FS) (e : string) :
  tool (trace w) (fs w) (root_cmd m) = (r1, f1) -> err r1 = Some e ->
  exits_with (tryRunGitCommand tool m a) w (stderr r1).
Proof.
  intros H He.
  destruct (tryRunGitCommand_root_fail _ _ a _ _ _ H _ He)
    as (c & w' & Ht & Hj).
  destruct (runJjCommand_exits tool m ["git"; "root"] (git_world a w)
              r1 f1 e H He) as (c' & w'' & Hj' & Hl & Hc & _).
  rewrite Hj in Hj'. injection Hj' as <- <-.
  now apply exits_bind with (w' := w') (c := c).
Qed.

(** X3.  Every query that goes through git first asks [jj git root] for the
    repository, with the fatal runner: when that lookup fails, the queries
    that otherwise return their errors ([IsAncestor], [GetMergeBase],
    [GetCommitsBetweenRefs], [GetCommitTitle], [GetCommitAuthorName]) end
    the process, with the standard error text of jj in the message. *)
Theorem git_queries_exit_without_repository (tool : Tool)
  (m : JujutsuModule) (w : World) (r1 : ProcResult) (f1 : FS) (e : string) :
  tool (trace w) (fs w) (root_cmd m) = (r1, f1) -> err r1 = Some e ->
  (forall ancestor rev,
     exits_with (IsAncestor tool m ancestor rev) w (stderr r1)) /\
  (forall revA revB,
     exits_with (GetMergeBase tool m revA revB) w (stderr r1)) /\
  (forall base head,
     exits_with (GetCommitsBetweenRefs tool m base head) w (stderr r1)) /\
  (forall revision,
     exits_with (GetCommitTitle tool m revision) w (stderr r1)) /\
  (forall revision,
     exits_with (GetCommitAuthorName tool m revision) w (stderr r1)).
Proof.
  intros H He.
  pose proof (fun a => tryRunGitCommand_root_exits tool m a w r1 f1 e H He)
    as Hx.
  repeat split; intros; apply exits_through; apply Hx.
Qed.

Lemma git_queries_exit_without_repository_witness :
  err (fst (no_repo_tool [] lib_fs (root_cmd lib))) = Some "exit status 1" /\
  exits_with (IsAncestor no_repo_tool lib "4f2a9c1" "9d07e55")
    (world_of lib_fs)
    ("Error: There is no jj repo in " ++ DQ ++ "." ++ DQ ++ LF).
Proof.
  split; [reflexivity|].
  exact (proj1 (git_queries_exit_without_repository no_repo_tool lib
                  (world_of lib_fs) _ _ "exit status 1" eq_refl eq_refl)
           "4f2a9c1" "9d07e55").
Defined.

(** ** The shape of module names *)

Lemma all_slashes_snoc (u : string) :
  Path.all_slashes (u ++ "/") = Path.all_slashes u.
Proof.
  induction u as [|a u IH]; [reflexivity|]. simpl. now rewrite IH.
Qed.

Lemma strip_slashes_snoc (u : string) :
  Path.strip_slashes (u ++ "/") = Path.strip_slashes u.
Proof.
  induction u as [|a u IH]; [reflexivity|]. simpl.
  now rewrite all_slashes_snoc, IH.
Qed.

Lemma Base_trailing_slash (u : string) :
  u <> "" -> Path.Base (u ++ "/") = Path.Base u.
Proof.
  intros Hu. unfold Path.Base. rewrite strip_slashes_snoc.
  destruct u; [congruence|reflexivity].
Qed.

Lemma file_part_no_slash (p : string) :
  Path.has_slash (Path.file_part p) = false.
Proof.
  induction p as [|a p IH]; [reflexivity|]. simpl.
  destruct (Ascii.eqb a Path.slash || Path.has_slash p) eqn:E;
    [exact IH|exact E].
Qed.

Lemma Base_nonempty (u : string) : Path.Base u <> "".
Proof.
  unfold Path.Base. destruct (String.eqb u ""); [discriminate|].
  destruct (String.eqb_spec (Path.file_part (Path.strip_slashes u)) "");
    [discriminate|assumption].
Qed.

Lemma Base_no_slash (u : string) :
  Path.has_slash (Path.Base u) = true -> Path.Base u = "/".
Proof.
  unfold Path.Base. destruct (String.eqb u ""); [discriminate|].
  destruct (String.eqb (Path.file_part (Path.strip_slashes u)) "");
    [reflexivity|].
  now rewrite file_part_no_slash.
Qed.

Lemma TrimSuffix_prefix (s suf : string) :
  exists x, s = Strings.TrimSuffix s suf ++ x /\
            (Strings.TrimSuffix s suf <> s -> x = suf).
Proof.
  destruct (Strings.HasSuffix s suf) eqn:E.
  - destruct (HasSuffix_true _ _ E) as (x & Hs & Ht). exists suf.
    rewrite Ht. split; [exact Hs|reflexivity].
  - unfold Strings.TrimSuffix. rewrite E. exists "".
    split; [now rewrite app_empty_r|congruence].
Qed.

(** X4.  The name of a module does not depend on a slash at the end of
    the URL of its repository: when one module reports the URL [u], not
    empty, and another reports [u] followed by a slash, both have the same
    name. *)
Theorem Name_ignores_trailing_slash (tool tool' : Tool)
  (m m' : JujutsuModule) (w w1 w' w1' : World) (u : string) :
  u <> "" ->
  URL tool m w = (Ret u, w1) -> URL tool' m' w' = (Ret (u ++ "/"), w1') ->
  fst (Name tool' m' w') = fst (Name tool m w).
Proof.
  intros Hu H H'. unfold Name, bind. rewrite H, H'. simpl fst.
  now rewrite Base_trailing_slash.
Qed.

Lemma Name_ignores_trailing_slash_witness :
  "https://example.org/team/lib.git" <> "" /\
  fst (Name slash_url_tool lib (world_of lib_fs)) =
    fst (Name lib_tool lib (world_of lib_fs)).
Proof.
  split; [discriminate|].
  exact (Name_ignores_trailing_slash lib_tool slash_url_tool lib lib
           (world_of lib_fs) (snd (URL lib_tool lib (world_of lib_fs)))
           (world_of lib_fs) (snd (URL slash_url_tool lib (world_of lib_fs)))
           "https://example.org/team/lib.git"
           ltac:(discriminate) eq_refl eq_refl).
Defined.

(** X5.  Whenever [URL] returns [u], the name of the module holds no
    slash, unless it is the single slash that a URL of slashes only gives;
    and the name is empty exactly when the last element of [u] is [.git]
    itself. *)
Theorem Name_shape (tool : Tool) (m : JujutsuModule) (w w1 : World)
  (u : string) :
  URL tool m w = (Ret u, w1) ->
  exists name,
    fst (Name tool m w) = Ret name /\
    (Path.has_slash name = true -> name = "/") /\
    (name = "" <-> Path.Base u = ".git").
Proof.
  intros H. exists (Strings.TrimSuffix (Path.Base u) ".git").
  split; [unfold Name, bind; now rewrite H|]. split.
  - intros Hs.
    destruct (TrimSuffix_prefix (Path.Base u) ".git") as (x & Hx & _).
    assert (Hb : Path.has_slash (Path.Base u) = true)
      by (rewrite Hx, has_slash_app, Hs; reflexivity).
    apply Base_no_slash in Hb. rewrite Hb. reflexivity.
  - split.
    + intros He.
      destruct (TrimSuffix_prefix (Path.Base u) ".git") as (x & Hx & Hd).
      rewrite He in Hx, Hd. simpl in Hx. rewrite Hx. apply Hd.
      intros Hb. symmetry in Hb. now apply (Base_nonempty u).
    + intros ->. reflexivity.
Qed.

Lemma Name_shape_witness :
  fst (URL bare_url_tool lib (world_of lib_fs)) = Ret "/srv/repos/lib/.git" /\
  fst (Name bare_url_tool lib (world_of lib_fs)) = Ret "".
Proof.
  split; [reflexivity|].
  destruct (Name_shape bare_url_tool lib (world_of lib_fs)
              (snd (URL bare_url_tool lib (world_of lib_fs)))
              "/srv/repos/lib/.git" eq_refl) as (name & Hn & _ & He).
  rewrite Hn. f_equal. now apply He.
Defined.

(** ** What creating a module runs *)

Lemma clone_agree (tool tool' : Tool) (m : JujutsuModule) (url : string)
  (w : World) :
  tool' (trace w) (fs w) (jj m ["git"; "clone"; url; path m]) =
    tool (trace w) (fs w) (jj m ["git"; "clone"; url; path m]) ->
  clone tool' m url w = clone tool m url w.
Proof.
  intros H. unfold clone, bind, log_Log, log_call.
  destruct (tool (trace w) (fs w) (jj m ["git"; "clone"; url; path m]))
    as [r f'] eqn:Ht.
  rewrite (tryRunJjCommand_eq tool' m _
             (mkWorld (fs w) (trace w)
                (mkLog LLog ("Cloning '%s'." ++ LF) [url] :: logs w)) r f' H).
  rewrite (tryRunJjCommand_eq tool m _
             (mkWorld (fs w) (trace w)
                (mkLog LLog ("Cloning '%s'." ++ LF) [url] :: logs w)) r f' Ht).
  reflexivity.
Qed.

Lemma clone_trace (tool : Tool) (m : JujutsuModule) (url : string)
  (w : World) :
  trace (snd (clone tool m url w)) =
    jj m ["git"; "clone"; url; path m] :: trace w.
Proof.
  unfold clone, bind, log_Log, log_call.
  destruct (tool (trace w) (fs w) (jj m ["git"; "clone"; url; path m]))
    as [r f'] eqn:Ht.
  rewrite (tryRunJjCommand_eq tool m _
             (mkWorld (fs w) (trace w)
                (mkLog LLog ("Cloning '%s'." ++ LF) [url] :: logs w)) r f' Ht).
  destruct (err r); [|reflexivity].
  unfold RemoveDir. simpl fs.
  destruct (Os.RemoveAll (path m) f') as [[e'|] f'']; reflexivity.
Qed.

(** X6.  [createJujutsuModule] runs at most one subprocess, the clone,
    and only after the module directory has been created.  When the
    directory cannot be created the process ends and nothing is run.
    Otherwise [jj git clone url path] is run in [path], in a file system
    where [path] is a directory, it is the only command added to the
    trace, and the result depends on the tool through the answer to that
    one command only. *)
Theorem createJujutsuModule_runs_clone_only (tool : Tool)
  (modulePath url : string) (w : World) :
  (forall e f0,
     Os.MkdirAll modulePath (fs w) = (Some e, f0) ->
     exists c,
       createJujutsuModule tool modulePath url w =
         (Exit c, mkWorld f0 (trace w) (logs w)) /\
       contains (message c) modulePath) /\
  (forall f0,
     Os.MkdirAll modulePath (fs w) = (None, f0) ->
     DirExists f0 modulePath = true /\
     trace (snd (createJujutsuModule tool modulePath url w)) =
       mkCmd "jj" ["git"; "clone"; url; modulePath] modulePath :: trace w /\
     forall tool',
       tool' (trace w) f0
         (mkCmd "jj" ["git"; "clone"; url; modulePath] modulePath) =
       tool (trace w) f0
         (mkCmd "jj" ["git"; "clone"; url; modulePath] modulePath) ->
       createJujutsuModule tool' modulePath url w =
         createJujutsuModule tool modulePath url w).
Proof.
  split.
  - intros e f0 Hm. eexists. split.
    + unfold createJujutsuModule, bind, MkdirAll. rewrite Hm. reflexivity.
    + change (contains
                ("Failed to create directory '" ++ modulePath ++ "': " ++ e
                 ++ "." ++ LF) modulePath).
      apply contains_skip. now exists "", ("': " ++ e ++ "." ++ LF).
  - intros f0 Hm. split; [exact (MkdirAll_ok _ _ _ Hm)|]. split.
    + unfold createJujutsuModule, bind, MkdirAll. rewrite Hm.
      pose proof (clone_trace tool (mkJujutsu modulePath) url
                    (mkWorld f0 (trace w) (logs w))) as Ht.
      destruct (clone tool (mkJujutsu modulePath) url
                  (mkWorld f0 (trace w) (logs w))) as [[[e|]|c] w1];
        exact Ht.
    + intros tool' Ha. unfold createJujutsuModule, bind, MkdirAll.
      rewrite Hm.
      now rewrite (clone_agree tool tool' (mkJujutsu modulePath) url
                     (mkWorld f0 (trace w) (logs w)) Ha).
Qed.

Lemma createJujutsuModule_runs_clone_only_witness :
  fst (Os.MkdirAll "/ws/DEPS/lib" fresh_fs) = None /\
  DirExists (snd (Os.MkdirAll "/ws/DEPS/lib" fresh_fs)) "/ws/DEPS/lib"
    = true /\
  trace (snd (createJujutsuModule jj_fake "/ws/DEPS/lib"
                "https://example.org/team/gone.git" (world_of fresh_fs))) =
    [mkCmd "jj" ["git"; "clone"; "https://example.org/team/gone.git";
                 "/ws/DEPS/lib"] "/ws/DEPS/lib"].
Proof.
  split; [reflexivity|].
  destruct (proj2 (createJujutsuModule_runs_clone_only jj_fake
                     "/ws/DEPS/lib" "https://example.org/team/gone.git"
                     (world_of fresh_fs))
              (snd (Os.MkdirAll "/ws/DEPS/lib" fresh_fs)) eq_refl)
    as (Hd & Ht & _).
  split; [exact Hd|exact Ht].
Defined.

(** ** What the root searches return *)

Lemma getModuleRoot_found (fuel : nat) (f : FS) (p q : string) :
  getModuleRoot fuel f p = Some (Ok q) -> is_module_root f q = true.
Proof.
  revert p. induction fuel as [|n IH]; intros p; [discriminate|].
  rewrite getModuleRoot_S.
  destruct (is_module_root f p) eqn:E; [now intros [= <-]|].
  destruct (String.eqb p "/"); [discriminate|]. apply IH.
Qed.

(** X7.  What the module-root search returns is a fixed point of the
    search: whenever [GetModuleRootForPath], started anywhere, returns a
    directory, that directory satisfies the stopping condition, the state
    is left as it was, and the search started in that directory returns it
    at once. *)
Theorem module_root_is_fixed_point (fuel : nat) (p q : string)
  (w w' : World) :
  GetModuleRootForPath fuel p w = Some (Ret q, w') ->
  w' = w /\
  is_module_root (fs w) q = true /\
  forall n, GetModuleRootForPath (S n) q w = Some (Ret q, w).
Proof.
  unfold GetModuleRootForPath at 1.
  destruct (getModuleRoot fuel (fs w) p) as [[r|e]|] eqn:E;
    [|discriminate|discriminate].
  intros [= <- <-]. apply getModuleRoot_found in E.
  repeat split; [exact E|].
  intros n. unfold GetModuleRootForPath. rewrite getModuleRoot_S, E.
  reflexivity.
Qed.

Lemma module_root_is_fixed_point_witness :
  GetModuleRootForPath 20 "/ws/DEPS/lib/src" (world_of dep_fs)
    = Some (Ret "/ws/DEPS/lib", world_of dep_fs) /\
  GetModuleRootForPath 1 "/ws/DEPS/lib" (world_of dep_fs)
    = Some (Ret "/ws/DEPS/lib", world_of dep_fs).
Proof.
  split; [reflexivity|].
  exact (proj2 (proj2 (module_root_is_fixed_point 20 "/ws/DEPS/lib/src"
                         "/ws/DEPS/lib" (world_of dep_fs) (world_of dep_fs)
                         eq_refl)) 0).
Defined.

Lemma Split_no_slash (p : string) :
  Forall (fun e => Path.has_slash e = false) (Strings.Split p Path.slash).
Proof.
  induction p as [|a p IH]; simpl; [repeat constructor|].
  destruct (Ascii.eqb a Path.slash) eqn:E; [now constructor|].
  destruct (Strings.Split p Path.slash) as [|h t].
  - repeat constructor. simpl. now rewrite E.
  - inversion IH as [|? ? Hh Ht]. subst. constructor; [|assumption].
    simpl. now rewrite E, Hh.
Qed.

Lemma clean_step_written (r : bool) (out : list string) (e : string) :
  Path.has_slash e = false -> Forall written out ->
  Forall written (Path.clean_step r out e).
Proof.
  intros He Ho. unfold Path.clean_step.
  destruct (String.eqb_spec e ""); [assumption|].
  destruct (String.eqb e "."); [assumption|].
  assert (Hw : written e) by now split.
  destruct (String.eqb e "..").
  - destruct out as [|top below].
    + destruct r; [constructor|now repeat constructor].
    + inversion Ho; subst.
      destruct (String.eqb top ".."); [destruct r|]; try assumption.
      now constructor.
  - now constructor.
Qed.

Lemma clean_fold_written (r : bool) (l out : list string) :
  Forall (fun e => Path.has_slash e = false) l -> Forall written out ->
  Forall written (fold_left (Path.clean_step r) l out).
Proof.
  revert out. induction l as [|e l IH]; intros out Hl Ho; [assumption|].
  inversion Hl; subst. simpl. apply IH; [assumption|].
  now apply clean_step_written.
Qed.

Lemma concat_not_rooted (e : string) (l : list string) :
  written e -> Path.rooted (String.concat "/" (e :: l)) = false.
Proof.
  intros [Hne Hs]. destruct e as [|a e]; [congruence|].
  simpl in Hs. apply orb_false_iff in Hs as [Ha _].
  destruct l; simpl; exact Ha.
Qed.

Lemma Clean_relative (p : string) :
  Path.rooted p = false -> Path.rooted (Path.Clean p) = false.
Proof.
  intros Hr. unfold Path.Clean. destruct (String.eqb p ""); [reflexivity|].
  rewrite Hr.
  pose proof (clean_fold_written false (Strings.Split p Path.slash) []
                (Split_no_slash p) (Forall_nil _)) as Hw.
  apply Forall_rev in Hw.
  destruct (List.rev (fold_left (Path.clean_step false)
                        (Strings.Split p Path.slash) [])) as [|e l];
    [reflexivity|].
  inversion Hw; subst. now apply concat_not_rooted.
Qed.

Lemma Dir_relative (p : string) :
  Path.rooted p = false -> Path.rooted (Path.Dir p) = false.
Proof.
  intros Hr. unfold Path.Dir. apply Clean_relative.
  destruct p as [|a p]; [reflexivity|]. simpl in *. rewrite Hr. simpl.
  destruct (Path.has_slash p); [exact Hr|reflexivity].
Qed.

(** X8.  The module-root search fails only at the file-system root: when
    [getModuleRoot] returns an error, the path it was given is absolute,
    the error is ["not inside a module"], and neither that path nor the
    root satisfies the stopping condition.  So on a relative path the
    search never reports a failure: it finds a root or does not return. *)
Theorem module_root_fails_only_at_root (fuel : nat) (f : FS)
  (p e : string) :
  getModuleRoot fuel f p = Some (Err e) ->
  Path.rooted p = true /\ e = "not inside a module" /\
  is_module_root f p = false /\ is_module_root f "/" = false.
Proof.
  revert p. induction fuel as [|n IH]; intros p; [discriminate|].
  rewrite getModuleRoot_S.
  destruct (is_module_root f p) eqn:E; [discriminate|].
  destruct (String.eqb_spec p "/") as [->|Hne].
  - intros [= <-]. repeat split; assumption.
  - intros H. destruct (IH _ H) as (Hr & He & _ & H0).
    repeat split; try assumption.
    destruct (Path.rooted p) eqn:Hp; [reflexivity|].
    apply Dir_relative in Hp. congruence.
Qed.

Lemma module_root_fails_only_at_root_witness :
  getModuleRoot 20 bare_fs "/home/user" = Some (Err "not inside a module") /\
  Path.rooted "/home/user" = true /\
  is_module_root bare_fs "/" = false.
Proof.
  split; [reflexivity|].
  destruct (module_root_fails_only_at_root 20 bare_fs "/home/user"
              "not inside a module" eq_refl) as (Hr & _ & _ & H0).
  split; [exact Hr|exact H0].
Defined.

Lemma workspace_loop_found (i k : nat) (p q : string) (w w' : World) :
  workspace_loop i k p w = Some (Ret q, w') ->
  w' = w /\ is_workspace_root (fs w) q = true.
Proof.
  revert p. induction k as [|k IH]; intros p; [discriminate|].
  rewrite workspace_loop_S.
  destruct (getModuleRoot i (fs w) p) as [[r|e]|] eqn:E;
    [|discriminate|discriminate].
  apply getModuleRoot_found in E.
  destruct (negb (String.eqb (Path.Base (Path.Dir r)) DepsDirName)) eqn:Ep.
  - intros [= <- <-]. split; [reflexivity|].
    unfold is_workspace_root. now rewrite E, Ep.
  - apply IH.
Qed.

(** X9.  [GetWorkspaceRoot] never returns a dependency: whenever it
    returns a directory, the state is left as it was, the parent of the
    directory is not named [DEPS], and the directory holds a [MODULE] file
    or a [.git] directory. *)
Theorem workspace_root_is_no_dependency (fuel : nat) (q : string)
  (w w' : World) :
  GetWorkspaceRoot fuel w = Some (Ret q, w') ->
  w' = w /\
  Path.Base (Path.Dir q) <> DepsDirName /\
  (FileExists (fs w) (Path.Join [q; ModuleFileName]) = true \/
   DirExists (fs w) (Path.Join [q; ".git"]) = true).
Proof.
  unfold GetWorkspaceRoot, GetWorkingDir.
  destruct (cwd (fs w)) as [d|]; [|discriminate].
  unfold ret. intros H. apply workspace_loop_found in H as [-> H].
  split; [reflexivity|].
  unfold is_workspace_root, is_module_root in H.
  apply andb_true_iff in H as [Hm Hp].
  apply negb_true_iff in Hp. rewrite Hp, orb_false_r in Hm.
  split; [now apply String.eqb_neq|].
  now apply orb_true_iff in Hm.
Qed.

Lemma workspace_root_is_no_dependency_witness :
  GetWorkspaceRoot 20 (world_of dep_fs) = Some (Ret "/ws", world_of dep_fs) /\
  Path.Base (Path.Dir "/ws") <> DepsDirName /\
  (FileExists dep_fs "/ws/MODULE" = true \/
   DirExists dep_fs "/ws/.git" = true).
Proof.
  split; [reflexivity|].
  exact (proj2 (workspace_root_is_no_dependency 20 "/ws" (world_of dep_fs)
                  (world_of dep_fs) eq_refl)).
Defined.

Lemma Split_nonempty (x : string) (c : ascii) : Strings.Split x c <> [].
Proof.
  pose proof (Split_weight x c) as W. intros E. rewrite E in W.
  discriminate W.
Qed.

Lemma Split_app (x y : string) (c : ascii) :
  Strings.Split (x ++ String c y) c =
    (Strings.Split x c ++ Strings.Split y c)%list.
Proof.
  induction x as [|a x IH]; simpl.
  - now rewrite Ascii.eqb_refl.
  - destruct (Ascii.eqb a c); [now rewrite IH|].
    rewrite IH. pose proof (Split_nonempty x c).
    destruct (Strings.Split x c); [congruence|reflexivity].
Qed.

Lemma dir_part_app (x c : string) :
  Path.has_slash c = false -> Path.dir_part (x ++ "/" ++ c) = x ++ "/".
Proof.
  intros Hc. induction x as [|a x IH]; simpl.
  - destruct c as [|b c]; [reflexivity|]. simpl in *.
    apply orb_false_iff in Hc as [-> ->]. reflexivity.
  - rewrite has_slash_app. simpl. rewrite !orb_true_r.
    f_equal. exact IH.
Qed.

Lemma concat_snoc (l : list string) (c : string) :
  String.concat "/" (l ++ [c]) =
    match l with
    | [] => c
    | _ => String.concat "/" l ++ "/" ++ c
    end.
Proof.
  induction l as [|e l IH]; [reflexivity|].
  destruct l as [|e' l]; [reflexivity|].
  change (String.concat "/" ((e :: e' :: l) ++ [c]))
    with (e ++ "/" ++ String.concat "/" ((e' :: l) ++ [c])).
  rewrite IH.
  change (String.concat "/" (e :: e' :: l))
    with (e ++ "/" ++ String.concat "/" (e' :: l)).
  now rewrite !app_assoc_s.
Qed.

Lemma Clean_ends_with (d c : string) :
  written c -> c <> "." -> c <> ".." ->
  Path.Base (Path.Clean (d ++ "/" ++ c ++ "/")) = c.
Proof.
  intros [Hne Hs] Hd Hdd. unfold Path.Clean.
  replace (String.eqb (d ++ "/" ++ c ++ "/") "") with false
    by (now destruct d).
  change (d ++ "/" ++ c ++ "/") with (d ++ String Path.slash (c ++ "/")).
  rewrite Split_app.
  change (c ++ "/") with (c ++ String Path.slash "").
  rewrite Split_app.
  assert (Hc : Strings.Split c Path.slash = [c]).
  { pose proof (Split_weight c Path.slash) as W.
    pose proof (Split_no_slash c) as N.
    clear Hne Hd Hdd. induction c as [|a c IH]; [reflexivity|].
    simpl in *. apply orb_false_iff in Hs as [Ha Hc]. rewrite Ha.
    rewrite IH; [reflexivity|assumption|apply Split_weight
                |apply Split_no_slash]. }
  rewrite Hc. change (Strings.Split "" Path.slash) with [""].
  rewrite !fold_left_app. simpl fold_left. rewrite clean_step_empty.
  set (st := fold_left _ (Strings.Split d Path.slash) []).
  assert (Hstep : forall r, Path.clean_step r st c = c :: st).
  { intros r. unfold Path.clean_step.
    destruct (String.eqb_spec c ""); [congruence|].
    destruct (String.eqb_spec c "."); [congruence|].
    destruct (String.eqb_spec c ".."); [congruence|reflexivity]. }
  rewrite !Hstep. simpl List.rev. rewrite concat_snoc.
  destruct (Path.rooted _).
  - destruct (List.rev st) as [|e l].
    + apply (Base_last_element "" c Hne Hs).
    + rewrite <- app_assoc_s.
      apply (Base_last_element _ c Hne Hs).
  - destruct (List.rev st) as [|e l] eqn:El; cbn [app].
    + unfold Path.Base.
      rewrite (strip_slashes_plain c Hs), (file_part_plain c Hs).
      destruct c; [congruence|reflexivity].
    + apply (Base_last_element _ c Hne Hs).
Qed.

(** X10.  Whatever lies directly below a directory named [DEPS] is taken
    for a module root without a look at the file system: for every
    directory [d], every name without a slash and every file system, the
    search started at [d/DEPS/name] returns that path at once, whether
    anything exists there or not. *)
Theorem below_DEPS_is_module_root (f : FS) (d name : string) (n : nat) :
  Path.has_slash name = false ->
  getModuleRoot (S n) f (d ++ "/DEPS/" ++ name) =
    Some (Ok (d ++ "/DEPS/" ++ name)).
Proof.
  intros Hn. rewrite getModuleRoot_S.
  assert (Hb : Path.Base (Path.Dir (d ++ "/DEPS/" ++ name)) = DepsDirName).
  { unfold Path.Dir.
    change (d ++ "/DEPS/" ++ name) with (d ++ "/DEPS" ++ "/" ++ name).
    rewrite <- (app_assoc_s d "/DEPS" ("/" ++ name)).
    rewrite (dir_part_app (d ++ "/DEPS") name Hn).
    rewrite (app_assoc_s d "/DEPS" "/").
    apply (Clean_ends_with d "DEPS"); [split; [discriminate|reflexivity]
                                      |discriminate|discriminate]. }
  unfold is_module_root. rewrite Hb. unfold DepsDirName. simpl String.eqb.
  now rewrite orb_true_r.
Qed.

Lemma below_DEPS_is_module_root_witness :
  Path.has_slash "ghost" = false /\
  Os.Stat bare_fs "/ws/DEPS/ghost" = None /\
  getModuleRoot 1 bare_fs "/ws/DEPS/ghost" = Some (Ok "/ws/DEPS/ghost").
Proof.
  split; [reflexivity|]. split; [reflexivity|].
  exact (below_DEPS_is_module_root bare_fs "/ws" "ghost" 0 eq_refl).
Defined.

(** ** Removing and creating directories *)



(** A removal that fails half-way: the content of the directory is gone,
    the directory is still there, and the process has ended. *)
Example RemoveDir_removes_what_it_can :
  (exists c, fst (RemoveDir "/ws/DEPS/lib" (world_of held_fs)) = Exit c) /\
  DirExists held_fs "/ws/DEPS/lib/.jj" = true /\
  FileExists held_fs "/ws/DEPS/lib/README" = true /\
  DirExists (fs (snd (RemoveDir "/ws/DEPS/lib" (world_of held_fs))))
    "/ws/DEPS/lib/.jj" = false /\
  FileExists (fs (snd (RemoveDir "/ws/DEPS/lib" (world_of held_fs))))
    "/ws/DEPS/lib/README" = false /\
  DirExists (fs (snd (RemoveDir "/ws/DEPS/lib" (world_of held_fs))))
    "/ws/DEPS/lib" = true.
Proof. split; [eexists; reflexivity|]. repeat split. Qed.

(** A name that ends with [.] is refused and nothing is removed. *)
Example RemoveDir_refuses_dot :
  (exists c, fst (RemoveDir "/ws/DEPS/lib/." (world_of lib_fs)) = Exit c) /\
  fs (snd (RemoveDir "/ws/DEPS/lib/." (world_of lib_fs))) = lib_fs.
Proof. split; [eexists; reflexivity|reflexivity]. Qed.



(** A regular file in the way: the creation fails and nothing is made. *)
Example MkdirAll_below_a_file :
  (exists e,
     fst (MkdirAll "/ws/BUILD/OUTPUT" (world_of blocked_fs)) =
       Exit (mkLog LFatal ("Failed to create directory '%s': %s." ++ LF)
               ["/ws/BUILD/OUTPUT"; e])) /\
  fs (snd (MkdirAll "/ws/BUILD/OUTPUT" (world_of blocked_fs))) = blocked_fs.
Proof. split; [eexists; reflexivity|reflexivity]. Qed.

(** The name is walked as written, and a creation that fails half-way
    keeps what it made: [/ws/out] is new although the call failed at the
    file [/ws/MODULE]. *)
Example MkdirAll_keeps_what_it_made :
  (exists c,
     fst (MkdirAll "/ws/out/../MODULE/gen" (world_of lib_fs)) = Exit c) /\
  DirExists lib_fs "/ws/out" = false /\
  DirExists (fs (snd (MkdirAll "/ws/out/../MODULE/gen" (world_of lib_fs))))
    "/ws/out" = true.
Proof. split; [eexists; reflexivity|]. split; reflexivity. Qed.

(** ** Cutting two prefixes *)

Lemma CutPrefix_cut (p r : string) : CutPrefix (p ++ r) p = Val (r, true).
Proof.
  unfold CutPrefix.
  replace (Strings.HasPrefix (p ++ r) p) with true
    by (symmetry; apply HasPrefix_iff; now exists r).
  now rewrite slice_from_app.
Qed.

(** X13.  Cutting the prefix [p1 ++ p2] is cutting [p1] and then [p2]:
    it succeeds exactly when both cuts succeed in turn, with the rest the
    second cut leaves; otherwise the string comes back whole, also when
    the first cut alone would have succeeded. *)
Theorem CutPrefix_app (str p1 p2 : string) :
  CutPrefix str (p1 ++ p2) =
    match CutPrefix str p1 with
    | Val (rest1, true) =>
        match CutPrefix rest1 p2 with
        | Val (rest2, true) => Val (rest2, true)
        | _ => Val (str, false)
        end
    | _ => Val (str, false)
    end.
Proof.
  destruct (Strings.HasPrefix str (p1 ++ p2)) eqn:E.
  - apply HasPrefix_iff in E as [r ->]. rewrite CutPrefix_cut.
    rewrite app_assoc_s. now rewrite !CutPrefix_cut.
  - assert (Hl : CutPrefix str (p1 ++ p2) = Val (str, false))
      by (unfold CutPrefix; now rewrite E).
    rewrite Hl.
    destruct (Strings.HasPrefix str p1) eqn:E1.
    + apply HasPrefix_iff in E1 as [r1 ->]. rewrite CutPrefix_cut.
      destruct (Strings.HasPrefix r1 p2) eqn:E2.
      * apply HasPrefix_iff in E2 as [r2 ->].
        assert (Ht : Strings.HasPrefix (p1 ++ p2 ++ r2) (p1 ++ p2) = true)
          by (apply HasPrefix_iff; exists r2; now rewrite app_assoc_s).
        congruence.
      * unfold CutPrefix at 1. now rewrite E2.
    + unfold CutPrefix at 1. now rewrite E1.
Qed.

(** ** Build targets *)

Lemma TrimLeft_slash_relative (s : string) :
  Path.rooted (StringsExt.TrimLeft s "/") = false.
Proof.
  induction s as [|a s IH]; [reflexivity|]. simpl.
  rewrite orb_false_r.
  destruct (Ascii.eqb a "/") eqn:E; [exact IH|exact E].
Qed.

Lemma TrimLeft_slash_id (s : string) :
  Path.rooted s = false -> StringsExt.TrimLeft s "/" = s.
Proof.
  destruct s as [|a s]; [reflexivity|]. simpl. rewrite orb_false_r.
  unfold Path.slash. now intros ->.
Qed.

Lemma GetModuleRootForPath_state (fuel : nat) (p : string)
  (w w' : World) (o : outcome string) :
  GetModuleRootForPath fuel p w = Some (o, w') -> w' = w.
Proof.
  unfold GetModuleRootForPath.
  destruct (getModuleRoot fuel (fs w) p) as [[r|e]|]; [| |discriminate].
  - now intros [= _ <-].
  - unfold log_Fatal. now intros [= _ <-].
Qed.

Lemma normalizeTarget_result (fuel : nat) (t r : string) (w w' : World) :
  normalizeTarget fuel t w = Some (Ret r, w') ->
  w' = w /\ Path.rooted r = false.
Proof.
  intros H. unfold normalizeTarget in H.
  destruct (Strings.HasPrefix t "//").
  - injection H as <- <-. split; [reflexivity|].
    apply TrimLeft_slash_relative.
  - unfold GetWorkingDir in H.
    destruct (cwd (fs w)) as [d|]; [|discriminate]. unfold ret in H.
    destruct (GetModuleRootForPath fuel (Path.Join [d; t]) w)
      as [[[q|c] w2]|] eqn:E; try discriminate.
    apply GetModuleRootForPath_state in E. subst w2.
    injection H as <- <-. split; [reflexivity|].
    apply TrimLeft_slash_relative.
Qed.

(** X14.  A normalized target is relative to the workspace: whenever
    [normalizeTarget] returns, the result does not start with a slash and
    the state is left as it was; and the result written with a leading
    [//] normalizes to itself, in any state and without a look at the
    working directory or the file system. *)
Theorem normalizeTarget_relative (fuel : nat) (t r : string)
  (w w' : World) :
  normalizeTarget fuel t w = Some (Ret r, w') ->
  w' = w /\ Path.rooted r = false /\
  forall fuel0 w0, normalizeTarget fuel0 ("//" ++ r) w0 = Some (Ret r, w0).
Proof.
  intros H. destruct (normalizeTarget_result _ _ _ _ _ H) as [Hw Hr].
  split; [exact Hw|]. split; [exact Hr|].
  intros fuel0 w0. unfold normalizeTarget.
  change (Strings.HasPrefix ("//" ++ r) "//") with true. cbv iota.
  change (StringsExt.TrimLeft ("//" ++ r) "/")
    with (StringsExt.TrimLeft r "/").
  now rewrite TrimLeft_slash_id.
Qed.

Lemma normalizeTarget_relative_witness :
  normalizeTarget 20 "lib.a" (world_of dep_fs)
    = Some (Ret "lib/src/lib.a", world_of dep_fs) /\
  normalizeTarget 0 "//lib/src/lib.a" (world_of bare_fs)
    = Some (Ret "lib/src/lib.a", world_of bare_fs).
Proof.
  split; [reflexivity|].
  exact (proj2 (proj2 (normalizeTarget_relative 20 "lib.a" "lib/src/lib.a"
                         (world_of dep_fs) (world_of dep_fs) eq_refl))
           0 (world_of bare_fs)).
Defined.

Lemma parseArgs_loop_spec (fuel : nat) (args targets flags T F : list string)
  (w w' : World) :
  parseArgs_loop fuel targets flags args w = Some (Ret (T, F), w') ->
  w' = w /\
  F = (flags ++ filter is_flag args)%list /\
  exists ts,
    T = (targets ++ ts)%list /\
    Forall2 (fun arg t => normalizeTarget fuel arg w = Some (Ret t, w))
      (filter (fun a => negb (is_flag a)) args) ts.
Proof.
  revert targets flags. induction args as [|arg args IH];
    intros targets flags; cbn [parseArgs_loop filter].
  - intros [= <- <- <-]. split; [reflexivity|].
    split; [now rewrite app_nil_r|]. exists []. split;
      [now rewrite app_nil_r|constructor].
  - change (StringsExt.Contains arg "=") with (is_flag arg).
    destruct (is_flag arg) eqn:E; cbn [negb].
    + intros H. destruct (IH _ _ H) as (Hw & HF & ts & HT & H2).
      split; [exact Hw|]. split; [now rewrite HF, <- app_assoc|].
      now exists ts.
    + destruct (normalizeTarget fuel arg w) as [[[t|c] w1]|] eqn:En;
        try discriminate.
      destruct (normalizeTarget_result _ _ _ _ _ En) as (-> & _).
      intros H. destruct (IH _ _ H) as (Hw & HF & ts & HT & H2).
      split; [exact Hw|]. split; [exact HF|].
      exists (t :: ts). split; [now rewrite HT, <- app_assoc|].
      simpl. now constructor.
Qed.

(** X15.  [parseArgs] splits the arguments without losing or reordering
    any: whenever it returns, the state is left as it was, the flags are
    the arguments that contain [=], unchanged and in their order, and the
    targets are the normalized forms of the other arguments, in their
    order, none of them starting with a slash. *)
Theorem parseArgs_partition (fuel : nat) (args targets flags : list string)
  (w w' : World) :
  parseArgs fuel args w = Some (Ret (targets, flags), w') ->
  w' = w /\
  flags = filter is_flag args /\
  Forall2 (fun arg t => normalizeTarget fuel arg w = Some (Ret t, w))
    (filter (fun a => negb (is_flag a)) args) targets /\
  Forall (fun t => Path.rooted t = false) targets /\
  List.length targets + List.length flags = List.length args.
Proof.
  intros H. apply parseArgs_loop_spec in H as (Hw & HF & ts & HT & H2).
  simpl in HF, HT. subst. split; [reflexivity|]. split; [reflexivity|].
  split; [exact H2|]. split.
  - clear - H2. induction H2 as [|a t l l' Hn _ IH]; constructor;
      [|exact IH].
    now destruct (normalizeTarget_result _ _ _ _ _ Hn).
  - rewrite <- (Forall2_length H2). clear.
    induction args as [|a args IH]; [reflexivity|]. simpl.
    destruct (is_flag a); simpl; lia.
Qed.

Lemma parseArgs_partition_witness :
  parseArgs 20 ["lib.a"; "mode=debug"; "//app/main"; "cc=clang"]
    (world_of dep_fs)
    = Some (Ret (["lib/src/lib.a"; "app/main"], ["mode=debug"; "cc=clang"]),
            world_of dep_fs) /\
  ["mode=debug"; "cc=clang"] =
    filter is_flag ["lib.a"; "mode=debug"; "//app/main"; "cc=clang"].
Proof.
  split; [reflexivity|].
  exact (proj1 (proj2 (parseArgs_partition 20
                         ["lib.a"; "mode=debug"; "//app/main"; "cc=clang"]
                         ["lib/src/lib.a"; "app/main"]
                         ["mode=debug"; "cc=clang"]
                         (world_of dep_fs) (world_of dep_fs) eq_refl))).
Defined.

(** ** Expanding build targets *)

Lemma set_insert_In (x y : string) (s : list string) :
  In x (set_insert y s) <-> x = y \/ In x s.
Proof.
  unfold set_insert. destruct (existsb (String.eqb y) s) eqn:E.
  - split; [now right|]. intros [->|H]; [|exact H].
    apply existsb_exists in E as (z & Hz & Hyz).
    apply String.eqb_eq in Hyz. now subst.
  - rewrite in_app_iff. simpl. split.
    + intros [H|[->|[]]]; [now right|now left].
    + intros [->|H]; [right; now left|now left].
Qed.

Lemma set_insert_NoDup (y : string) (s : list string) :
  NoDup s -> NoDup (set_insert y s).
Proof.
  intros Hs. unfold set_insert.
  destruct (existsb (String.eqb y) s) eqn:E; [exact Hs|].
  assert (Hy : ~ In y s).
  { intros Hin.
    assert (Ht : existsb (String.eqb y) s = true)
      by (apply existsb_exists; exists y; split;
          [exact Hin|apply String.eqb_refl]).
    congruence. }
  clear E. induction Hs as [|a s Ha Hs IH]; simpl.
  - constructor; [intros []|constructor].
  - constructor.
    + rewrite in_app_iff. simpl. intros [H|[H|[]]]; [now apply Ha|].
      apply Hy. now left.
    + apply IH. intros H. apply Hy. now right.
Qed.

Lemma lookup_target_In (available : TargetMap) (name : string) :
  (exists t, lookup_target available name = Some t) <->
  In name (map fst available).
Proof.
  unfold lookup_target. induction available as [|[k v] av IH]; simpl.
  - split; [intros [t H]; discriminate|intros []].
  - destruct (String.eqb_spec k name) as [->|Hne].
    + split; [now left|]. intros _. now exists v.
    + rewrite IH. split; [now right|]. intros [H|H]; [congruence|exact H].
Qed.

Lemma expand_pattern_spec (pre : string) (available : TargetMap)
  (found found' : bool) (ex ex' : list string) :
  expand_pattern pre available found ex = (found', ex') ->
  (found' = true <->
   found = true \/
   exists x, In x (map fst available) /\ Strings.HasPrefix x pre = true) /\
  (forall x, In x ex' <->
     In x ex \/ (In x (map fst available) /\
                 Strings.HasPrefix x pre = true)) /\
  (NoDup ex -> NoDup ex').
Proof.
  revert found ex. induction available as [|[k v] av IH]; intros found ex;
    simpl.
  - intros [= <- <-]. split; [|split].
    + split; [now left|]. intros [H|(x & [] & _)]. exact H.
    + intros x. split; [now left|]. intros [H|([] & _)]. exact H.
    + trivial.
  - destruct (Strings.HasPrefix k pre) eqn:E; intros H;
      destruct (IH _ _ H) as (Hf & Hx & Hn); split; [|split| |split].
    + rewrite Hf. split; [|now left]. intros _. right. exists k.
      split; [now left|exact E].
    + intros x. rewrite Hx, set_insert_In. split.
      * intros [[->|Hi]|(Hi & Hp)];
          [right; split; [now left|exact E]|now left
          |right; split; [now right|exact Hp]].
      * intros [Hi|([<-|Hi] & Hp)];
          [left; now right|left; now left|right; now split].
    + intros Hd. apply Hn. now apply set_insert_NoDup.
    + rewrite Hf. split.
      * intros [Ht|(x & Hi & Hp)]; [now left|].
        right. exists x. split; [now right|exact Hp].
      * intros [Ht|(x & [<-|Hi] & Hp)]; [now left|congruence|].
        right. now exists x.
    + intros x. rewrite Hx. split.
      * intros [Hi|(Hi & Hp)]; [now left|]. right. split;
          [now right|exact Hp].
      * intros [Hi|([<-|Hi] & Hp)]; [now left|congruence|].
        right. now split.
    + exact Hn.
Qed.

Lemma expand_targets_spec (available : TargetMap) (targets ex0 ex : list string)
  (w w' : World) :
  expand_targets available targets ex0 w = (Ret ex, w') ->
  w' = w /\ (NoDup ex0 -> NoDup ex) /\
  (forall t, In t targets ->
     exists x, In x (map fst available) /\ selects t x = true) /\
  forall x, In x ex <->
    In x ex0 \/
    (In x (map fst available) /\
     exists t, In t targets /\ selects t x = true).
Proof.
  revert ex0. induction targets as [|t targets IH]; intros ex0;
    cbn [expand_targets].
  - unfold ret. intros [= <- <-]. split; [reflexivity|].
    split; [trivial|]. split; [intros t []|].
    intros x. split; [now left|]. intros [H|(_ & t & [] & _)]. exact H.
  - destruct (Strings.HasSuffix t "...") eqn:Es; cbn [negb].
    + destruct (expand_pattern (Strings.TrimSuffix t "...") available false
                  ex0) as [found ex1] eqn:Ep.
      destruct (expand_pattern_spec _ _ _ _ _ _ Ep) as (Hf & Hx & Hn).
      destruct found; cbn [negb]; [|discriminate].
      intros H. destruct (IH _ H) as (Hw & Hd & Ha & Hi).
      split; [exact Hw|]. split; [intros N; apply Hd, Hn, N|]. split.
      * intros t' [<-|Ht']; [|now apply Ha].
        destruct (proj1 Hf eq_refl) as [Hc|(x & Hin & Hp)];
          [discriminate|].
        exists x. split; [exact Hin|]. unfold selects. now rewrite Es.
      * intros x. rewrite Hi, Hx. split.
        -- intros [[H0|(Hin & Hp)]|(Hin & t' & Ht' & Hs)].
           ++ now left.
           ++ right. split; [exact Hin|]. exists t. split; [now left|].
              unfold selects. now rewrite Es.
           ++ right. split; [exact Hin|]. exists t'. split;
                [now right|exact Hs].
        -- intros [H0|(Hin & t' & [<-|Ht'] & Hs)].
           ++ left. now left.
           ++ left. right. split; [exact Hin|].
              unfold selects in Hs. now rewrite Es in Hs.
           ++ right. split; [exact Hin|]. now exists t'.
    + destruct (lookup_target available t) as [v|] eqn:El; [|discriminate].
      assert (Hk : In t (map fst available))
        by (apply lookup_target_In; now exists v).
      assert (Hst : selects t t = true)
        by (unfold selects; rewrite Es; apply String.eqb_refl).
      intros H. destruct (IH _ H) as (Hw & Hd & Ha & Hi).
      split; [exact Hw|].
      split; [intros N; apply Hd, set_insert_NoDup, N|]. split.
      * intros t' [<-|Ht']; [now exists t|now apply Ha].
      * intros x. rewrite Hi, set_insert_In. split.
        -- intros [[->|H0]|(Hin & t' & Ht' & Hs)].
           ++ right. split; [exact Hk|]. exists t. split; [now left|exact Hst].
           ++ now left.
           ++ right. split; [exact Hin|]. exists t'. split;
                [now right|exact Hs].
        -- intros [H0|(Hin & t' & [<-|Ht'] & Hs)].
           ++ left. now right.
           ++ left. left. unfold selects in Hs. rewrite Es in Hs.
              now apply String.eqb_eq in Hs.
           ++ right. split; [exact Hin|]. now exists t'.
Qed.

(** X16.  The targets handed to ninja are available targets, and exactly
    the selected ones: whenever the expansion of the requested targets
    returns, the state is left as it was, no name occurs twice in the
    expanded set, and a name is in the set exactly when it is the name of
    an available target and some requested target selects it (it is that
    target, or starts with what precedes the dots of a target that ends
    with [...]). *)
Theorem expand_targets_exact (available : TargetMap)
  (targets ex : list string) (w w' : World) :
  expand_targets available targets [] w = (Ret ex, w') ->
  w' = w /\ NoDup ex /\
  forall x, In x ex <->
    In x (map fst available) /\
    exists t, In t targets /\ selects t x = true.
Proof.
  intros H. destruct (expand_targets_spec _ _ _ _ _ _ H)
    as (Hw & Hd & _ & Hi).
  split; [exact Hw|]. split; [apply Hd; constructor|].
  intros x. rewrite Hi. split; [intros [[]|Hx]; exact Hx|now right].
Qed.

Lemma expand_targets_exact_witness :
  expand_targets some_targets ["lib/..."; "app/main"; "lib/core.a"] []
    (world_of lib_fs)
    = (Ret ["lib/core.a"; "lib/util.a"; "app/main"], world_of lib_fs) /\
  NoDup ["lib/core.a"; "lib/util.a"; "app/main"].
Proof.
  split; [reflexivity|].
  exact (proj1 (proj2 (expand_targets_exact some_targets
                         ["lib/..."; "app/main"; "lib/core.a"]
                         ["lib/core.a"; "lib/util.a"; "app/main"]
                         (world_of lib_fs) (world_of lib_fs) eq_refl))).
Defined.

Lemma expand_targets_exit (available : TargetMap)
  (targets ex0 : list string) (w w' : World) (c : LogCall) :
  expand_targets available targets ex0 w = (Exit c, w') ->
  w' = w /\ lvl c = LFatal /\
  exists t, In t targets /\ fargs c = [t] /\
            forall x, In x (map fst available) -> selects t x = false.
Proof.
  revert ex0. induction targets as [|t targets IH]; intros ex0;
    cbn [expand_targets]; [discriminate|].
  destruct (Strings.HasSuffix t "...") eqn:Es; cbn [negb].
  - destruct (expand_pattern (Strings.TrimSuffix t "...") available false
                ex0) as [found ex1] eqn:Ep.
    destruct (expand_pattern_spec _ _ _ _ _ _ Ep) as (Hf & _ & _).
    destruct found; cbn [negb].
    + intros H. destruct (IH _ H) as (Hw & Hl & t' & Ht' & Ha & Hb).
      split; [exact Hw|]. split; [exact Hl|]. exists t'.
      split; [now right|]. now split.
    + intros [= <- <-]. split; [reflexivity|]. split; [reflexivity|].
      exists t. split; [now left|]. split; [reflexivity|].
      intros x Hx. unfold selects. rewrite Es.
      destruct (Strings.HasPrefix x (Strings.TrimSuffix t "...")) eqn:Ex;
        [|reflexivity].
      assert (Ht : false = true) by (apply Hf; right; now exists x).
      discriminate Ht.
  - destruct (lookup_target available t) as [v|] eqn:El.
    + intros H. destruct (IH _ H) as (Hw & Hl & t' & Ht' & Ha & Hb).
      split; [exact Hw|]. split; [exact Hl|]. exists t'.
      split; [now right|]. now split.
    + intros [= <- <-]. split; [reflexivity|]. split; [reflexivity|].
      exists t. split; [now left|]. split; [reflexivity|].
      intros x Hx. unfold selects. rewrite Es.
      destruct (String.eqb_spec x t) as [->|]; [|reflexivity].
      apply lookup_target_In in Hx as [v Hv]. congruence.
Qed.

(** X17.  The build stops at a requested target that selects nothing:
    the expansion ends the process exactly when some requested target is
    not the name of an available target and, if it ends with [...], no
    available target starts with what precedes the dots; the fatal call
    then names such a target, and the state is left as it was. *)
Theorem expand_targets_stops (available : TargetMap)
  (targets : list string) (w : World) :
  (forall c w',
     expand_targets available targets [] w = (Exit c, w') ->
     w' = w /\ lvl c = LFatal /\
     exists t, In t targets /\ fargs c = [t] /\
               forall x, In x (map fst available) -> selects t x = false) /\
  ((exists t, In t targets /\
              forall x, In x (map fst available) -> selects t x = false) ->
   exists c, expand_targets available targets [] w = (Exit c, w)).
Proof.
  split; [intros c w'; apply expand_targets_exit|].
  intros (t & Ht & Hb).
  destruct (expand_targets available targets [] w) as [[ex|c] w'] eqn:E.
  - destruct (expand_targets_spec _ _ _ _ _ _ E) as (_ & _ & Ha & _).
    destruct (Ha t Ht) as (x & Hx & Hs). rewrite (Hb x Hx) in Hs.
    discriminate Hs.
  - destruct (expand_targets_exit _ _ _ _ _ _ E) as (-> & _).
    now exists c.
Qed.

Lemma expand_targets_stops_witness :
  In "doc/..." ["lib/..."; "doc/..."] /\
  (forall x, In x (map fst some_targets) -> selects "doc/..." x = false) /\
  exists c,
    expand_targets some_targets ["lib/..."; "doc/..."] [] (world_of lib_fs)
      = (Exit c, world_of lib_fs).
Proof.
  assert (Hb : forall x, In x (map fst some_targets) ->
                         selects "doc/..." x = false).
  { intros x [<-|[<-|[<-|[<-|[]]]]]; reflexivity. }
  split; [right; now left|]. split; [exact Hb|].
  apply (proj2 (expand_targets_stops some_targets ["lib/..."; "doc/..."]
                  (world_of lib_fs))).
  exists "doc/...". split; [right; now left|exact Hb].
Defined.

(** ** The go.mod files of the generator *)

Example createModFileContent_example :
  createModFileContent "root" [("lib", "/ws/DEPS/lib")] "." =
    "module root" ++ LF ++ LF ++ "go 1.16" ++ LF ++ LF
    ++ "require lib v0.0.0" ++ LF ++ "replace lib => ./lib" ++ LF ++ LF.
Proof. reflexivity. Qed.

Lemma createModFileContent_fold (pathPrefix : string)
  (modules : list (string * string)) (acc : string) :
  fold_left (fun text e => text ++ mod_lines pathPrefix (fst e)) modules acc =
    acc ++ String.concat ""
             (map (fun e => mod_lines pathPrefix (fst e)) modules).
Proof.
  revert acc. induction modules as [|e modules IH]; intros acc; simpl.
  - now rewrite app_empty_r.
  - rewrite IH, app_assoc_s. f_equal.
    destruct modules; simpl; [now rewrite app_empty_r|reflexivity].
Qed.

Lemma contains_concat (l : list string) (x : string) :
  In x l -> contains (String.concat "" l) x.
Proof.
  induction l as [|y l IH]; [intros []|]. intros [->|H].
  - destruct l; [exists "", ""; simpl; now rewrite app_empty_r|].
    exists "", (String.concat "" (s :: l)). reflexivity.
  - destruct l as [|z l]; [destruct H|].
    change (String.concat "" (y :: z :: l))
      with (y ++ String.concat "" (z :: l)).
    apply contains_skip. now apply IH.
Qed.

Lemma contains_prefix (a b x : string) : contains a x -> contains (a ++ b) x.
Proof.
  intros (pre & post & ->). exists pre, (post ++ b).
  now rewrite !app_assoc_s.
Qed.

(** X18.  The go.mod text leaves no module of the workspace out: it
    starts with the [module] line of the module it is written for and the
    [go 1.16] line, and for every module of the map, in whatever order the
    map is visited and the module itself included, it holds the line that
    requires the module at version [v0.0.0] and the line that replaces it
    by the directory of that name under the path prefix. *)
Theorem createModFileContent_lists_every_module (moduleName : string)
  (modules : list (string * string)) (pathPrefix : string) :
  (exists rest,
     createModFileContent moduleName modules pathPrefix =
       "module " ++ moduleName ++ LF ++ LF ++ "go 1.16" ++ LF ++ LF ++ rest) /\
  forall modName,
    In modName (map fst modules) ->
    contains (createModFileContent moduleName modules pathPrefix)
      ("require " ++ modName ++ " v0.0.0" ++ LF) /\
    contains (createModFileContent moduleName modules pathPrefix)
      ("replace " ++ modName ++ " => " ++ pathPrefix ++ "/" ++ modName ++ LF).
Proof.
  unfold createModFileContent. rewrite createModFileContent_fold.
  split.
  - eexists.
    change (Sprintf ("module %s" ++ LF ++ LF) [moduleName])
      with ("module " ++ moduleName ++ LF ++ LF).
    change (itoa goMajorVersion) with "1".
    change (itoa goMinorVersion) with "16".
    rewrite !app_assoc_s. reflexivity.
  - intros modName Hin.
    assert (Hl : contains
                   (String.concat ""
                      (map (fun e => mod_lines pathPrefix (fst e)) modules))
                   (mod_lines pathPrefix modName)).
    { apply contains_concat. apply in_map_iff in Hin as (e & <- & He).
      apply in_map_iff. now exists e. }
    destruct Hl as (pre & post & Hl). rewrite Hl.
    change (mod_lines pathPrefix modName)
      with (("require " ++ modName ++ " v0.0.0" ++ LF)
            ++ ("replace " ++ modName ++ " => " ++ pathPrefix ++ "/"
                ++ modName ++ LF ++ LF)).
    split.
    + apply contains_skip, contains_skip. rewrite app_assoc_s.
      exists "". eexists. reflexivity.
    + apply contains_skip, contains_skip. rewrite app_assoc_s.
      apply contains_skip. exists "", (LF ++ post).
      rewrite !app_assoc_s. reflexivity.
Qed.

Lemma createModFileContent_lists_every_module_witness :
  In "lib" (map fst [("app", "/ws"); ("lib", "/ws/DEPS/lib")]) /\
  contains
    (createModFileContent "lib" [("app", "/ws"); ("lib", "/ws/DEPS/lib")]
       "..")
    ("replace lib => ../lib" ++ LF).
Proof.
  split; [right; now left|].
  exact (proj2 (proj2 (createModFileContent_lists_every_module "lib"
                         [("app", "/ws"); ("lib", "/ws/DEPS/lib")] "..")
                  "lib" (or_intror (or_introl eq_refl)))).
Defined.

(** ** Clean absolute paths *)

Lemma Split_element (e : string) :
  Path.has_slash e = false -> Strings.Split e Path.slash = [e].
Proof.
  induction e as [|a e IH]; [reflexivity|]. simpl. intros H.
  apply orb_false_iff in H as [Ha He]. rewrite Ha. now rewrite IH.
Qed.

Lemma real_slashfree (l : list string) :
  Forall real l -> Forall (fun e => Path.has_slash e = false) l.
Proof. apply Forall_impl. now intros e (_ & H & _). Qed.

Lemma Split_concat_slash (l : list string) :
  Forall real l -> l <> [] ->
  Strings.Split (String.concat "/" l) Path.slash = l.
Proof.
  intros Hl. induction Hl as [|e l He Hl IH]; [congruence|]. intros _.
  destruct He as (_ & Hs & _). destruct l as [|e' l].
  - simpl. now apply Split_element.
  - change (String.concat "/" (e :: e' :: l))
      with (e ++ String Path.slash (String.concat "/" (e' :: l))).
    rewrite Split_app, (Split_element e Hs), IH by discriminate.
    reflexivity.
Qed.

Lemma filter_real (l : list string) :
  Forall real l -> filter nonempty l = l.
Proof.
  induction 1 as [|e l He _ IH]; [reflexivity|]. simpl. rewrite IH.
  destruct He as (Hne & _). unfold nonempty.
  destruct (String.eqb_spec e ""); [congruence|reflexivity].
Qed.

Lemma tidy_empty : tidy "" /\ elements "" = [].
Proof. split; [repeat constructor; now left|reflexivity]. Qed.

Lemma tidy_concat (l : list string) :
  Forall real l ->
  tidy (String.concat "/" l) /\ elements (String.concat "/" l) = l.
Proof.
  intros Hl. destruct l as [|e l]; [exact tidy_empty|].
  unfold tidy, elements. rewrite Split_concat_slash by (assumption || discriminate).
  split; [|now apply filter_real].
  eapply Forall_impl; [|exact Hl]. intros x Hx. now right.
Qed.

Lemma tidy_app (x y : string) :
  tidy x -> tidy y ->
  tidy (x ++ "/" ++ y) /\
  elements (x ++ "/" ++ y) = (elements x ++ elements y)%list.
Proof.
  intros Hx Hy. unfold tidy, elements.
  change (x ++ "/" ++ y) with (x ++ String Path.slash y).
  rewrite Split_app. split; [now apply Forall_app|apply filter_app].
Qed.

Lemma tidy_abs (l : list string) :
  Forall real l -> tidy (abs_of l) /\ elements (abs_of l) = l.
Proof.
  intros Hl. destruct (tidy_concat l Hl) as [Ht He].
  destruct (tidy_app "" (String.concat "/" l) (proj1 tidy_empty) Ht)
    as [Ht' He'].
  split; [exact Ht'|]. unfold abs_of.
  change ("/" ++ String.concat "/" l)
    with ("" ++ "/" ++ String.concat "/" l).
  now rewrite He', He.
Qed.

Lemma fold_clean_tidy (r : bool) (l st : list string) :
  Forall (fun e => e = "" \/ real e) l ->
  fold_left (Path.clean_step r) l st =
    (List.rev (filter nonempty l) ++ st)%list.
Proof.
  intros Hl. revert st. induction Hl as [|e l He _ IH]; intros st;
    [reflexivity|].
  simpl. rewrite IH. destruct He as [->|(Hne & Hs & Hd & Hdd)].
  - reflexivity.
  - unfold nonempty at 2, Path.clean_step.
    destruct (String.eqb_spec e ""); [congruence|].
    destruct (String.eqb_spec e "."); [congruence|].
    destruct (String.eqb_spec e ".."); [congruence|].
    simpl. now rewrite <- app_assoc.
Qed.

(** [Clean] on a tidy absolute path: the path of its elements. *)
Lemma Clean_tidy (p : string) :
  Path.rooted p = true -> tidy p -> Path.Clean p = abs_of (elements p).
Proof.
  intros Hr Ht. unfold Path.Clean.
  destruct p as [|a p]; [discriminate|]. simpl String.eqb. cbv iota.
  rewrite Hr, (fold_clean_tidy _ _ _ Ht), app_nil_r, List.rev_involutive.
  reflexivity.
Qed.

Lemma clean_step_real (out : list string) (e : string) :
  Path.has_slash e = false -> Forall real out ->
  Forall real (Path.clean_step true out e).
Proof.
  intros He Ho. unfold Path.clean_step.
  destruct (String.eqb_spec e ""); [assumption|].
  destruct (String.eqb_spec e "."); [assumption|].
  destruct (String.eqb_spec e "..").
  - destruct out as [|top below]; [constructor|].
    inversion Ho; subst. now destruct (String.eqb top "..").
  - constructor; [|assumption]. now repeat split.
Qed.

(** [Clean] of an absolute path is the path of some kept elements. *)
Lemma Clean_absolute (p : string) :
  Path.rooted p = true ->
  exists l, Forall real l /\ Path.Clean p = abs_of l.
Proof.
  intros Hr. unfold Path.Clean.
  destruct p as [|a p]; [discriminate|]. simpl String.eqb. cbv iota.
  rewrite Hr.
  exists (List.rev (fold_left (Path.clean_step true)
                      (Strings.Split (String a p) Path.slash) [])).
  split; [|reflexivity]. apply Forall_rev.
  pose proof (Split_no_slash (String a p)) as Hs.
  generalize (Forall_nil real).
  generalize (@nil string) as out.
  induction Hs as [|e l He _ IH]; intros out Ho; [exact Ho|].
  simpl. apply IH. now apply clean_step_real.
Qed.

Lemma abs_snoc (l : list string) (c : string) :
  abs_of (l ++ [c]) =
    match l with
    | [] => ""
    | _ => abs_of l
    end ++ "/" ++ c.
Proof.
  unfold abs_of. rewrite concat_snoc. destruct l; [reflexivity|].
  now rewrite app_assoc_s.
Qed.

Lemma Dir_abs_snoc (l : list string) (c : string) :
  Forall real l -> real c -> Path.Dir (abs_of (l ++ [c])) = abs_of l.
Proof.
  intros Hl (_ & Hs & _). unfold Path.Dir.
  rewrite abs_snoc, (dir_part_app _ c Hs).
  destruct l as [|e l]; [reflexivity|].
  destruct (tidy_abs _ Hl) as [Ht He].
  destruct (tidy_app _ "" Ht (proj1 tidy_empty)) as [Ht2 He2].
  change (abs_of (e :: l) ++ "/") with (abs_of (e :: l) ++ "/" ++ "").
  rewrite Clean_tidy by (reflexivity || assumption).
  rewrite He2, He. simpl. now rewrite app_nil_r.
Qed.

Lemma abs_not_root (l : list string) (c : string) :
  real c -> String.eqb (abs_of (l ++ [c])) "/" = false.
Proof.
  intros (Hne & _). apply String.eqb_neq. intros E.
  apply (f_equal String.length) in E.
  rewrite abs_snoc, !length_app in E.
  change (String.length "/") with 1 in E.
  destruct c as [|a c]; [congruence|].
  change (String.length (String a c)) with (S (String.length c)) in E.
  lia.
Qed.

Lemma Forall_firstn {A : Type} (P : A -> Prop) (k : nat) (l : list A) :
  Forall P l -> Forall P (firstn k l).
Proof.
  intros H. revert k. induction H as [|x l Hx _ IH]; intros k.
  - now destruct k.
  - destruct k; simpl; [constructor|]. constructor; [exact Hx|apply IH].
Qed.

Lemma Forall_skipn {A : Type} (P : A -> Prop) (k : nat) (l : list A) :
  Forall P l -> Forall P (skipn k l).
Proof.
  intros H. revert k. induction H as [|x l Hx Hl IH]; intros k.
  - now destruct k.
  - destruct k; simpl; [now constructor|apply IH].
Qed.

(** On a clean absolute path the module root found is the path of some
    of its leading elements. *)
Lemma getModuleRoot_leading (f : FS) (l : list string) :
  Forall real l ->
  forall fuel R, getModuleRoot fuel f (abs_of l) = Some (Ok R) ->
  exists k, k <= List.length l /\ R = abs_of (firstn k l).
Proof.
  induction l as [|c l IH] using rev_ind; intros Hl fuel R.
  - destruct fuel as [|n]; [discriminate|]. rewrite getModuleRoot_S.
    change (abs_of []) with "/". simpl String.eqb.
    destruct (is_module_root f "/"); [|discriminate].
    intros [= <-]. now exists 0.
  - apply Forall_app in Hl as [Hl Hc]. inversion Hc as [|? ? Hrc _]. subst.
    destruct fuel as [|n]; [discriminate|]. rewrite getModuleRoot_S.
    destruct (is_module_root f (abs_of (l ++ [c]))).
    + intros [= <-]. exists (List.length (l ++ [c])).
      split; [lia|]. now rewrite firstn_all.
    + rewrite (abs_not_root l c Hrc), (Dir_abs_snoc l c Hl Hrc).
      intros H. destruct (IH Hl _ _ H) as (k & Hk & ->).
      exists k. rewrite List.length_app. simpl. split; [lia|].
      now rewrite firstn_app, (proj2 (Nat.sub_0_le k (List.length l)) Hk),
        app_nil_r.
Qed.

Lemma firstn_last (k : nat) (l : list string) :
  k < List.length l ->
  exists c, firstn (S k) l = (firstn k l ++ [c])%list /\ In c l.
Proof.
  revert k. induction l as [|x l IH]; intros k Hk; [simpl in Hk; lia|].
  destruct k as [|k].
  - exists x. split; [reflexivity|now left].
  - simpl in Hk. destruct (IH k ltac:(lia)) as (c & Hc & Hin).
    exists c. split; [|now right].
    change (firstn (S (S k)) (x :: l)) with (x :: firstn (S k) l).
    now rewrite Hc.
Qed.

Lemma Dir_abs_firstn (k : nat) (l : list string) :
  Forall real l -> k <= List.length l ->
  Path.Dir (abs_of (firstn k l)) = abs_of (firstn (k - 1) l).
Proof.
  intros Hl Hk. destruct k as [|k]; [reflexivity|].
  simpl Nat.sub. rewrite Nat.sub_0_r.
  destruct (firstn_last k l Hk) as (c & -> & Hin).
  apply Dir_abs_snoc; [now apply Forall_firstn|].
  now apply (proj1 (Forall_forall real l) Hl).
Qed.

Lemma Join_two (a b : string) :
  a <> "" -> Path.Join [a; b] = Path.Clean (a ++ "/" ++ b).
Proof.
  intros Ha. rewrite <- app_assoc_s.
  destruct a as [|x a]; [congruence|]. reflexivity.
Qed.

Lemma rooted_app (a b : string) :
  a <> "" -> Path.rooted (a ++ b) = Path.rooted a.
Proof. destruct a; [congruence|reflexivity]. Qed.

(** Leading slashes of what is joined to a directory do not count. *)
Lemma Clean_join_TrimLeft (a s : string) :
  a <> "" ->
  Path.Clean (a ++ "/" ++ StringsExt.TrimLeft s "/") =
    Path.Clean (a ++ "/" ++ s).
Proof.
  intros Ha. induction s as [|c s IH]; [reflexivity|].
  simpl StringsExt.TrimLeft. rewrite orb_false_r.
  destruct (Ascii.eqb_spec c "/") as [->|Hc]; [|reflexivity].
  rewrite IH. unfold Path.Clean.
  replace (String.eqb (a ++ "/" ++ s) "") with false by (now destruct a).
  replace (String.eqb (a ++ "/" ++ String "/" s) "") with false
    by (now destruct a).
  rewrite !(rooted_app a) by assumption.
  change (a ++ "/" ++ String "/" s)
    with (a ++ String Path.slash (String Path.slash s)).
  change (a ++ "/" ++ s) with (a ++ String Path.slash s).
  rewrite !Split_app.
  change (Strings.Split (String Path.slash s) Path.slash)
    with ("" :: Strings.Split s Path.slash).
  rewrite !fold_left_app. cbn [fold_left].
  now rewrite clean_step_empty.
Qed.

Lemma TrimPrefix_app (a x : string) : StringsExt.TrimPrefix (a ++ x) a = x.
Proof.
  unfold StringsExt.TrimPrefix.
  replace (Strings.HasPrefix (a ++ x) a) with true
    by (symmetry; apply HasPrefix_iff; now exists x).
  now rewrite slice_from_app.
Qed.

Lemma concat_app_slash (l1 l2 : list string) :
  l1 <> [] -> l2 <> [] ->
  String.concat "/" (l1 ++ l2) =
    String.concat "/" l1 ++ "/" ++ String.concat "/" l2.
Proof.
  intros H1 H2. induction l1 as [|e l1 IH]; [congruence|].
  destruct l1 as [|e' l1].
  - destruct l2; [congruence|reflexivity].
  - change (String.concat "/" ((e :: e' :: l1) ++ l2))
      with (e ++ "/" ++ String.concat "/" ((e' :: l1) ++ l2)).
    rewrite IH by discriminate.
    change (String.concat "/" (e :: e' :: l1))
      with (e ++ "/" ++ String.concat "/" (e' :: l1)).
    now rewrite !app_assoc_s.
Qed.

(** What follows the path of the leading elements in the path of all:
    tidy, with the other elements. *)
Lemma abs_split (l1 l2 : list string) :
  Forall real l1 -> Forall real l2 ->
  exists x, abs_of (l1 ++ l2) = abs_of l1 ++ x /\
            tidy x /\ elements x = l2 /\
            tidy (x ++ "/") /\ elements (x ++ "/") = l2.
Proof.
  intros H1 H2.
  destruct (tidy_concat l2 H2) as [Ht He].
  assert (Hs : forall y, tidy y -> elements y = l2 ->
                         tidy (y ++ "/") /\ elements (y ++ "/") = l2).
  { intros y Hy Hey.
    destruct (tidy_app y "" Hy (proj1 tidy_empty)) as [Ha Hb].
    split; [exact Ha|]. change (y ++ "/") with (y ++ "/" ++ "").
    rewrite Hb, Hey. simpl. apply app_nil_r. }
  destruct l1 as [|e1 l1].
  - exists (String.concat "/" l2). split; [reflexivity|].
    split; [exact Ht|]. split; [exact He|]. now apply Hs.
  - destruct l2 as [|e2 l2].
    + exists "". rewrite app_nil_r, app_empty_r. split; [reflexivity|].
      split; [apply tidy_empty|]. split; [reflexivity|].
      split; [repeat constructor; now left|reflexivity].
    + exists ("/" ++ String.concat "/" (e2 :: l2)).
      split.
      * unfold abs_of. rewrite concat_app_slash by discriminate.
        now rewrite app_assoc_s.
      * destruct (tidy_app "" _ (proj1 tidy_empty) Ht) as [Ha Hb].
        split; [exact Ha|].
        assert (Hb' : elements ("/" ++ String.concat "/" (e2 :: l2))
                      = e2 :: l2)
          by (change ("/" ++ String.concat "/" (e2 :: l2))
                with ("" ++ "/" ++ String.concat "/" (e2 :: l2));
              now rewrite Hb, He).
        split; [exact Hb'|]. now apply Hs.
Qed.

Lemma abs_nonempty (l : list string) : abs_of l <> "".
Proof. discriminate. Qed.

Lemma join_abs (l1 l2 : list string) (y : string) :
  Forall real l1 -> tidy y -> elements y = l2 ->
  Path.Clean (abs_of l1 ++ "/" ++ y) = abs_of (l1 ++ l2).
Proof.
  intros H1 Hy He. destruct (tidy_abs l1 H1) as [Ht Hel].
  destruct (tidy_app _ _ Ht Hy) as [Ha Hb].
  rewrite Clean_tidy by (reflexivity || assumption).
  now rewrite Hb, Hel, He.
Qed.



(** X20.  A normalized target names the file the user meant: in an
    absolute working directory [wd], for a target [t] that does not start
    with [//], whenever [normalizeTarget] returns [r], the module root [R]
    of the target was found, and [r] joined to the parent directory of [R]
    is the path of [t] in [wd]. *)
Theorem normalizeTarget_names_same_path (fuel : nat) (wd t r : string)
  (w w' : World) :
  cwd (fs w) = Some wd -> Path.rooted wd = true ->
  Strings.HasPrefix t "//" = false ->
  normalizeTarget fuel t w = Some (Ret r, w') ->
  exists R,
    GetModuleRootForPath fuel (Path.Join [wd; t]) w = Some (Ret R, w) /\
    Path.Join [Path.Dir R; r] = Path.Join [wd; t].
Proof.
  intros Hc Hr Hp H. unfold normalizeTarget in H. rewrite Hp in H.
  unfold GetWorkingDir in H. rewrite Hc in H. unfold ret in H.
  destruct (GetModuleRootForPath fuel (Path.Join [wd; t]) w)
    as [[[R|c] w2]|] eqn:E; try discriminate.
  pose proof (GetModuleRootForPath_state _ _ _ _ _ E). subst w2.
  injection H as <- <-. exists R. split; [reflexivity|].
  assert (Hwd : wd <> "") by (intros ->; discriminate).
  assert (Hj : Path.Join [wd; t] = Path.Clean (wd ++ "/" ++ t))
    by now apply Join_two.
  destruct (Clean_absolute (wd ++ "/" ++ t)) as (l & Hl & Hcl);
    [now rewrite rooted_app|].
  rewrite Hj, Hcl in *.
  unfold GetModuleRootForPath in E.
  destruct (getModuleRoot fuel (fs w) (abs_of l)) as [[q|e]|] eqn:Eg;
    try discriminate.
  injection E as ->.
  destruct (getModuleRoot_leading _ l Hl _ _ Eg) as (k & Hk & ->).
  rewrite (Dir_abs_firstn k l Hl Hk).
  set (j := k - 1).
  pose proof (Forall_firstn real j l Hl) as Hf.
  pose proof (Forall_skipn real j l Hl) as Hs.
  destruct (abs_split _ _ Hf Hs) as (x & Hx & Htx & Hex & Hts & Hes).
  rewrite firstn_skipn in Hx.
  rewrite Join_two by apply abs_nonempty.
  rewrite Clean_join_TrimLeft by apply abs_nonempty.
  destruct (Strings.HasSuffix t "/" || String.eqb t "");
    rewrite Hx at 1; rewrite TrimPrefix_app.
  - rewrite (join_abs _ _ _ Hf Hts Hes). now rewrite firstn_skipn.
  - rewrite (join_abs _ _ _ Hf Htx Hex). now rewrite firstn_skipn.
Qed.

Lemma normalizeTarget_names_same_path_witness :
  cwd dep_fs = Some "/ws/DEPS/lib/src" /\
  normalizeTarget 20 "gen/" (world_of dep_fs)
    = Some (Ret "lib/src/gen/", world_of dep_fs) /\
  Path.Join [Path.Dir "/ws/DEPS/lib"; "lib/src/gen/"] =
    Path.Join ["/ws/DEPS/lib/src"; "gen/"].
Proof.
  split; [reflexivity|]. split; [reflexivity|].
  destruct (normalizeTarget_names_same_path 20 "/ws/DEPS/lib/src" "gen/"
              "lib/src/gen/" (world_of dep_fs) (world_of dep_fs)
              eq_refl eq_refl eq_refl eq_refl) as (R & HR & HJ).
  injection HR as <-. exact HJ.
Defined.

(** X21.  Outside of [DEPS] the workspace root is the module root: when
    [GetModuleRoot] returns a directory whose parent is not named [DEPS],
    [GetWorkspaceRoot] returns that directory, with any fuel that lets the
    module-root search finish. *)
Theorem workspace_root_is_module_root (fuel : nat) (q : string)
  (w w' : World) :
  GetModuleRoot fuel w = Some (Ret q, w') ->
  Path.Base (Path.Dir q) <> DepsDirName ->
  forall fuel', fuel <= fuel' -> 0 < fuel' ->
    GetWorkspaceRoot fuel' w = Some (Ret q, w).
Proof.
  unfold GetModuleRoot, GetWorkspaceRoot, GetWorkingDir.
  destruct (cwd (fs w)) as [d|]; [|discriminate]. unfold ret.
  unfold GetModuleRootForPath.
  destruct (getModuleRoot fuel (fs w) d) as [[r|e]|] eqn:E;
    [|discriminate|discriminate].
  intros [= <- <-] Hp fuel' Hle Hpos.
  destruct fuel' as [|k]; [lia|]. rewrite workspace_loop_S.
  rewrite (getModuleRoot_mono _ _ _ _ _ E Hle).
  apply String.eqb_neq in Hp. now rewrite Hp.
Qed.

Lemma workspace_root_is_module_root_witness :
  GetModuleRoot 20 (world_of nested_fs)
    = Some (Ret "/ws/sub", world_of nested_fs) /\
  Path.Base (Path.Dir "/ws/sub") <> DepsDirName /\
  GetWorkspaceRoot 20 (world_of nested_fs)
    = Some (Ret "/ws/sub", world_of nested_fs).
Proof.
  split; [reflexivity|]. split; [discriminate|].
  apply (workspace_root_is_module_root 20 "/ws/sub" (world_of nested_fs)
           (world_of nested_fs) eq_refl ltac:(discriminate) 20);
    [apply le_n|apply Nat.lt_0_succ].
Defined.

